(** * A restaurant CRM: ledger, segmentation and the outreach pipeline

    Shallow embedding of [crm/models.py], [crm/services.py],
    [crm/tasks.py] and the boundary entry points that the properties below
    mention ([AddVisitSerializer] and [add_visit], [CampaignViewSet.run],
    and the internal views [campaign_run], [campaign_pause] and
    [campaign_resume]).

    Conventions of the embedding.
    - A table is the list of its rows in the order a Django query without
      [order_by] returns them ([Meta.ordering], newest row first); an insert
      puts the new row in front.
    - A lazy [QuerySet] over customers is the predicate it pushes to the
      storage layer; it is evaluated against the table when the code
      iterates it.
    - [datetime] values are integers: microseconds elapsed since
      0001-01-01T00:00:00 UTC, which is [datetime.min].
    - Python statements with effects live in the monad [M]: a state monad
      over [World] whose computations either return a value or raise.
    - Everything the code asks of its environment is an oracle stored in the
      world: the wall clock ([timezone.now()]), the random source
      ([random.random() < 0.9]) and the outcome of each storage round trip
      (a storage call may raise [DatabaseError]).
    - A [BigIntegerField] column holds a signed 64-bit integer: Python
      computes with unbounded integers, and the INSERT or UPDATE that writes
      a value outside the range raises ([DataError], a [DatabaseError]).
    - [logger] calls are left out, except for the line that stands for the
      delivery of a message, which is appended to [outbox]. *)

From Stdlib Require Import ZArith List Ascii String Bool Arith Lia Permutation.
From Stdlib Require Import DecimalString.
Import ListNotations.

(** ** Data model ([crm/models.py]) *)

Definition pk := nat.
Definition datetime := Z.

Inductive CampaignStatus := draft | running | paused | completed.
Inductive EventStatus := queued | sent | failed | skipped.
Inductive Channel := email.

Module Customer.
Record t := mk {
  id : pk;
  restaurant : pk;
  email : string;
  first_name : string;
  last_name : string;
  total_spend_cents : Z;
  last_visit_at : option datetime
}.
End Customer.

Module Visit.
Record t := mk {
  id : pk;
  customer : pk;
  visited_at : datetime;
  spend_cents : Z
}.
End Visit.

Module Campaign.
Record t := mk {
  id : pk;
  restaurant : pk;
  name : string;
  status : CampaignStatus;
  segment_type : string;
  segment_value : Z;
  message_template : string
}.

Definition with_status (s : CampaignStatus) (c : t) : t :=
  mk (id c) (restaurant c) (name c) s (segment_type c) (segment_value c)
     (message_template c).
End Campaign.

Module OutreachEvent.
Record t := mk {
  id : pk;
  campaign : pk;
  customer : pk;
  channel : Channel;
  status : EventStatus;
  error_message : option string;
  sent_at : option datetime
}.

Inductive field := f_status | f_sent_at | f_error_message.

Definition field_eqb (a b : field) : bool :=
  match a, b with
  | f_status, f_status | f_sent_at, f_sent_at
  | f_error_message, f_error_message => true
  | _, _ => false
  end.
End OutreachEvent.

(** ** Storage and environment *)

Record DB := mkDB {
  customers : list Customer.t;
  visits : list Visit.t;
  campaigns : list Campaign.t;
  events : list OutreachEvent.t
}.

Record World := mkWorld {
  db : DB;
  clock : nat -> datetime;      (* successive readings of timezone.now() *)
  clock_ix : nat;
  rand : nat -> bool;           (* successive outcomes of random.random() < 0.9 *)
  rand_ix : nat;
  faults : list (option string);(* outcome of the next storage round trips *)
  outbox : list (string * string)
}.

Definition set_db (d : DB) (w : World) : World :=
  mkWorld d (clock w) (clock_ix w) (rand w) (rand_ix w) (faults w) (outbox w).

(** ** Exceptions and the monad *)

Inductive ExnClass :=
| CampaignDoesNotExist
| CustomerDoesNotExist
| MultipleObjectsReturned
| DatabaseError
| OverflowError
| FormatError.

Record exn := mkExn { exn_class : ExnClass; exn_str : string }.

Inductive result (A : Type) :=
| Ok (a : A)
| Raise (e : exn).
Arguments Ok {A} a.
Arguments Raise {A} e.

Definition M (A : Type) : Type := World -> result A * World.

Definition ret {A} (a : A) : M A := fun w => (Ok a, w).

Definition bind {A B} (m : M A) (k : A -> M B) : M B :=
  fun w => match m w with
           | (Ok a, w') => k a w'
           | (Raise e, w') => (Raise e, w')
           end.

Definition raise {A} (e : exn) : M A := fun w => (Raise e, w).

(** [try: m except e: h e] *)
Definition try_except {A} (m : M A) (h : exn -> M A) : M A :=
  fun w => match m w with
           | (Ok a, w') => (Ok a, w')
           | (Raise e, w') => h e w'
           end.

(** [@transaction.atomic]: an exception leaving the block rolls the tables
    back; what was asked of the environment stays consumed. *)
Definition atomic {A} (m : M A) : M A :=
  fun w => match m w with
           | (Ok a, w') => (Ok a, w')
           | (Raise e, w') => (Raise e, set_db (db w) w')
           end.

Declare Scope monad_scope.
Delimit Scope monad_scope with monad.
Notation "x <- m ;; k" := (bind m (fun x => k))
  (at level 61, m at next level, right associativity) : monad_scope.
Notation "m ;;; k" := (bind m (fun _ => k))
  (at level 61, right associativity) : monad_scope.
Notation "' pat <- m ;; k" := (bind m (fun x => match x with pat => k end))
  (at level 61, pat pattern, m at next level, right associativity) : monad_scope.
Open Scope monad_scope.

Definition get_db : M DB := fun w => (Ok (db w), w).
Definition put_db (d : DB) : M unit := fun w => (Ok tt, set_db d w).

(** One storage round trip. *)
Definition storage : M unit :=
  fun w => match faults w with
           | [] => (Ok tt, w)
           | None :: fs =>
               (Ok tt, mkWorld (db w) (clock w) (clock_ix w) (rand w) (rand_ix w)
                               fs (outbox w))
           | Some msg :: fs =>
               (Raise (mkExn DatabaseError msg),
                mkWorld (db w) (clock w) (clock_ix w) (rand w) (rand_ix w)
                        fs (outbox w))
           end.

(** [timezone.now()] *)
Definition timezone_now : M datetime :=
  fun w => (Ok (clock w (clock_ix w)),
            mkWorld (db w) (clock w) (S (clock_ix w)) (rand w) (rand_ix w)
                    (faults w) (outbox w)).

(** [random.random() < 0.9] *)
Definition random_lt_09 : M bool :=
  fun w => (Ok (rand w (rand_ix w)),
            mkWorld (db w) (clock w) (clock_ix w) (rand w) (S (rand_ix w))
                    (faults w) (outbox w)).

(** [logger.info(f"Sending email to {customer.email}: {message[:50]}...")] *)
Definition send_email (to preview : string) : M unit :=
  fun w => (Ok tt,
            mkWorld (db w) (clock w) (clock_ix w) (rand w) (rand_ix w)
                    (faults w) ((to, preview) :: outbox w)).

(** [Model.objects.get(...)] on the rows that match. *)
Definition get_one {A} (missing : ExnClass) (rows : list A) : M A :=
  match rows with
  | [] => raise (mkExn missing "matching query does not exist.")
  | [r] => ret r
  | _ :: _ :: _ =>
      raise (mkExn MultipleObjectsReturned "get() returned more than one row")
  end.

(** The next value of an auto-increment primary key. *)
Definition next_id (ids : list pk) : pk := S (fold_right Nat.max 0%nat ids).

(** ** Ledger ([crm/services.py], [record_visit]) *)

Inductive CustomerRef :=
| ById (k : pk)                 (* isinstance(customer, int) *)
| ByInstance (c : Customer.t).

Definition ref_pk (r : CustomerRef) : pk :=
  match r with ById k => k | ByInstance c => Customer.id c end.

(** [Customer.objects.select_for_update().get(pk=k)] *)
Definition get_customer_for_update (k : pk) : M Customer.t :=
  storage ;;;
  d <- get_db ;;
  get_one CustomerDoesNotExist
          (filter (fun c => Customer.id c =? k)%nat (customers d)).

(** The range of a [BigIntegerField] column ([Customer.total_spend_cents],
    [Visit.spend_cents]). *)
Definition INT64_MIN : Z := - 2 ^ 63.
Definition INT64_MAX : Z := 2 ^ 63 - 1.

Definition in_int64 (z : Z) : bool :=
  ((INT64_MIN <=? z) && (z <=? INT64_MAX))%Z.

Definition out_of_range {A} : M A :=
  raise (mkExn DatabaseError "bigint out of range").

(** [Visit.objects.create(customer=..., visited_at=..., spend_cents=...)]:
    the INSERT raises when [spend_cents] does not fit its column. *)
Definition create_visit (c : Customer.t) (at_ : datetime) (spend : Z)
  : M Visit.t :=
  storage ;;;
  d <- get_db ;;
  if in_int64 spend
  then
    let v := Visit.mk (next_id (map Visit.id (visits d))) (Customer.id c) at_ spend in
    put_db (mkDB (customers d) (v :: visits d) (campaigns d) (events d)) ;;;
    ret v
  else out_of_range.

(** [customer.save(update_fields=['total_spend_cents', 'last_visit_at'])]:
    an UPDATE of the two columns of the row with the instance's key; it
    raises when the new total does not fit its column, and Django raises
    when the UPDATE touches no row. *)
Definition update_customer_totals (c : Customer.t) (row : Customer.t)
  : Customer.t :=
  if (Customer.id row =? Customer.id c)%nat
  then Customer.mk (Customer.id row) (Customer.restaurant row)
                   (Customer.email row) (Customer.first_name row)
                   (Customer.last_name row)
                   (Customer.total_spend_cents c) (Customer.last_visit_at c)
  else row.

Definition save_customer_totals (c : Customer.t) : M unit :=
  storage ;;;
  d <- get_db ;;
  if in_int64 (Customer.total_spend_cents c)
  then
    if existsb (fun row => Customer.id row =? Customer.id c)%nat (customers d)
    then put_db (mkDB (map (update_customer_totals c) (customers d))
                      (visits d) (campaigns d) (events d))
    else raise (mkExn DatabaseError
                      "Save with update_fields did not affect any rows.")
  else out_of_range.

Definition later_than (at_ : datetime) (last : option datetime) : bool :=
  match last with
  | None => true                      (* customer.last_visit_at is None *)
  | Some t => Z.ltb t at_             (* visited_at > customer.last_visit_at *)
  end.

Definition record_visit (customer : CustomerRef) (spend_cents : Z)
           (visited_at : option datetime) : M Visit.t :=
  atomic (
    at_ <- match visited_at with
           | None => timezone_now
           | Some t => ret t
           end ;;
    c <- get_customer_for_update (ref_pk customer) ;;
    visit <- create_visit c at_ spend_cents ;;
    let total := (Customer.total_spend_cents c + spend_cents)%Z in
    let last := if later_than at_ (Customer.last_visit_at c)
                then Some at_ else Customer.last_visit_at c in
    let c' := Customer.mk (Customer.id c) (Customer.restaurant c)
                          (Customer.email c) (Customer.first_name c)
                          (Customer.last_name c) total last in
    save_customer_totals c' ;;;
    ret visit).

(** ** Segmentation ([crm/services.py]) *)

(** A lazy [QuerySet] of customers: the accumulated filter. *)
Definition QuerySet := Customer.t -> bool.

Definition lift {A} (r : result A) : M A := fun w => (r, w).

Definition US_PER_DAY : Z := 86400000000.
(** [timedelta.max.days] and [datetime.max], the latter counted from
    [datetime.min] ([date.max.toordinal() = 3652059]). *)
Definition MAX_DELTA_DAYS : Z := 999999999.
Definition DATETIME_MAX : Z := 3652059 * US_PER_DAY - 1.

(** [timedelta(days=days)], in microseconds. *)
Definition timedelta_days (days : Z) : result Z :=
  if (Z.abs days <=? MAX_DELTA_DAYS)%Z
  then Ok (days * US_PER_DAY)%Z
  else Raise (mkExn OverflowError "days must have magnitude <= 999999999").

(** [datetime - timedelta] *)
Definition datetime_sub (t : datetime) (delta : Z) : result datetime :=
  let r := (t - delta)%Z in
  if ((0 <=? r) && (r <=? DATETIME_MAX))%Z
  then Ok r
  else Raise (mkExn OverflowError "date value out of range").

(** [Q(last_visit_at__lt=cutoff_date) | Q(last_visit_at__isnull=True)] *)
Definition inactive_before (cutoff_date : datetime) (c : Customer.t) : bool :=
  match Customer.last_visit_at c with
  | Some t => (t <? cutoff_date)%Z
  | None => true
  end.

Definition inactive_days (queryset : QuerySet) (days : Z) : M QuerySet :=
  now <- timezone_now ;;
  delta <- lift (timedelta_days days) ;;
  cutoff_date <- lift (datetime_sub now delta) ;;
  ret (fun c => queryset c && inactive_before cutoff_date c).

(** [queryset.filter(total_spend_cents__gte=min_spend_cents)] *)
Definition high_spenders (queryset : QuerySet) (min_spend_cents : Z) : QuerySet :=
  fun c => queryset c && (min_spend_cents <=? Customer.total_spend_cents c)%Z.

(** ** Outreach pipeline ([crm/tasks.py]) *)

Record Totals := mkTotals {
  total_processed : nat;
  total_sent : nat;
  total_failed : nat
}.

Inductive TaskReturn :=
| ReturnNone                                     (* bare [return] *)
| ReturnSummary (campaign_id : pk) (t : Totals)
| ReturnNotFound (campaign_id : pk).             (* {'error': 'Campaign N not found'} *)

Definition batch_size : nat := 200.

(** [range(0, stop, step)] and [l[i:j]] *)
Definition range_step (stop step : nat) : list nat :=
  map (fun k => k * step)%nat (seq 0 ((stop + step - 1) / step)).

Definition slice {A} (l : list A) (i j : nat) : list A :=
  firstn (j - i) (skipn i l).

Definition mem_pk (k : pk) (ks : list pk) : bool := existsb (Nat.eqb k) ks.

(** [Campaign.objects.select_related('restaurant').get(pk=campaign_id)] and
    [Campaign.objects.get(pk=campaign_id)] *)
Definition get_campaign (campaign_id : pk) : M Campaign.t :=
  storage ;;;
  d <- get_db ;;
  get_one CampaignDoesNotExist
          (filter (fun c => Campaign.id c =? campaign_id)%nat (campaigns d)).

(** [campaign.save(update_fields=['status'])] *)
Definition update_campaign_status (c : Campaign.t) (row : Campaign.t)
  : Campaign.t :=
  if (Campaign.id row =? Campaign.id c)%nat
  then Campaign.with_status (Campaign.status c) row
  else row.

Definition save_campaign_status (c : Campaign.t) : M unit :=
  storage ;;;
  d <- get_db ;;
  if existsb (fun row => Campaign.id row =? Campaign.id c)%nat (campaigns d)
  then put_db (mkDB (customers d) (visits d)
                    (map (update_campaign_status c) (campaigns d)) (events d))
  else raise (mkExn DatabaseError
                    "Save with update_fields did not affect any rows.").

(** [list(customers_queryset.values_list('id', flat=True))] *)
Definition values_list_id (qs : QuerySet) : M (list pk) :=
  storage ;;;
  d <- get_db ;;
  ret (map Customer.id (filter qs (customers d))).

(** Iterating [Customer.objects.filter(id__in=batch_ids)] *)
Definition customers_id_in (batch_ids : list pk) : M (list Customer.t) :=
  storage ;;;
  d <- get_db ;;
  ret (filter (fun c => mem_pk (Customer.id c) batch_ids) (customers d)).

Definition event_for (campaign customer : pk) (e : OutreachEvent.t) : bool :=
  ((OutreachEvent.campaign e =? campaign) &&
   (OutreachEvent.customer e =? customer))%nat.

(** [OutreachEvent.objects.get_or_create(campaign=..., customer=...,
    defaults={'status': 'queued', 'channel': 'email'})] *)
Definition get_or_create_event (campaign : Campaign.t) (customer : Customer.t)
  : M (OutreachEvent.t * bool) :=
  storage ;;;
  d <- get_db ;;
  match filter (event_for (Campaign.id campaign) (Customer.id customer))
               (events d) with
  | [] =>
      let e := OutreachEvent.mk (next_id (map OutreachEvent.id (events d)))
                                (Campaign.id campaign) (Customer.id customer)
                                email queued None None in
      put_db (mkDB (customers d) (visits d) (campaigns d) (e :: events d)) ;;;
      ret (e, true)
  | [e] => ret (e, false)
  | _ :: _ :: _ =>
      raise (mkExn MultipleObjectsReturned "get() returned more than one row")
  end.

(** [event.save(update_fields=fields)] *)
Definition update_event (fields : list OutreachEvent.field)
           (e : OutreachEvent.t) (row : OutreachEvent.t) : OutreachEvent.t :=
  if (OutreachEvent.id row =? OutreachEvent.id e)%nat
  then
    let has f := existsb (OutreachEvent.field_eqb f) fields in
    OutreachEvent.mk
      (OutreachEvent.id row) (OutreachEvent.campaign row)
      (OutreachEvent.customer row) (OutreachEvent.channel row)
      (if has OutreachEvent.f_status
       then OutreachEvent.status e else OutreachEvent.status row)
      (if has OutreachEvent.f_error_message
       then OutreachEvent.error_message e else OutreachEvent.error_message row)
      (if has OutreachEvent.f_sent_at
       then OutreachEvent.sent_at e else OutreachEvent.sent_at row)
  else row.

Definition save_event (fields : list OutreachEvent.field) (e : OutreachEvent.t)
  : M unit :=
  storage ;;;
  d <- get_db ;;
  if existsb (fun row => OutreachEvent.id row =? OutreachEvent.id e)%nat (events d)
  then put_db (mkDB (customers d) (visits d) (campaigns d)
                    (map (update_event fields e) (events d)))
  else raise (mkExn DatabaseError
                    "Save with update_fields did not affect any rows.").

Definition terminal (s : EventStatus) : bool :=
  match s with sent | skipped => true | queued | failed => false end.

Definition set_outcome (s : EventStatus) (err : option string)
           (at_ : option datetime) (e : OutreachEvent.t) : OutreachEvent.t :=
  OutreachEvent.mk (OutreachEvent.id e) (OutreachEvent.campaign e)
                   (OutreachEvent.customer e) (OutreachEvent.channel e)
                   s err at_.

Definition add_sent (t : Totals) : Totals :=
  mkTotals (total_processed t) (S (total_sent t)) (total_failed t).
Definition add_failed (t : Totals) : Totals :=
  mkTotals (total_processed t) (total_sent t) (S (total_failed t)).
Definition add_processed (t : Totals) : Totals :=
  mkTotals (S (total_processed t)) (total_sent t) (total_failed t).

Section Pipeline.

(** [template.format(first_name=...)]: a builtin, taken as given.  It
    returns the rendered message or raises. *)
Variable str_format : string -> string -> result string.

(** The [except Exception as e] arm of the per-event [try]. *)
Definition event_failed (event : OutreachEvent.t) (t : Totals) (e : exn)
  : M Totals :=
  let event := set_outcome failed (Some (exn_str e))
                           (OutreachEvent.sent_at event) event in
  save_event [OutreachEvent.f_status; OutreachEvent.f_error_message] event ;;;
  ret (add_processed (add_failed t)).

(** The per-event [try] block ("Process the event").  Inside it only the
    rendering and the final [event.save] can raise; the assignments to
    [event] and to the counters made before the [save] are visible to the
    [except] arm, as they are in Python. *)
Definition process_event (campaign : Campaign.t) (customer : Customer.t)
           (event : OutreachEvent.t) (t : Totals) : M Totals :=
  match str_format (Campaign.message_template campaign)
                   (Customer.first_name customer) with
  | Raise e => event_failed event t e
  | Ok message =>
      send_email (Customer.email customer) (substring 0 50 message) ;;;
      success <- random_lt_09 ;;
      '(event, t) <-
         (if success : bool
          then now <- timezone_now ;;
               ret (set_outcome sent None (Some now) event, add_sent t)
          else ret (set_outcome failed
                                (Some "Simulated email delivery failure"%string)
                                (OutreachEvent.sent_at event) event,
                    add_failed t)) ;;
      try_except
        (save_event [OutreachEvent.f_status; OutreachEvent.f_sent_at;
                     OutreachEvent.f_error_message] event ;;;
         ret (add_processed t))
        (event_failed event t)
  end.

(** The body of [for customer in batch_customers]. *)
Definition process_customer (campaign : Campaign.t) (customer : Customer.t)
           (t : Totals) : M Totals :=
  '(event, _) <- get_or_create_event campaign customer ;;
  if terminal (OutreachEvent.status event)
  then ret t                                            (* continue *)
  else process_event campaign customer event t.

Fixpoint for_customers (campaign : Campaign.t) (batch : list Customer.t)
         (t : Totals) : M Totals :=
  match batch with
  | [] => ret t
  | customer :: rest =>
      t' <- process_customer campaign customer t ;;
      for_customers campaign rest t'
  end.

(** [for i in range(0, len(customer_ids), batch_size)], resumed at the
    indices [starts]. *)
Fixpoint for_batches (campaign : Campaign.t) (customer_ids : list pk)
         (starts : list nat) (t : Totals) : M Totals :=
  match starts with
  | [] => ret t
  | i :: rest =>
      let batch_ids := slice customer_ids i (i + batch_size) in
      batch_customers <- customers_id_in batch_ids ;;
      t' <- for_customers campaign batch_customers t ;;
      for_batches campaign customer_ids rest t'
  end.

(** What follows the batch loop. *)
Definition finish (campaign : Campaign.t) (campaign_id : pk) (t : Totals)
  : M TaskReturn :=
  save_campaign_status (Campaign.with_status completed campaign) ;;;
  ret (ReturnSummary campaign_id t).

(** The segment selected by the campaign, [None] for an unknown
    [segment_type]. *)
Definition apply_segmentation (campaign : Campaign.t) (qs : QuerySet)
  : M (option QuerySet) :=
  if (Campaign.segment_type campaign =? "inactive_days")%string
  then qs' <- inactive_days qs (Campaign.segment_value campaign) ;;
       ret (Some qs')
  else if (Campaign.segment_type campaign =? "high_spenders")%string
  then ret (Some (high_spenders qs (Campaign.segment_value campaign)))
  else ret None.

(** The body of the outer [try]. *)
Definition task_body (campaign_id : pk) : M TaskReturn :=
  campaign <- get_campaign campaign_id ;;
  let customers_queryset : QuerySet :=
    fun c => (Customer.restaurant c =? Campaign.restaurant campaign)%nat in
  segment <- apply_segmentation campaign customers_queryset ;;
  match segment with
  | None => ret ReturnNone
  | Some customers_queryset =>
      customer_ids <- values_list_id customers_queryset ;;
      t <- for_batches campaign customer_ids
                       (range_step (List.length customer_ids) batch_size)
                       (mkTotals 0 0 0) ;;
      finish campaign campaign_id t
  end.

(** The [except Exception] arm of the outer [try]. *)
Definition pause_on_error (campaign_id : pk) (e : exn) : M TaskReturn :=
  try_except
    (campaign <- get_campaign campaign_id ;;
     save_campaign_status (Campaign.with_status paused campaign))
    (fun _ => ret tt) ;;;
  raise e.

Definition run_campaign_task (campaign_id : pk) : M TaskReturn :=
  try_except (task_body campaign_id)
    (fun e =>
       match exn_class e with
       | CampaignDoesNotExist => ret (ReturnNotFound campaign_id)
       | _ => pause_on_error campaign_id e
       end).

End Pipeline.

(** ** Boundary layer: the two entry points the properties refer to *)

(** [AddVisitSerializer]: [spend_cents = IntegerField(min_value=0)]. *)
Definition AddVisitSerializer_is_valid (spend_cents : Z) : bool :=
  (0 <=? spend_cents)%Z.

Inductive Response :=
| Created (v : Visit.t)        (* 201 *)
| BadRequest.                  (* 400, raised by is_valid(raise_exception=True) *)

(** [CustomerViewSet.add_visit], once [get_object()] has found the customer. *)
Definition add_visit (customer : Customer.t) (spend_cents : Z)
           (visited_at : option datetime) : M Response :=
  if AddVisitSerializer_is_valid spend_cents
  then visit <- record_visit (ByInstance customer) spend_cents visited_at ;;
       ret (Created visit)
  else ret BadRequest.

(** [internal_views.campaign_pause], once [get_object_or_404] has found the
    campaign: only a running campaign is paused. *)
Definition campaign_pause (campaign : Campaign.t) : M unit :=
  match Campaign.status campaign with
  | running => save_campaign_status (Campaign.with_status paused campaign)
  | _ => ret tt
  end.

(** ** Specification-side vocabulary *)

(** A sequence of [record_visit] calls on one customer. *)
Fixpoint record_visits (customer : pk) (calls : list (Z * option datetime))
  : M (list Visit.t) :=
  match calls with
  | [] => ret []
  | (spend_cents, visited_at) :: rest =>
      v <- record_visit (ById customer) spend_cents visited_at ;;
      vs <- record_visits customer rest ;;
      ret (v :: vs)
  end.

Definition sum_spend (calls : list (Z * option datetime)) : Z :=
  fold_right Z.add 0%Z (map fst calls).

(** Every amount of [calls], and every running total they lead to from
    [total] on, fits a [BigIntegerField]. *)
Fixpoint amounts_fit (total : Z) (calls : list (Z * option datetime)) : bool :=
  match calls with
  | [] => true
  | (spend_cents, _) :: rest =>
      in_int64 spend_cents && in_int64 (total + spend_cents) &&
      amounts_fit (total + spend_cents) rest
  end.

(** The maximum of a list of timestamps, [None] when there is none. *)
Definition max_datetime (ts : list datetime) : option datetime :=
  match ts with
  | [] => None
  | t :: rest => Some (fold_right Z.max t rest)
  end.

(** The [visited_at] of each call: the argument when it is given, the next
    clock reading otherwise. *)
Fixpoint effective_times (clk : nat -> datetime) (ix : nat)
         (calls : list (Z * option datetime)) : list datetime :=
  match calls with
  | [] => []
  | (_, Some t) :: rest => t :: effective_times clk ix rest
  | (_, None) :: rest => clk ix :: effective_times clk (S ix) rest
  end.

(** The row of customer [k], when the primary key identifies exactly one. *)
Definition customer_row (d : DB) (k : pk) : option Customer.t :=
  match filter (fun c => Customer.id c =? k)%nat (customers d) with
  | [c] => Some c
  | _ => None
  end.

Definition campaign_row (d : DB) (k : pk) : option Campaign.t :=
  match filter (fun c => Campaign.id c =? k)%nat (campaigns d) with
  | [c] => Some c
  | _ => None
  end.

Definition event_key (e : OutreachEvent.t) : pk * pk :=
  (OutreachEvent.campaign e, OutreachEvent.customer e).

(** The integrity constraints the database enforces on [OutreachEvent]:
    the primary key and [unique_together = [['campaign', 'customer']]]. *)
Definition events_ok (evs : list OutreachEvent.t) : Prop :=
  NoDup (map OutreachEvent.id evs) /\ NoDup (map event_key evs).

(** [last_visit_at] after visits at [ts], starting from [last]. *)
Definition merge_last (last : option datetime) (ts : list datetime)
  : option datetime :=
  max_datetime (match last with None => ts | Some l => l :: ts end).

(** The effective timestamps are the explicit ones together with the first
    clock readings, one per defaulted call. *)
Fixpoint explicit_times (calls : list (Z * option datetime)) : list datetime :=
  match calls with
  | [] => []
  | (_, Some t) :: rest => t :: explicit_times rest
  | (_, None) :: rest => explicit_times rest
  end.

Fixpoint defaulted (calls : list (Z * option datetime)) : nat :=
  match calls with
  | [] => 0
  | (_, Some _) :: rest => defaulted rest
  | (_, None) :: rest => S (defaulted rest)
  end.

(** Whether [timezone.now() - timedelta(days=days)] is a [datetime]. *)
Definition cutoff_representable (now : datetime) (days : Z) : bool :=
  ((Z.abs days <=? MAX_DELTA_DAYS) &&
   ((0 <=? now - days * US_PER_DAY) && (now - days * US_PER_DAY <=? DATETIME_MAX)))%Z.

(** ** Sample data *)

(** 2026-11-03T00:00:00 UTC. *)
Definition sample_now : datetime := (739922 * US_PER_DAY)%Z.

Definition days_ago (n : Z) : datetime := (sample_now - n * US_PER_DAY)%Z.

Definition sample_world (d : DB) : World :=
  mkWorld d (fun n => sample_now + Z.of_nat n)%Z 0 (fun _ => true) 0 [] [].

Definition never_visited : Customer.t :=
  Customer.mk 1 1 "novisits@example.com" "No" "Visits" 0 None.

Definition lapsed : Customer.t :=
  Customer.mk 2 1 "inactive@example.com" "Inactive" "User" 5000 (Some (days_ago 35)).

Definition regular : Customer.t :=
  Customer.mk 3 1 "active@example.com" "Active" "User" 10000 (Some (days_ago 5)).

Definition sample_db : DB :=
  mkDB [regular; lapsed; never_visited] [] [] [].

(** ** Invariants of the event table *)

Definition same_tables (d d' : DB) : Prop :=
  customers d' = customers d /\ visits d' = visits d /\
  campaigns d' = campaigns d.

(** The row [get_or_create] inserts. *)
Definition new_event (campaign customer : pk) (evs : list OutreachEvent.t)
  : OutreachEvent.t :=
  OutreachEvent.mk (next_id (map OutreachEvent.id evs)) campaign customer
                   email queued None None.

(** What the pipeline may do to the event table while it works for campaign
    [camp] on customers satisfying [P]: insert the missing row of such a
    customer, or save an outcome ([sent] or [failed]) on such a customer's
    row that is not yet [sent] or [skipped]. *)
Inductive evolves (camp : pk) (P : pk -> Prop) (evs : list OutreachEvent.t)
  : list OutreachEvent.t -> Prop :=
| ev_same : evolves camp P evs evs
| ev_create (evs1 : list OutreachEvent.t) (cust : pk) :
    evolves camp P evs evs1 -> P cust ->
    filter (event_for camp cust) evs1 = [] ->
    evolves camp P evs (new_event camp cust evs1 :: evs1)
| ev_save (evs1 : list OutreachEvent.t) (e0 ev : OutreachEvent.t)
          (fields : list OutreachEvent.field) :
    evolves camp P evs evs1 ->
    In e0 evs1 -> OutreachEvent.campaign e0 = camp ->
    P (OutreachEvent.customer e0) ->
    terminal (OutreachEvent.status e0) = false ->
    OutreachEvent.id ev = OutreachEvent.id e0 ->
    OutreachEvent.status ev = sent \/ OutreachEvent.status ev = failed ->
    In OutreachEvent.f_status fields ->
    evolves camp P evs (map (update_event fields ev) evs1).

(** The queryset a run started in [w] resolves for the campaign, when it
    resolves one: the restaurant's customers, narrowed by the segment. *)
Definition restaurant_customers (campaign : Campaign.t) : QuerySet :=
  fun c => (Customer.restaurant c =? Campaign.restaurant campaign)%nat.

Definition selected_by (campaign : Campaign.t) (w : World) : option QuerySet :=
  match apply_segmentation campaign (restaurant_customers campaign) w with
  | (Ok (Some qs), _) => Some qs
  | _ => None
  end.

Definition segment_of_run (campaign_id : pk) (w : World) : option QuerySet :=
  match campaign_row (db w) campaign_id with
  | Some campaign => selected_by campaign w
  | None => None
  end.

(** A computation that never raises [Campaign.DoesNotExist]. *)
Definition finds_campaign {A} (m : M A) : Prop :=
  forall w x w', m w = (Raise x, w') -> exn_class x <> CampaignDoesNotExist.

(** What an attempt on a row leaves behind when storage works: [e'] is the
    row afterwards, [wa] the world in which the attempt started. *)
Definition attempt_outcome (rendered : result string) (customer : Customer.t)
           (t : Totals) (wa : World) (e' : OutreachEvent.t) (t' : Totals)
           (w' : World) : Prop :=
  match rendered with
  | Raise x =>
      t' = add_processed (add_failed t) /\
      OutreachEvent.status e' = failed /\
      OutreachEvent.error_message e' = Some (exn_str x) /\
      outbox w' = outbox wa /\ rand_ix w' = rand_ix wa /\ clock_ix w' = clock_ix wa
  | Ok message =>
      outbox w' = (Customer.email customer, substring 0 50 message) :: outbox wa /\
      rand_ix w' = S (rand_ix wa) /\
      if rand wa (rand_ix wa)
      then t' = add_processed (add_sent t) /\
           OutreachEvent.status e' = sent /\
           OutreachEvent.error_message e' = None /\
           OutreachEvent.sent_at e' = Some (clock wa (clock_ix wa)) /\
           clock_ix w' = S (clock_ix wa)
      else t' = add_processed (add_failed t) /\
           OutreachEvent.status e' = failed /\
           OutreachEvent.error_message e'
             = Some "Simulated email delivery failure"%string /\
           clock_ix w' = clock_ix wa
  end.

(** The world after somebody else has rewritten the campaign table. *)
Definition with_campaigns (cs : list Campaign.t) (w : World) : World :=
  set_db (mkDB (customers (db w)) (visits (db w)) cs (events (db w))) w.

(** A computation whose course does not depend on the campaign table. *)
Definition ignores_campaigns {A} (m : M A) : Prop :=
  forall cs w, m (with_campaigns cs w)
               = (fst (m w), with_campaigns cs (snd (m w))).

(** A computation that puts nothing in the outbox. *)
Definition keeps_outbox {A} (m : M A) : Prop :=
  forall w r w', m w = (r, w') -> outbox w' = outbox w.

(** The event of the pair (campaign, customer) is [sent] or [skipped] in
    [evs]. *)
Definition settled (campaign customer : pk) (evs : list OutreachEvent.t) : bool :=
  existsb (fun e => event_for campaign customer e &&
                    terminal (OutreachEvent.status e)) evs.

(** The customers the batch loop takes, in its order: for each batch of ids
    the rows of [cs] whose id is in the batch. *)
Definition batches_of (batches : list (list pk)) (cs : list Customer.t)
  : list Customer.t :=
  flat_map (fun batch_ids =>
              filter (fun c => mem_pk (Customer.id c) batch_ids) cs) batches.

(** "Not re-sent, not re-processed", for a run of [campaign_id] that went
    from [w] to [w'] with outcome [r].  The run has put the messages
    [sent_now] in the outbox.  When its campaign and segment resolve, and
    customer ids are unique, every one of these messages is addressed to a
    selected customer whose event was not settled when the run started; no
    message is addressed to a customer of the campaign's restaurant whose
    event was settled (emails being unique within a restaurant); and the
    counters of the summary count customers with an unsettled event only
    (a failed save can count one event as failed twice).  When they do not
    resolve, nothing is sent. *)
Definition settled_left_alone (campaign_id : pk) (w : World)
           (r : result TaskReturn) (w' : World) : Prop :=
  exists sent_now,
    outbox w' = sent_now ++ outbox w /\
    (segment_of_run campaign_id w = None -> sent_now = []) /\
    forall campaign qs,
      campaign_row (db w) campaign_id = Some campaign ->
      selected_by campaign w = Some qs ->
      NoDup (map Customer.id (customers (db w))) ->
      let pending c :=
        qs c && negb (settled campaign_id (Customer.id c) (events (db w))) in
      (forall m, In m sent_now ->
         exists c, In c (customers (db w)) /\ pending c = true /\
                   fst m = Customer.email c) /\
      (NoDup (map (fun c => (Customer.restaurant c, Customer.email c))
                  (customers (db w))) ->
       forall c, In c (customers (db w)) ->
         Customer.restaurant c = Campaign.restaurant campaign ->
         settled campaign_id (Customer.id c) (events (db w)) = true ->
         forall m, In m sent_now -> fst m <> Customer.email c) /\
      (forall c0 t, r = Ok (ReturnSummary c0 t) ->
         total_processed t <= List.length (filter pending (customers (db w))) /\
         total_sent t <= List.length (filter pending (customers (db w))) /\
         total_failed t <= 2 * List.length (filter pending (customers (db w)))) /\
      ((forall c, In c (customers (db w)) -> qs c = true ->
          settled campaign_id (Customer.id c) (events (db w)) = true) ->
       sent_now = [] /\
       forall c0 t, r = Ok (ReturnSummary c0 t) -> t = mkTotals 0 0 0).

(** ** An instance of [str.format] for the examples

    The fragment of the format mini-language the templates of this
    application use: literal text, the escapes [{{] and [}}], and fields
    that are a plain keyword name, of which only [first_name] is supplied.
    Fields with a conversion, a format spec, an attribute or an index are
    outside this instance.  The messages are those of CPython. *)

Inductive FormatState :=
| InText
| AfterOpen
| InField (name : string)
| AfterClose.

Definition add_char (s : string) (c : Ascii.ascii) : string :=
  (s ++ String c EmptyString)%string.

Fixpoint format_scan (st : FormatState) (first_name : string) (s : string)
         (acc : string) : result string :=
  match s with
  | EmptyString =>
      match st with
      | InText => Ok acc
      | AfterOpen =>
          Raise (mkExn FormatError "Single '{' encountered in format string")
      | InField _ =>
          Raise (mkExn FormatError "expected '}' before end of string")
      | AfterClose =>
          Raise (mkExn FormatError "Single '}' encountered in format string")
      end
  | String c rest =>
      match st with
      | InText =>
          if Ascii.eqb c "{"%char then format_scan AfterOpen first_name rest acc
          else if Ascii.eqb c "}"%char then format_scan AfterClose first_name rest acc
          else format_scan InText first_name rest (add_char acc c)
      | AfterOpen =>
          if Ascii.eqb c "{"%char then format_scan InText first_name rest (add_char acc c)
          else if Ascii.eqb c "}"%char
          then Raise (mkExn FormatError
                 "Replacement index 0 out of range for positional args tuple")
          else format_scan (InField (String c EmptyString)) first_name rest acc
      | InField name =>
          if Ascii.eqb c "}"%char
          then if (name =? "first_name")%string
               then format_scan InText first_name rest (acc ++ first_name)%string
               else Raise (mkExn FormatError ("'" ++ name ++ "'")%string)
          else if Ascii.eqb c "{"%char
          then Raise (mkExn FormatError "unexpected '{' in field name")
          else format_scan (InField (add_char name c)) first_name rest acc
      | AfterClose =>
          if Ascii.eqb c "}"%char then format_scan InText first_name rest (add_char acc c)
          else Raise (mkExn FormatError "Single '}' encountered in format string")
      end
  end.

Definition format_first_name (template first_name : string) : result string :=
  format_scan InText first_name template EmptyString.

(** ** Sample campaigns *)

Definition come_back : Campaign.t :=
  Campaign.mk 1 1 "Test Campaign" draft "inactive_days" 30
              "Hello {first_name}, come back!".

Definition birthday : Campaign.t :=
  Campaign.mk 2 1 "Birthdays" draft "birthday_month" 11 "Happy birthday {first_name}!".

Definition far_past : Campaign.t :=
  Campaign.mk 3 1 "Everybody" running "inactive_days" 1000000000 "Hello {first_name}!".

Definition unclosed : Campaign.t :=
  Campaign.mk 4 1 "Typo" running "high_spenders" 0 "Hello {first_name".

Definition campaign_db : DB :=
  mkDB [regular; lapsed; never_visited] []
       [come_back; birthday; far_past; unclosed] [].

(** A restaurant with 201 customers, each above the spending threshold of
    its one running campaign: one more than a batch holds. *)
Definition patron (n : nat) : Customer.t :=
  Customer.mk n 1
              ("patron" ++ NilZero.string_of_uint (Nat.to_uint n) ++ "@example.com")
              "Pat" "Ron" 10000 None.

Definition big_spenders : Campaign.t :=
  Campaign.mk 1 1 "Thank you" running "high_spenders" 5000 "Thanks {first_name}!".

Definition patrons_db : DB :=
  mkDB (map patron (rev (seq 1 201))) [] [big_spenders] [].

Definition patron_ids : list pk :=
  map Customer.id (filter (high_spenders (restaurant_customers big_spenders) 5000)
                          (customers patrons_db)).

(** The event row [e] has been attempted by the time of [w']: its row now
    holds an outcome, the one of the rendering failure when the template
    does not render for the customer, and otherwise a message to the
    customer has been put in the outbox on top of [outbox0]. *)
Definition attempted (rendered : result string) (customer : Customer.t)
           (outbox0 : list (string * string)) (e : OutreachEvent.t)
           (w' : World) : Prop :=
  exists e',
    In e' (events (db w')) /\
    OutreachEvent.id e' = OutreachEvent.id e /\
    event_key e' = event_key e /\
    (OutreachEvent.status e' = sent \/ OutreachEvent.status e' = failed) /\
    match rendered with
    | Raise x =>
        OutreachEvent.status e' = failed /\
        OutreachEvent.error_message e' = Some (exn_str x)
    | Ok message =>
        exists pre, outbox w' = pre ++ outbox0 /\
                    In (Customer.email customer, substring 0 50 message) pre
    end.

(** A customer whose last visit is exactly thirty days before the first
    clock reading, and the campaign for customers inactive for thirty days. *)
Definition on_the_edge : Customer.t :=
  Customer.mk 1 1 "edge@example.com" "Ed" "Ge" 0 (Some (days_ago 30)).

Definition edge_db : DB := mkDB [on_the_edge] [] [come_back] [].

(** ** Ledger consistency

    The aggregates of every customer agree with the customer's visits. *)

Definition visits_of (d : DB) (k : pk) : list Visit.t :=
  filter (fun v => Visit.customer v =? k)%nat (visits d).

Definition ledger_consistent (d : DB) : Prop :=
  forall c, In c (customers d) ->
    Customer.total_spend_cents c
    = fold_right Z.add 0%Z (map Visit.spend_cents (visits_of d (Customer.id c))) /\
    Customer.last_visit_at c
    = max_datetime (map Visit.visited_at (visits_of d (Customer.id c))).

(** A restaurant's books on its first day: one customer, no visit yet. *)
Definition fresh_db : DB := mkDB [never_visited] [] [] [].


(** The counters of a run: what holds of them whatever the storage does,
    and what holds when every save goes through. *)
Definition counts_bounded (t : Totals) : Prop :=
  total_sent t <= total_processed t /\
  total_processed t <= total_sent t + total_failed t.

Definition counts_add_up (t : Totals) : Prop :=
  total_processed t = total_sent t + total_failed t.

(** ** Boundary layer: triggering and resuming a campaign *)



Section Trigger.

(** [run_campaign_task.delay]: the hand-over of the task to Celery, taken as
    given. *)
Variable delay : pk -> M unit.




End Trigger.







(** A world whose storage fails on the third round trip. *)
Definition flaky_world : World :=
  mkWorld fresh_db (fun n => sample_now + Z.of_nat n)%Z 0 (fun _ => true) 0
          [None; None; Some "deadlock detected"%string] [].

(** A row left [failed] by an earlier run, and a world in which the second
    of the next three storage round trips fails. *)
Definition stale_event : OutreachEvent.t :=
  OutreachEvent.mk 1 1 2 email failed
                   (Some "Simulated email delivery failure"%string) None.

Definition retry_world : World :=
  mkWorld (mkDB [regular; lapsed; never_visited] [] [come_back] [stale_event])
          (fun n => sample_now + Z.of_nat n)%Z 0 (fun _ => true) 0
          [None; Some "connection reset"%string; None] [].
(** ** Stepping through the monad *)

Lemma storage_ok {w : World} : faults w = [] -> storage w = (Ok tt, w).
Proof. unfold storage. intros ->. reflexivity. Qed.

Lemma storage_db {w w' : World} {r : result unit} :
  storage w = (r, w') -> db w' = db w.
Proof.
  unfold storage. destruct (faults w) as [|[msg|] fs]; intros H;
    inversion H; reflexivity.
Qed.

Lemma storage_raise {w w' : World} {x : exn} :
  storage w = (Raise x, w') -> exn_class x = DatabaseError.
Proof.
  unfold storage. destruct (faults w) as [|[msg|] fs]; intros H;
    inversion H; reflexivity.
Qed.

Lemma storage_frame {w w' : World} {r : result unit} :
  storage w = (r, w') ->
  clock w' = clock w /\ clock_ix w' = clock_ix w /\
  rand w' = rand w /\ rand_ix w' = rand_ix w /\ outbox w' = outbox w.
Proof.
  unfold storage. destruct (faults w) as [|[msg|] fs]; intros H;
    inversion H; repeat split.
Qed.

Lemma bind_ok {A B} {m : M A} (k : A -> M B) {w w' : World} {a : A} :
  m w = (Ok a, w') -> bind m k w = k a w'.
Proof. unfold bind. intros ->. reflexivity. Qed.

Lemma bind_raise {A B} {m : M A} (k : A -> M B) {w w' : World} {e : exn} :
  m w = (Raise e, w') -> bind m k w = (Raise e, w').
Proof. unfold bind. intros ->. reflexivity. Qed.

Lemma bind_inv {A B} {m : M A} {k : A -> M B} {w w2 : World} {r : result B} :
  bind m k w = (r, w2) ->
  (exists a w1, m w = (Ok a, w1) /\ k a w1 = (r, w2)) \/
  (exists e, m w = (Raise e, w2) /\ r = Raise e).
Proof.
  unfold bind. destruct (m w) as [[a|e] w1]; intros H.
  - left. eauto.
  - right. inversion H; subst. eauto.
Qed.

(** ** Ledger *)

Lemma next_id_fresh (ids : list pk) : ~ In (next_id ids) ids.
Proof.
  assert (Hle : forall x, In x ids -> (x <= fold_right Nat.max 0 ids)%nat).
  { induction ids as [|i ids IH]; simpl; intros x Hx; [contradiction|].
    destruct Hx as [->|Hx]; [lia|]. specialize (IH x Hx). lia. }
  intros Hin. apply Hle in Hin. unfold next_id in Hin. lia.
Qed.

Lemma update_customer_totals_id (c' row : Customer.t) :
  Customer.id (update_customer_totals c' row) = Customer.id row.
Proof.
  unfold update_customer_totals.
  destruct (Customer.id row =? Customer.id c')%nat; reflexivity.
Qed.

Lemma filter_update_customer (c' : Customer.t) (rows : list Customer.t) (k : pk) :
  filter (fun c => Customer.id c =? k)%nat (map (update_customer_totals c') rows)
  = map (update_customer_totals c')
        (filter (fun c => Customer.id c =? k)%nat rows).
Proof.
  induction rows as [|r rows IH]; simpl; [reflexivity|].
  rewrite update_customer_totals_id.
  destruct (Customer.id r =? k)%nat; simpl; rewrite IH; reflexivity.
Qed.

Lemma customer_row_In {d : DB} {k : pk} {c : Customer.t} :
  customer_row d k = Some c -> In c (customers d) /\ Customer.id c = k.
Proof.
  unfold customer_row.
  destruct (filter (fun c0 => Customer.id c0 =? k)%nat (customers d))
    as [|c0 [|c1 rest]] eqn:Hfil; try discriminate.
  intros H; injection H as ->.
  assert (Hin : In c (filter (fun c0 => Customer.id c0 =? k)%nat (customers d)))
    by (rewrite Hfil; left; reflexivity).
  apply filter_In in Hin. destruct Hin as [Hin Hid].
  apply Nat.eqb_eq in Hid. auto.
Qed.

Lemma get_customer_for_update_ok {w : World} {k : pk} {c : Customer.t} :
  faults w = [] -> customer_row (db w) k = Some c ->
  get_customer_for_update k w = (Ok c, w).
Proof.
  intros Hf Hrow. unfold get_customer_for_update.
  rewrite (bind_ok _ (storage_ok Hf)).
  unfold bind, get_db. unfold customer_row in Hrow.
  destruct (filter (fun c0 => Customer.id c0 =? k)%nat (customers (db w)))
    as [|c0 [|c1 rest]]; try discriminate.
  injection Hrow as ->. reflexivity.
Qed.

Lemma create_visit_ok {w : World} (c : Customer.t) (at_ : datetime) (spend : Z) :
  faults w = [] -> in_int64 spend = true ->
  create_visit c at_ spend w
  = (Ok (Visit.mk (next_id (map Visit.id (visits (db w)))) (Customer.id c) at_ spend),
     set_db (mkDB (customers (db w))
                  (Visit.mk (next_id (map Visit.id (visits (db w))))
                            (Customer.id c) at_ spend :: visits (db w))
                  (campaigns (db w)) (events (db w))) w).
Proof.
  intros Hf Hfit. unfold create_visit.
  rewrite (bind_ok _ (storage_ok Hf)). unfold bind at 1, get_db at 1.
  rewrite Hfit. reflexivity.
Qed.

Lemma save_customer_totals_ok {w : World} {c : Customer.t} :
  faults w = [] -> in_int64 (Customer.total_spend_cents c) = true ->
  existsb (fun row => Customer.id row =? Customer.id c)%nat (customers (db w)) = true ->
  save_customer_totals c w
  = (Ok tt, set_db (mkDB (map (update_customer_totals c) (customers (db w)))
                         (visits (db w)) (campaigns (db w)) (events (db w))) w).
Proof.
  intros Hf Hfit Hex. unfold save_customer_totals.
  rewrite (bind_ok _ (storage_ok Hf)).
  unfold bind, get_db. rewrite Hfit, Hex. reflexivity.
Qed.

(** One successful call, spelled out. *)
Lemma record_visit_ok (w : World) (ref : CustomerRef) (spend : Z)
      (visited_at : option datetime) (c : Customer.t) :
  faults w = [] ->
  customer_row (db w) (ref_pk ref) = Some c ->
  in_int64 spend = true ->
  in_int64 (Customer.total_spend_cents c + spend) = true ->
  exists v w',
    record_visit ref spend visited_at w = (Ok v, w') /\
    Visit.customer v = Customer.id c /\
    Visit.spend_cents v = spend /\
    Visit.visited_at v
      = match visited_at with Some t => t | None => clock w (clock_ix w) end /\
    visits (db w') = v :: visits (db w) /\
    customer_row (db w') (ref_pk ref)
      = Some (Customer.mk (Customer.id c) (Customer.restaurant c)
                (Customer.email c) (Customer.first_name c) (Customer.last_name c)
                (Customer.total_spend_cents c + spend)
                (if later_than (Visit.visited_at v) (Customer.last_visit_at c)
                 then Some (Visit.visited_at v) else Customer.last_visit_at c)) /\
    faults w' = [] /\
    clock w' = clock w /\
    clock_ix w' = match visited_at with
                  | Some _ => clock_ix w | None => S (clock_ix w) end /\
    campaigns (db w') = campaigns (db w) /\
    events (db w') = events (db w).
Proof.
  intros Hf Hrow Hfit Hfit'.
  destruct (customer_row_In Hrow) as [Hin Hid].
  set (at_ := match visited_at with Some t => t | None => clock w (clock_ix w) end).
  set (w0 := match visited_at with
             | Some _ => w
             | None => mkWorld (db w) (clock w) (S (clock_ix w)) (rand w)
                               (rand_ix w) (faults w) (outbox w)
             end).
  assert (H0 : match visited_at with None => timezone_now | Some t => ret t end w
               = (Ok at_, w0)) by (destruct visited_at; reflexivity).
  assert (Hf0 : faults w0 = []) by (destruct visited_at; assumption).
  assert (Hd0 : db w0 = db w) by (destruct visited_at; reflexivity).
  assert (Hrow0 : customer_row (db w0) (ref_pk ref) = Some c)
    by (rewrite Hd0; assumption).
  unfold record_visit, atomic.
  rewrite (bind_ok _ H0).
  rewrite (bind_ok _ (get_customer_for_update_ok Hf0 Hrow0)).
  rewrite (bind_ok _ (create_visit_ok _ _ _ Hf0 Hfit)).
  match goal with |- context [bind (save_customer_totals ?c') _ ?w1] =>
    assert (Hs : faults w1 = []) by exact Hf0;
    assert (Hex : existsb (fun row => Customer.id row =? Customer.id c')%nat
                          (customers (db w1)) = true)
      by (simpl; rewrite Hd0; apply existsb_exists; exists c;
          split; [assumption|apply Nat.eqb_refl]);
    rewrite (bind_ok _ (save_customer_totals_ok (c := c') Hs Hfit' Hex))
  end.
  do 2 eexists. split; [reflexivity|].
  simpl. rewrite Hd0. repeat split; try reflexivity.
  - unfold customer_row. cbn [customers]. rewrite filter_update_customer.
    unfold customer_row in Hrow.
    destruct (filter (fun c0 => Customer.id c0 =? ref_pk ref)%nat (customers (db w)))
      as [|c0 [|c1 rest]]; try discriminate.
    injection Hrow as ->. simpl. unfold update_customer_totals. simpl.
    rewrite Hid, Nat.eqb_refl. reflexivity.
  - unfold w0; destruct visited_at; assumption.
  - unfold w0; destruct visited_at; reflexivity.
  - unfold w0; destruct visited_at; reflexivity.
Qed.

(** A call whose amount, or whose new total, does not fit its column. *)
Lemma record_visit_out_of_range (w : World) (ref : CustomerRef) (spend : Z)
      (visited_at : option datetime) (c : Customer.t) :
  faults w = [] ->
  customer_row (db w) (ref_pk ref) = Some c ->
  in_int64 spend && in_int64 (Customer.total_spend_cents c + spend) = false ->
  exists w',
    record_visit ref spend visited_at w
    = (Raise (mkExn DatabaseError "bigint out of range"), w') /\
    db w' = db w /\ faults w' = [].
Proof.
  intros Hf Hrow Hfit.
  destruct (customer_row_In Hrow) as [Hin Hid].
  set (at_ := match visited_at with Some t => t | None => clock w (clock_ix w) end).
  set (w0 := match visited_at with
             | Some _ => w
             | None => mkWorld (db w) (clock w) (S (clock_ix w)) (rand w)
                               (rand_ix w) (faults w) (outbox w)
             end).
  assert (H0 : match visited_at with None => timezone_now | Some t => ret t end w
               = (Ok at_, w0)) by (destruct visited_at; reflexivity).
  assert (Hf0 : faults w0 = []) by (destruct visited_at; assumption).
  assert (Hd0 : db w0 = db w) by (destruct visited_at; reflexivity).
  assert (Hrow0 : customer_row (db w0) (ref_pk ref) = Some c)
    by (rewrite Hd0; assumption).
  unfold record_visit, atomic.
  rewrite (bind_ok _ H0).
  rewrite (bind_ok _ (get_customer_for_update_ok Hf0 Hrow0)).
  destruct (in_int64 spend) eqn:Hs.
  - rewrite (bind_ok _ (create_visit_ok _ _ _ Hf0 Hs)).
    simpl in Hfit.
    unfold bind at 1. unfold save_customer_totals.
    match goal with |- context [bind storage ?k ?w1] =>
      assert (Hs1 : faults w1 = []) by exact Hf0;
      rewrite (bind_ok k (storage_ok Hs1))
    end.
    unfold bind, get_db, out_of_range, raise.
    cbn [Customer.total_spend_cents]. rewrite Hfit.
    eexists. split; [reflexivity|]. split; [reflexivity|exact Hf0].
  - unfold bind at 1. unfold create_visit.
    rewrite (bind_ok _ (storage_ok Hf0)). unfold bind, get_db, out_of_range, raise.
    rewrite Hs. eexists. split; [reflexivity|]. split; [reflexivity|exact Hf0].
Qed.

(** *** Sums and maxima *)

Lemma fold_max_ge (a : Z) (ts : list Z) : (a <= fold_right Z.max a ts)%Z.
Proof. induction ts as [|t ts IH]; simpl; lia. Qed.

Lemma fold_max_base (a b : Z) (ts : list Z) :
  (b <= a)%Z -> fold_right Z.max a ts = Z.max a (fold_right Z.max b ts).
Proof. intros Hba. induction ts as [|t ts IH]; simpl; lia. Qed.


Lemma merge_last_step (last : option datetime) (t : datetime) (ts : list datetime) :
  merge_last (if later_than t last then Some t else last) ts
  = merge_last last (t :: ts).
Proof.
  destruct last as [l|]; simpl; [|reflexivity].
  unfold merge_last. simpl. destruct (Z.ltb_spec l t); simpl; f_equal.
  - apply fold_max_base. lia.
  - pose proof (fold_max_ge l ts). lia.
Qed.

Lemma max_datetime_spec (ts : list datetime) (m : datetime) :
  max_datetime ts = Some m <-> In m ts /\ forall t, In t ts -> (t <= m)%Z.
Proof.
  destruct ts as [|t0 ts]; simpl.
  - split; [discriminate|intros [[] _]].
  - assert (H : forall a, (In (fold_right Z.max a ts) (a :: ts)) /\
                          forall t, In t (a :: ts) -> (t <= fold_right Z.max a ts)%Z).
    { induction ts as [|t ts IH]; intros a; simpl.
      - split; [auto|]. intros t [->|[]]. lia.
      - destruct (IH a) as [Hin Hle]. split.
        + destruct (Z.max_spec t (fold_right Z.max a ts)) as [[_ ->]|[_ ->]].
          * simpl in Hin. destruct Hin as [Hin|Hin]; auto.
          * auto.
        + intros x [->|[->|Hx]].
          * specialize (Hle x (or_introl eq_refl)). lia.
          * lia.
          * specialize (Hle x (or_intror Hx)). lia. }
    destruct (H t0) as [Hin Hle]. split.
    + intros E; injection E as <-. split; assumption.
    + intros [Hm Hall]. f_equal.
      specialize (Hle m Hm). specialize (Hall _ Hin). lia.
Qed.

Lemma max_datetime_perm (ts ts' : list datetime) :
  Permutation ts ts' -> max_datetime ts = max_datetime ts'.
Proof.
  intros HP.
  destruct (max_datetime ts) as [m|] eqn:E.
  - symmetry. apply max_datetime_spec. apply max_datetime_spec in E.
    destruct E as [Hin Hle]. split.
    + eapply Permutation_in; eassumption.
    + intros t Ht. apply Hle. eapply Permutation_in; [apply Permutation_sym|]; eassumption.
  - destruct ts; [|discriminate].
    apply Permutation_nil in HP. subst. reflexivity.
Qed.

Lemma sum_spend_perm (calls calls' : list (Z * option datetime)) :
  Permutation calls calls' -> sum_spend calls = sum_spend calls'.
Proof.
  unfold sum_spend. induction 1; simpl; lia.
Qed.


Lemma effective_times_split (clk : nat -> datetime) (calls : list (Z * option datetime)) :
  forall ix,
    Permutation (effective_times clk ix calls)
                (explicit_times calls ++ map clk (seq ix (defaulted calls))).
Proof.
  induction calls as [|[s [t|]] rest IH]; intros ix; simpl.
  - constructor.
  - constructor. apply IH.
  - apply Permutation_cons_app. apply IH.
Qed.

Lemma effective_times_perm (clk : nat -> datetime) (ix : nat)
      (calls calls' : list (Z * option datetime)) :
  Permutation calls calls' ->
  Permutation (effective_times clk ix calls) (effective_times clk ix calls').
Proof.
  intros HP.
  rewrite (effective_times_split clk calls ix), (effective_times_split clk calls' ix).
  assert (H : Permutation (explicit_times calls) (explicit_times calls') /\
              defaulted calls = defaulted calls').
  { induction HP as [|[s [t|]] l l' HP IH|[s1 [t1|]] [s2 [t2|]] l|l1 l2 l3 H1 IH1 H2 IH2];
      simpl; try (destruct IH as [IHp IHd]);
      try (split; [|congruence]); try (split; [|reflexivity]); auto.
    - apply perm_swap.
    - destruct IH1, IH2. split; [eapply Permutation_trans; eassumption|congruence]. }
  destruct H as [Hp ->]. apply Permutation_app_tail. assumption.
Qed.

Lemma record_visits_ok (k : pk) (calls : list (Z * option datetime)) :
  forall (w : World) (c : Customer.t),
    faults w = [] ->
    customer_row (db w) k = Some c ->
    amounts_fit (Customer.total_spend_cents c) calls = true ->
    exists vs w' c',
      record_visits k calls w = (Ok vs, w') /\
      customer_row (db w') k = Some c' /\
      map Visit.visited_at vs = effective_times (clock w) (clock_ix w) calls /\
      map Visit.spend_cents vs = map fst calls /\
      Customer.total_spend_cents c'
        = (Customer.total_spend_cents c + sum_spend calls)%Z /\
      Customer.last_visit_at c'
        = merge_last (Customer.last_visit_at c) (map Visit.visited_at vs) /\
      faults w' = [].
Proof.
  induction calls as [|[spend at_] rest IH]; intros w c Hf Hrow Hfit.
  - exists [], w, c. simpl. unfold sum_spend. simpl.
    repeat split; try assumption; try lia.
    unfold merge_last. destruct (Customer.last_visit_at c); reflexivity.
  - cbn [amounts_fit] in Hfit. apply andb_prop in Hfit. destruct Hfit as [Hfit Hrest].
    apply andb_prop in Hfit. destruct Hfit as [Hfit1 Hfit2].
    destruct (record_visit_ok w (ById k) spend at_ c Hf Hrow Hfit1 Hfit2)
      as (v & w1 & Hrun & _ & Hspend & Hat & _ & Hrow1 & Hf1 & Hclk & Hix & _).
    destruct (IH w1 _ Hf1 Hrow1 Hrest)
      as (vs & w2 & c2 & Hrun2 & Hrow2 & Hts & Hsp & Htot & Hlast & Hf2).
    exists (v :: vs), w2, c2. simpl.
    rewrite (bind_ok _ Hrun), (bind_ok _ Hrun2).
    split; [reflexivity|]. split; [assumption|].
    simpl in Htot, Hlast. rewrite Hclk, Hix in Hts.
    repeat split.
    + rewrite Hat, Hts. destruct at_; reflexivity.
    + rewrite Hspend, Hsp. reflexivity.
    + rewrite Htot. unfold sum_spend. simpl. lia.
    + rewrite Hlast. apply merge_last_step.
    + assumption.
Qed.

(** C1, as the code has it.  Starting from a customer with
    [total_spend_cents = 0] and no [last_visit_at], every sequence of
    [record_visit] calls on that customer (each with its spend and an
    explicit or defaulted [visited_at]) whose amounts and running totals fit
    the 64-bit columns succeeds when storage does not fail, and leaves
    [total_spend_cents] equal to the sum of the spends and [last_visit_at]
    equal to the maximum of the [visited_at] values of the visits; any
    reordering of the calls that also keeps the running totals within the
    range gives the same two values.  A further call whose amount, or whose
    new total, does not fit raises and leaves the database as it was. *)
Theorem record_visit_sequence_totals
        (k : pk) (calls : list (Z * option datetime)) (w : World) (c : Customer.t) :
  faults w = [] ->
  customer_row (db w) k = Some c ->
  Customer.total_spend_cents c = 0%Z ->
  Customer.last_visit_at c = None ->
  amounts_fit 0 calls = true ->
  exists vs w' c',
    record_visits k calls w = (Ok vs, w') /\
    customer_row (db w') k = Some c' /\
    map Visit.spend_cents vs = map fst calls /\
    map Visit.visited_at vs = effective_times (clock w) (clock_ix w) calls /\
    Customer.total_spend_cents c' = sum_spend calls /\
    Customer.last_visit_at c' = max_datetime (map Visit.visited_at vs) /\
    (forall calls', Permutation calls calls' -> amounts_fit 0 calls' = true ->
       exists vs2 w2 c2,
         record_visits k calls' w = (Ok vs2, w2) /\
         customer_row (db w2) k = Some c2 /\
         Customer.total_spend_cents c2 = Customer.total_spend_cents c' /\
         Customer.last_visit_at c2 = Customer.last_visit_at c') /\
    (forall spend_cents visited_at,
       in_int64 spend_cents && in_int64 (sum_spend calls + spend_cents) = false ->
       exists w2,
         record_visit (ById k) spend_cents visited_at w'
         = (Raise (mkExn DatabaseError "bigint out of range"), w2) /\
         db w2 = db w').
Proof.
  intros Hf Hrow Htot Hlast Hfit.
  assert (Hfit0 : amounts_fit (Customer.total_spend_cents c) calls = true)
    by (rewrite Htot; assumption).
  destruct (record_visits_ok k calls w c Hf Hrow Hfit0)
    as (vs & w' & c' & Hrun & Hrow' & Hts & Hsp & Ht & Hl & Hf').
  rewrite Htot in Ht. rewrite Hlast in Hl. unfold merge_last in Hl.
  exists vs, w', c'.
  split; [assumption|]. split; [assumption|]. split; [assumption|].
  split; [assumption|]. split; [lia|]. split; [assumption|]. split.
  - intros calls' HP Hfit'.
    assert (Hfit0' : amounts_fit (Customer.total_spend_cents c) calls' = true)
      by (rewrite Htot; assumption).
    destruct (record_visits_ok k calls' w c Hf Hrow Hfit0')
      as (vs2 & w2 & c2 & Hrun2 & Hrow2 & Hts2 & _ & Ht2 & Hl2 & _).
    rewrite Htot in Ht2. rewrite Hlast in Hl2. unfold merge_last in Hl2.
    exists vs2, w2, c2. repeat split; try assumption.
    + rewrite Ht, Ht2. symmetry. apply sum_spend_perm. assumption.
    + rewrite Hl, Hl2, Hts, Hts2. symmetry.
      apply max_datetime_perm, effective_times_perm. assumption.
  - intros spend_cents visited_at Hout.
    assert (Hout' : in_int64 spend_cents &&
                    in_int64 (Customer.total_spend_cents c' + spend_cents) = false).
    { rewrite Ht. replace (0 + sum_spend calls)%Z with (sum_spend calls) by lia.
      assumption. }
    destruct (record_visit_out_of_range w' (ById k) spend_cents visited_at c'
                Hf' Hrow' Hout') as (w2 & Hrun2 & Hd2 & _).
    exists w2. split; assumption.
Qed.

(** C10, as the code has it.  [record_visit] puts no lower bound of its own
    on [spend_cents]: for an existing customer and any amount that fits the
    64-bit column, negative ones included, and whose sum with the
    customer's total fits as well, the call returns the new visit and adds
    the amount to [total_spend_cents] (so a negative amount lowers the
    total).  An amount or a new total outside the 64-bit range makes the
    call raise and leave the database as it was.  The check [min_value=0]
    is made by [AddVisitSerializer] alone, in front of [add_visit], and
    the serializer puts no upper bound: [add_visit] answers 400 to a
    negative amount and raises on an amount above the range. *)
Theorem record_visit_no_lower_bound
        (w : World) (ref : CustomerRef) (spend_cents : Z)
        (visited_at : option datetime) (c : Customer.t) :
  faults w = [] ->
  customer_row (db w) (ref_pk ref) = Some c ->
  (in_int64 spend_cents = true ->
   in_int64 (Customer.total_spend_cents c + spend_cents) = true ->
   exists v w' c',
     record_visit ref spend_cents visited_at w = (Ok v, w') /\
     visits (db w') = v :: visits (db w) /\
     Visit.customer v = Customer.id c /\
     Visit.spend_cents v = spend_cents /\
     customer_row (db w') (ref_pk ref) = Some c' /\
     Customer.total_spend_cents c'
       = (Customer.total_spend_cents c + spend_cents)%Z /\
     ((spend_cents < 0)%Z ->
      (Customer.total_spend_cents c' < Customer.total_spend_cents c)%Z)) /\
  (in_int64 spend_cents &&
   in_int64 (Customer.total_spend_cents c + spend_cents) = false ->
   exists w',
     record_visit ref spend_cents visited_at w
     = (Raise (mkExn DatabaseError "bigint out of range"), w') /\
     db w' = db w) /\
  (AddVisitSerializer_is_valid spend_cents = true <-> (0 <= spend_cents)%Z) /\
  ((spend_cents < 0)%Z ->
   add_visit c spend_cents visited_at w = (Ok BadRequest, w)) /\
  ((INT64_MAX < spend_cents)%Z ->
   exists w',
     add_visit c spend_cents visited_at w
     = (Raise (mkExn DatabaseError "bigint out of range"), w') /\
     db w' = db w).
Proof.
  intros Hf Hrow. split; [|split; [|split; [|split]]].
  - intros Hfit Hfit'.
    destruct (record_visit_ok w ref spend_cents visited_at c Hf Hrow Hfit Hfit')
      as (v & w' & Hrun & Hc & Hs & _ & Hv & Hrow' & _).
    eexists v, w', _. repeat split; try eassumption; simpl; lia.
  - intros Hout.
    destruct (record_visit_out_of_range w ref spend_cents visited_at c Hf Hrow Hout)
      as (w' & Hrun & Hd & _).
    exists w'. split; assumption.
  - unfold AddVisitSerializer_is_valid. apply Z.leb_le.
  - intros Hneg. unfold add_visit, AddVisitSerializer_is_valid.
    destruct (Z.leb_spec 0 spend_cents); [lia|reflexivity].
  - intros Hbig.
    destruct (customer_row_In Hrow) as [_ Hid].
    assert (Hrow' : customer_row (db w) (ref_pk (ByInstance c)) = Some c)
      by (simpl; rewrite Hid; assumption).
    assert (Hout : in_int64 spend_cents &&
                   in_int64 (Customer.total_spend_cents c + spend_cents) = false).
    { apply andb_false_intro1. unfold in_int64. apply andb_false_intro2.
      apply Z.leb_gt. assumption. }
    destruct (record_visit_out_of_range w (ByInstance c) spend_cents visited_at c
                Hf Hrow' Hout) as (w' & Hrun & Hd & _).
    exists w'. split; [|assumption].
    unfold add_visit, AddVisitSerializer_is_valid.
    assert (H0 : (0 <=? spend_cents)%Z = true).
    { apply Z.leb_le. unfold INT64_MAX in Hbig. lia. }
    rewrite H0. rewrite (bind_raise _ Hrun). reflexivity.
Qed.

Lemma record_visit_no_lower_bound_witness :
  exists v w' c',
    record_visit (ById 1) (-700) None (sample_world sample_db) = (Ok v, w') /\
    customer_row (db w') 1 = Some c' /\
    Customer.total_spend_cents c' = (-700)%Z.
Proof.
  destruct (record_visit_no_lower_bound (sample_world sample_db) (ById 1)
              (-700) None never_visited eq_refl eq_refl)
    as [H _].
  destruct (H eq_refl eq_refl) as (v & w' & c' & Hrun & _ & _ & _ & Hrow & Htot & _).
  exists v, w', c'. repeat split; assumption.
Defined.

(** C10 as it is written fails: not every integer is accepted.  An amount
    of 2^63 passes [AddVisitSerializer], and [record_visit] raises on it and
    records nothing; so does an amount below -2^63, and an amount within
    the range that takes the total out of it. *)
Lemma record_visit_rejects_amounts_out_of_range :
  let w := sample_world sample_db in
  AddVisitSerializer_is_valid (2 ^ 63) = true /\
  fst (record_visit (ById 1) (2 ^ 63) None w)
  = Raise (mkExn DatabaseError "bigint out of range") /\
  db (snd (record_visit (ById 1) (2 ^ 63) None w)) = sample_db /\
  fst (record_visit (ById 1) (- 2 ^ 63 - 1) None w)
  = Raise (mkExn DatabaseError "bigint out of range") /\
  db (snd (record_visit (ById 1) (- 2 ^ 63 - 1) None w)) = sample_db /\
  fst (record_visit (ById 3) (2 ^ 63 - 1) None w)
  = Raise (mkExn DatabaseError "bigint out of range") /\
  db (snd (record_visit (ById 3) (2 ^ 63 - 1) None w)) = sample_db.
Proof. vm_compute. repeat split. Qed.

Lemma record_visit_sequence_totals_witness :
  exists vs w' c',
    record_visits 1 [(5000, None); (2000, Some (days_ago 3))]%Z
                  (sample_world sample_db) = (Ok vs, w') /\
    customer_row (db w') 1 = Some c' /\
    Customer.total_spend_cents c' = 7000%Z /\
    Customer.last_visit_at c' = Some sample_now.
Proof.
  destruct (record_visit_sequence_totals 1
              [(5000, None); (2000, Some (days_ago 3))]%Z
              (sample_world sample_db) never_visited
              eq_refl eq_refl eq_refl eq_refl eq_refl)
    as (vs & w' & c' & Hrun & Hrow & _ & Hts & Htot & Hlast & _).
  exists vs, w', c'. repeat split; try assumption.
  rewrite Hlast, Hts. reflexivity.
Defined.

(** C1 as it is written fails: not every sequence ends with the sum.  Two
    visits of 2^62 cents each: the second call raises and is rolled back,
    the total stays at 2^62.  And the order matters: the amounts 2^62, 2^62
    and -2^62 are all recorded when the negative one comes first, and not
    when it comes last. *)
Lemma record_visit_sequence_can_overflow :
  let w := sample_world sample_db in
  let calls := [(2 ^ 62, None); (2 ^ 62, None)]%Z in
  let late := [(2 ^ 62, None); (2 ^ 62, None); (- 2 ^ 62, None)]%Z in
  let early := [(- 2 ^ 62, None); (2 ^ 62, None); (2 ^ 62, None)]%Z in
  fst (record_visits 1 calls w)
  = Raise (mkExn DatabaseError "bigint out of range") /\
  option_map Customer.total_spend_cents
             (customer_row (db (snd (record_visits 1 calls w))) 1)
  = Some (2 ^ 62)%Z /\
  sum_spend calls = (2 ^ 63)%Z /\
  Permutation late early /\
  option_map Customer.total_spend_cents
             (customer_row (db (snd (record_visits 1 late w))) 1)
  = Some (2 ^ 62)%Z /\
  option_map Customer.total_spend_cents
             (customer_row (db (snd (record_visits 1 early w))) 1)
  = Some (sum_spend early).
Proof.
  split; [vm_compute; reflexivity|]. split; [vm_compute; reflexivity|].
  split; [vm_compute; reflexivity|]. split.
  - apply Permutation_sym. apply (Permutation_cons_append [_; _]).
  - split; vm_compute; reflexivity.
Qed.

(** ** Segmentation *)

Lemma inactive_days_run (qs : QuerySet) (days : Z) (w : World) :
  inactive_days qs days w
  = (if cutoff_representable (clock w (clock_ix w)) days
     then Ok (fun c => qs c &&
                       inactive_before (clock w (clock_ix w) - days * US_PER_DAY)%Z c)
     else Raise (mkExn OverflowError
                       (if (Z.abs days <=? MAX_DELTA_DAYS)%Z
                        then "date value out of range"
                        else "days must have magnitude <= 999999999")),
     mkWorld (db w) (clock w) (S (clock_ix w)) (rand w) (rand_ix w)
             (faults w) (outbox w)).
Proof.
  unfold inactive_days, cutoff_representable, bind, timezone_now, lift,
    timedelta_days, datetime_sub, ret.
  destruct (Z.abs days <=? MAX_DELTA_DAYS)%Z; simpl; [|reflexivity].
  destruct ((0 <=? clock w (clock_ix w) - days * US_PER_DAY)
            && (clock w (clock_ix w) - days * US_PER_DAY <=? DATETIME_MAX))%Z;
    reflexivity.
Qed.

(** C7, as the code has it.  When [now - days] is a [datetime],
    [inactive_days] selects exactly the customers of the queryset whose
    [last_visit_at] is null or strictly earlier than that cutoff, a customer
    without visits included; otherwise it raises [OverflowError] and selects
    nobody.  [high_spenders] selects exactly the customers with
    [total_spend_cents >= min_spend_cents]: the threshold itself is included,
    one cent less is not. *)
Theorem segmentation_predicates
        (qs : QuerySet) (days min_spend_cents : Z) (w : World) (c : Customer.t) :
  (cutoff_representable (clock w (clock_ix w)) days = true ->
   exists qs' w',
     inactive_days qs days w = (Ok qs', w') /\ db w' = db w /\
     (qs' c = true <->
      qs c = true /\
      (Customer.last_visit_at c = None \/
       exists t, Customer.last_visit_at c = Some t /\
                 (t < clock w (clock_ix w) - days * US_PER_DAY)%Z)) /\
     (qs c = true -> Customer.last_visit_at c = None -> qs' c = true)) /\
  (cutoff_representable (clock w (clock_ix w)) days = false ->
   exists e w',
     inactive_days qs days w = (Raise e, w') /\ exn_class e = OverflowError) /\
  (high_spenders qs min_spend_cents c = true <->
   qs c = true /\ (min_spend_cents <= Customer.total_spend_cents c)%Z) /\
  (qs c = true -> Customer.total_spend_cents c = min_spend_cents ->
   high_spenders qs min_spend_cents c = true) /\
  (Customer.total_spend_cents c = (min_spend_cents - 1)%Z ->
   high_spenders qs min_spend_cents c = false).
Proof.
  split; [|split; [|split; [|split]]].
  - intros Hrep. rewrite inactive_days_run, Hrep.
    do 2 eexists. split; [reflexivity|]. split; [reflexivity|]. split; [split|].
    + intros H. apply andb_prop in H. destruct H as [Hq Hi]. split; [assumption|].
      unfold inactive_before in Hi.
      destruct (Customer.last_visit_at c) as [t|]; [right|left; reflexivity].
      exists t. split; [reflexivity|]. apply Z.ltb_lt. assumption.
    + intros [Hq [Hn|(t & Ht & Hlt)]]; apply andb_true_intro;
        (split; [assumption|]); unfold inactive_before.
      * rewrite Hn. reflexivity.
      * rewrite Ht. apply Z.ltb_lt. assumption.
    + intros Hq Hn. unfold inactive_before. rewrite Hq, Hn. reflexivity.
  - intros Hrep. rewrite inactive_days_run, Hrep.
    do 2 eexists. split; reflexivity.
  - unfold high_spenders. split.
    + intros H. apply andb_prop in H. destruct H as [Hq Hle].
      split; [assumption|]. apply Z.leb_le. assumption.
    + intros [Hq Hle]. rewrite Hq. apply Z.leb_le. assumption.
  - intros Hq Heq. unfold high_spenders. rewrite Hq, Heq. apply Z.leb_le. lia.
  - intros Heq. unfold high_spenders. rewrite Heq.
    apply andb_false_intro2. apply Z.leb_gt. lia.
Qed.

Lemma segmentation_predicates_witness :
  exists qs' w',
    inactive_days (fun _ => true) 30 (sample_world sample_db) = (Ok qs', w') /\
    qs' lapsed = true.
Proof.
  destruct (segmentation_predicates (fun _ => true) 30 8000
              (sample_world sample_db) lapsed)
    as [H _].
  destruct (H eq_refl) as (qs' & w' & Hrun & _ & Hiff & _).
  exists qs', w'. split; [assumption|].
  apply Hiff. split; [reflexivity|]. right.
  exists (days_ago 35). split; [reflexivity|]. vm_compute. reflexivity.
Defined.

(** C7 as it is written fails where the cutoff is not a [datetime]:
    [timedelta(days=1000000000)] raises, so no customer is selected, the one
    without visits included. *)
Lemma inactive_days_not_for_every_days :
  inactive_days (fun _ => true) 1000000000 (sample_world sample_db)
  = (Raise (mkExn OverflowError "days must have magnitude <= 999999999"),
     mkWorld sample_db (clock (sample_world sample_db)) 1
             (rand (sample_world sample_db)) 0 [] []) /\
  ~ (forall (qs : QuerySet) (days : Z) (w : World) (c : Customer.t),
        qs c = true -> Customer.last_visit_at c = None ->
        exists qs' w', inactive_days qs days w = (Ok qs', w') /\ qs' c = true).
Proof.
  assert (E : inactive_days (fun _ => true) 1000000000 (sample_world sample_db)
              = (Raise (mkExn OverflowError "days must have magnitude <= 999999999"),
                 mkWorld sample_db (clock (sample_world sample_db)) 1
                         (rand (sample_world sample_db)) 0 [] []))
    by reflexivity.
  split; [exact E|].
  intros H.
  destruct (H (fun _ => true) 1000000000%Z (sample_world sample_db)
              never_visited eq_refl eq_refl) as (qs' & w' & Hrun & _).
  rewrite E in Hrun. discriminate Hrun.
Qed.

(** ** The event table *)

Lemma event_for_key (a b : pk) (e : OutreachEvent.t) :
  event_for a b e = true <-> event_key e = (a, b).
Proof.
  unfold event_for, event_key. rewrite andb_true_iff, !Nat.eqb_eq.
  split; [intros [-> ->]; reflexivity|intros H; injection H; auto].
Qed.

Lemma filter_key_nil (a b : pk) (evs : list OutreachEvent.t) :
  filter (event_for a b) evs = [] <-> ~ In (a, b) (map event_key evs).
Proof.
  induction evs as [|e evs IH]; simpl; [tauto|].
  destruct (event_for a b e) eqn:E.
  - apply event_for_key in E. split; [discriminate|]. intros H. exfalso. auto.
  - split.
    + intros H [Hk|Hin]; [|tauto].
      apply event_for_key in Hk. congruence.
    + intros H. apply IH. tauto.
Qed.

Lemma filter_key_unique (a b : pk) {evs : list OutreachEvent.t} :
  NoDup (map event_key evs) ->
  filter (event_for a b) evs = [] \/ exists e, filter (event_for a b) evs = [e].
Proof.
  induction evs as [|e evs IH]; simpl; intros Hnd; [left; reflexivity|].
  inversion Hnd as [|k ks Hnotin Hnd']; subst.
  destruct (event_for a b e) eqn:E.
  - right. exists e. f_equal. apply filter_key_nil.
    apply event_for_key in E. rewrite <- E. assumption.
  - apply IH. assumption.
Qed.

Lemma update_event_id (fields : list OutreachEvent.field) (ev row : OutreachEvent.t) :
  OutreachEvent.id (update_event fields ev row) = OutreachEvent.id row.
Proof.
  unfold update_event.
  destruct (OutreachEvent.id row =? OutreachEvent.id ev)%nat; reflexivity.
Qed.

Lemma update_event_key (fields : list OutreachEvent.field) (ev row : OutreachEvent.t) :
  event_key (update_event fields ev row) = event_key row.
Proof.
  unfold update_event.
  destruct (OutreachEvent.id row =? OutreachEvent.id ev)%nat; reflexivity.
Qed.

Lemma update_event_other (fields : list OutreachEvent.field) (ev row : OutreachEvent.t) :
  OutreachEvent.id row <> OutreachEvent.id ev -> update_event fields ev row = row.
Proof.
  intros H. unfold update_event. apply Nat.eqb_neq in H. rewrite H. reflexivity.
Qed.

Lemma map_update_event_ids (fields : list OutreachEvent.field) (ev : OutreachEvent.t)
      (evs : list OutreachEvent.t) :
  map OutreachEvent.id (map (update_event fields ev) evs) = map OutreachEvent.id evs.
Proof.
  rewrite map_map. apply map_ext. intros. apply update_event_id.
Qed.

Lemma map_update_event_keys (fields : list OutreachEvent.field) (ev : OutreachEvent.t)
      (evs : list OutreachEvent.t) :
  map event_key (map (update_event fields ev) evs) = map event_key evs.
Proof.
  rewrite map_map. apply map_ext. intros. apply update_event_key.
Qed.

Lemma NoDup_map_eq {A B} (f : A -> B) (l : list A) (x y : A) :
  NoDup (map f l) -> In x l -> In y l -> f x = f y -> x = y.
Proof.
  induction l as [|a l IH]; simpl; intros Hnd Hx Hy Hf; [contradiction|].
  inversion Hnd as [|b bs Hnotin Hnd']; subst.
  destruct Hx as [->|Hx], Hy as [->|Hy]; auto.
  - exfalso. apply Hnotin. rewrite Hf. apply in_map. assumption.
  - exfalso. apply Hnotin. rewrite <- Hf. apply in_map. assumption.
Qed.

(** Saving on the row [e0] leaves every other row as it is. *)
Lemma update_event_keeps (fields : list OutreachEvent.field)
      (ev e0 e : OutreachEvent.t) (evs : list OutreachEvent.t) :
  NoDup (map OutreachEvent.id evs) ->
  In e0 evs -> OutreachEvent.id ev = OutreachEvent.id e0 ->
  In e evs -> e <> e0 ->
  In e (map (update_event fields ev) evs).
Proof.
  intros Hnd H0 Hid He Hne.
  apply in_map_iff. exists e. split; [|assumption].
  apply update_event_other. rewrite Hid. intros Heq. apply Hne.
  eapply NoDup_map_eq; eassumption.
Qed.

Lemma evolves_ok {camp : pk} {P : pk -> Prop} {evs evs' : list OutreachEvent.t} :
  evolves camp P evs evs' -> events_ok evs -> events_ok evs'.
Proof.
  induction 1 as [|evs1 cust Hev IH HP Hnil|evs1 e0 ev fields Hev IH]; intros Hok.
  - assumption.
  - destruct (IH Hok) as [Hids Hkeys]. split; simpl; constructor; try assumption.
    + apply next_id_fresh.
    + apply filter_key_nil. assumption.
  - destruct (IH Hok) as [Hids Hkeys]. split.
    + rewrite map_update_event_ids. assumption.
    + rewrite map_update_event_keys. assumption.
Qed.

(** Rows that are [sent] or [skipped], rows of other campaigns and rows of
    customers outside [P] stay as they are. *)
Lemma evolves_keeps {camp : pk} {P : pk -> Prop} {evs evs' : list OutreachEvent.t}
      {e : OutreachEvent.t} :
  evolves camp P evs evs' -> events_ok evs -> In e evs ->
  terminal (OutreachEvent.status e) = true \/
  OutreachEvent.campaign e <> camp \/
  ~ P (OutreachEvent.customer e) ->
  In e evs'.
Proof.
  intros Hev Hok Hin Hcase.
  induction Hev as [|evs1 cust Hev IH HP Hnil
                    |evs1 e0 ev fields Hev IH Hin0 Hcamp HP0 Hterm Hid Hst Hf].
  - assumption.
  - right. apply IH.
  - apply update_event_keeps with (e0 := e0); auto.
    + apply (evolves_ok Hev Hok).
    + intros ->. destruct Hcase as [Ht|[Hc|Hp]]; [congruence|auto|auto].
Qed.

Lemma evolves_trans {camp : pk} {P : pk -> Prop} {a b c : list OutreachEvent.t} :
  evolves camp P a b -> evolves camp P b c -> evolves camp P a c.
Proof.
  intros Hab Hbc. induction Hbc; [assumption| |].
  - apply ev_create; assumption.
  - eapply ev_save; eassumption.
Qed.

Lemma evolves_weaken {camp : pk} {P Q : pk -> Prop} {a b : list OutreachEvent.t} :
  (forall k, P k -> Q k) -> evolves camp P a b -> evolves camp Q a b.
Proof.
  intros HPQ Hab. induction Hab.
  - constructor.
  - apply ev_create; auto.
  - eapply ev_save; eauto.
Qed.

(** Keys are only added, and only for customers in [P] that had no row. *)
Lemma evolves_keys {camp : pk} {P : pk -> Prop} {evs evs' : list OutreachEvent.t} :
  evolves camp P evs evs' ->
  incl (map event_key evs) (map event_key evs') /\
  ((forall k, P k -> In (camp, k) (map event_key evs)) ->
   map event_key evs' = map event_key evs).
Proof.
  induction 1 as [|evs1 cust Hev [IHi IHe] HP Hnil|evs1 e0 ev fields Hev [IHi IHe]].
  - split; [apply incl_refl|reflexivity].
  - split.
    + simpl. apply incl_tl. assumption.
    + intros Hall. exfalso. apply filter_key_nil in Hnil. apply Hnil.
      rewrite (IHe Hall). apply Hall. assumption.
  - rewrite map_update_event_keys. split; assumption.
Qed.

(** ** Storage calls of the pipeline, whatever the storage does *)

Lemma same_tables_refl (d : DB) : same_tables d d.
Proof. repeat split. Qed.

Lemma same_tables_trans (a b c : DB) :
  same_tables a b -> same_tables b c -> same_tables a c.
Proof.
  unfold same_tables. intros (H1 & H2 & H3) (H4 & H5 & H6).
  repeat split; congruence.
Qed.

Lemma get_or_create_event_inv {campaign : Campaign.t} {customer : Customer.t}
      {w w1 : World} {r : result (OutreachEvent.t * bool)} :
  get_or_create_event campaign customer w = (r, w1) ->
  same_tables (db w) (db w1) /\
  ((exists x, r = Raise x /\ exn_class x <> CampaignDoesNotExist /\
              events (db w1) = events (db w)) \/
   (exists e0 b, r = Ok (e0, b) /\ In e0 (events (db w1)) /\
                 event_key e0 = (Campaign.id campaign, Customer.id customer) /\
                 (events (db w1) = events (db w) \/
                  (filter (event_for (Campaign.id campaign) (Customer.id customer))
                          (events (db w)) = [] /\
                   e0 = new_event (Campaign.id campaign) (Customer.id customer)
                                  (events (db w)) /\
                   events (db w1) = e0 :: events (db w))))).
Proof.
  unfold get_or_create_event. intros H.
  destruct (bind_inv H) as [(u & w0 & Hs & Hk)|(x & Hs & ->)].
  2:{ rewrite (storage_db Hs). split; [apply same_tables_refl|].
      left. exists x. rewrite (storage_raise Hs). repeat split. discriminate. }
  pose proof (storage_db Hs) as Hd0. clear H Hs.
  unfold bind, get_db in Hk. rewrite Hd0 in Hk.
  destruct (filter (event_for (Campaign.id campaign) (Customer.id customer))
                   (events (db w))) as [|e [|e2 rest]] eqn:Hfil.
  - unfold put_db, ret in Hk. inversion Hk; subst; clear Hk. simpl.
    split; [repeat split|]. right. do 2 eexists. split; [reflexivity|].
    split; [left; reflexivity|]. split; [reflexivity|]. right. auto.
  - unfold ret in Hk. inversion Hk; subst; clear Hk. rewrite Hd0.
    split; [apply same_tables_refl|]. right. exists e, false.
    assert (Hin : In e (filter (event_for (Campaign.id campaign) (Customer.id customer))
                               (events (db w)))) by (rewrite Hfil; left; reflexivity).
    apply filter_In in Hin. destruct Hin as [Hin Hk].
    apply event_for_key in Hk. auto.
  - unfold raise in Hk. inversion Hk; subst; clear Hk. rewrite Hd0.
    split; [apply same_tables_refl|]. left. eexists. repeat split. discriminate.
Qed.

Lemma save_event_inv {fields : list OutreachEvent.field} {ev : OutreachEvent.t}
      {w w1 : World} {r : result unit} :
  save_event fields ev w = (r, w1) ->
  same_tables (db w) (db w1) /\
  ((r = Ok tt /\ events (db w1) = map (update_event fields ev) (events (db w))) \/
   (exists x, r = Raise x /\ exn_class x = DatabaseError /\
              events (db w1) = events (db w))).
Proof.
  unfold save_event. intros H.
  destruct (bind_inv H) as [(u & w0 & Hs & Hk)|(x & Hs & ->)].
  2:{ rewrite (storage_db Hs). split; [apply same_tables_refl|]. right.
      exists x. rewrite (storage_raise Hs). auto. }
  pose proof (storage_db Hs) as Hd0. clear H Hs.
  unfold bind, get_db in Hk. rewrite Hd0 in Hk.
  destruct (existsb (fun row => (OutreachEvent.id row =? OutreachEvent.id ev)%nat)
                    (events (db w))).
  - unfold put_db in Hk. inversion Hk; subst; clear Hk. simpl.
    split; [repeat split|]. left. auto.
  - unfold raise in Hk. inversion Hk; subst; clear Hk. rewrite Hd0.
    split; [apply same_tables_refl|]. right. eexists. repeat split.
Qed.

Lemma save_campaign_status_inv {c : Campaign.t} {w w1 : World} {r : result unit} :
  save_campaign_status c w = (r, w1) ->
  customers (db w1) = customers (db w) /\ visits (db w1) = visits (db w) /\
  events (db w1) = events (db w) /\
  ((r = Ok tt /\
    campaigns (db w1) = map (update_campaign_status c) (campaigns (db w))) \/
   (exists x, r = Raise x /\ campaigns (db w1) = campaigns (db w))).
Proof.
  unfold save_campaign_status. intros H.
  destruct (bind_inv H) as [(u & w0 & Hs & Hk)|(x & Hs & ->)].
  2:{ rewrite (storage_db Hs). repeat split. right. eauto. }
  pose proof (storage_db Hs) as Hd0. clear H Hs.
  unfold bind, get_db in Hk. rewrite Hd0 in Hk.
  destruct (existsb (fun row => (Campaign.id row =? Campaign.id c)%nat)
                    (campaigns (db w))).
  - unfold put_db in Hk. inversion Hk; subst; clear Hk. simpl.
    repeat split. left. auto.
  - unfold raise in Hk. inversion Hk; subst; clear Hk. rewrite Hd0.
    repeat split. right. eauto.
Qed.

Lemma get_campaign_inv {campaign_id : pk} {w w1 : World} {r : result Campaign.t} :
  get_campaign campaign_id w = (r, w1) ->
  db w1 = db w /\
  match r with
  | Ok c => campaign_row (db w) campaign_id = Some c
  | Raise x =>
      exn_class x = CampaignDoesNotExist ->
      filter (fun c => Campaign.id c =? campaign_id)%nat (campaigns (db w)) = []
  end.
Proof.
  unfold get_campaign. intros H.
  destruct (bind_inv H) as [(u & w0 & Hs & Hk)|(x & Hs & ->)].
  2:{ split; [apply (storage_db Hs)|].
      unfold storage in Hs.
      destruct (faults w) as [|[msg|] fs]; inversion Hs; subst. discriminate. }
  pose proof (storage_db Hs) as Hd0. clear H Hs.
  unfold bind, get_db, campaign_row in *. rewrite Hd0 in Hk.
  destruct (filter (fun c => Campaign.id c =? campaign_id)%nat (campaigns (db w)))
    as [|c [|c2 rest]]; inversion Hk; subst; clear Hk;
    (split; [assumption|]); try reflexivity; try discriminate.
Qed.

Lemma event_failed_inv {event : OutreachEvent.t} {t : Totals} {x : exn}
      {w w1 : World} {r : result Totals} :
  event_failed event t x w = (r, w1) ->
  same_tables (db w) (db w1) /\
  ((r = Ok (add_processed (add_failed t)) /\
    events (db w1)
    = map (update_event [OutreachEvent.f_status; OutreachEvent.f_error_message]
                        (set_outcome failed (Some (exn_str x))
                                     (OutreachEvent.sent_at event) event))
          (events (db w))) \/
   (exists y, r = Raise y /\ exn_class y = DatabaseError /\
              events (db w1) = events (db w))).
Proof.
  unfold event_failed. intros H.
  destruct (bind_inv H) as [(u & w0 & Hs & Hk)|(y & Hs & ->)].
  - destruct (save_event_inv Hs) as [Hst [[_ Hev]|(y & Hy & _)]]; [|discriminate].
    unfold ret in Hk. inversion Hk; subst. split; [assumption|]. left. auto.
  - destruct (save_event_inv Hs) as [Hst [[Hy _]|(z & Hz & Hc & Hev)]]; [discriminate|].
    injection Hz as <-. split; [assumption|]. right. eauto.
Qed.

Section PipelineFacts.

Variable str_format : string -> string -> result string.

(** One turn of the inner loop, whatever the storage does. *)
Lemma process_customer_inv {campaign : Campaign.t} {customer : Customer.t}
      {t : Totals} {w w' : World} {r : result Totals} :
  process_customer str_format campaign customer t w = (r, w') ->
  same_tables (db w) (db w') /\
  evolves (Campaign.id campaign) (eq (Customer.id customer))
          (events (db w)) (events (db w')) /\
  (forall t', r = Ok t' ->
     In (Campaign.id campaign, Customer.id customer)
        (map event_key (events (db w')))).
Proof.
  unfold process_customer, process_event. intros H.
  destruct (bind_inv H) as [([e0 b] & w1 & Hg & Hk)|(x & Hg & ->)]; clear H.
  2:{ destruct (get_or_create_event_inv Hg) as [Hst [(y & _ & _ & Hev)|(e0 & b & Hr & _)]];
        [|discriminate].
      split; [assumption|]. rewrite Hev. split; [constructor|discriminate]. }
  destruct (get_or_create_event_inv Hg) as [Hst [(y & Hr & _)|(e0' & b' & Hr & Hin & Hkey & Hev)]];
    [discriminate|].
  injection Hr as <- <-. clear Hg.
  assert (Hev1 : evolves (Campaign.id campaign) (eq (Customer.id customer))
                         (events (db w)) (events (db w1))).
  { destruct Hev as [->|(Hnil & -> & ->)]; [constructor|].
    apply ev_create; [constructor|reflexivity|assumption]. }
  assert (Hkey1 : In (Campaign.id campaign, Customer.id customer)
                     (map event_key (events (db w1)))).
  { rewrite <- Hkey. apply in_map. assumption. }
  clear Hev.
  assert (Hc0 : OutreachEvent.campaign e0 = Campaign.id campaign)
    by (unfold event_key in Hkey; congruence).
  assert (Hu0 : Customer.id customer = OutreachEvent.customer e0)
    by (unfold event_key in Hkey; congruence).
  destruct (terminal (OutreachEvent.status e0)) eqn:Hterm.
  { unfold ret in Hk. inversion Hk; subst. auto. }
  (* an attempt: every save is made on the table [events (db w1)] *)
  assert (Hsave :
    forall (ev : OutreachEvent.t) (fields : list OutreachEvent.field) (wa wb : World),
      events (db wa) = events (db w1) ->
      OutreachEvent.id ev = OutreachEvent.id e0 ->
      OutreachEvent.status ev = sent \/ OutreachEvent.status ev = failed ->
      In OutreachEvent.f_status fields ->
      events (db wb) = map (update_event fields ev) (events (db wa)) ->
      evolves (Campaign.id campaign) (eq (Customer.id customer))
              (events (db w)) (events (db wb)) /\
      In (Campaign.id campaign, Customer.id customer)
         (map event_key (events (db wb)))).
  { intros ev fields wa wb Ha Hid Hs Hf Hb. rewrite Hb, Ha. split.
    - eapply ev_save; eauto.
    - rewrite map_update_event_keys. assumption. }
  assert (Hfail :
    forall (ev : OutreachEvent.t) (t0 : Totals) (x : exn) (wa : World),
      same_tables (db w) (db wa) ->
      events (db wa) = events (db w1) ->
      OutreachEvent.id ev = OutreachEvent.id e0 ->
      event_failed ev t0 x wa = (r, w') ->
      same_tables (db w) (db w') /\
      evolves (Campaign.id campaign) (eq (Customer.id customer))
              (events (db w)) (events (db w')) /\
      (forall t', r = Ok t' ->
         In (Campaign.id campaign, Customer.id customer)
            (map event_key (events (db w'))))).
  { intros ev t0 x wa Hsa Ha Hid Hf.
    destruct (event_failed_inv Hf) as [Hst' [[_ Hev]|(y & -> & _ & Hev)]].
    - split; [eapply same_tables_trans; eassumption|].
      destruct (Hsave (set_outcome failed (Some (exn_str x))
                                   (OutreachEvent.sent_at ev) ev)
                      [OutreachEvent.f_status; OutreachEvent.f_error_message]
                      wa w' Ha Hid (or_intror eq_refl) (or_introl eq_refl) Hev).
      auto.
    - split; [eapply same_tables_trans; eassumption|].
      rewrite Hev, Ha. split; [assumption|discriminate]. }
  destruct (str_format (Campaign.message_template campaign)
                       (Customer.first_name customer)) as [message|x].
  2:{ eapply Hfail; eauto. }
  destruct (bind_inv Hk) as [(u & w2 & Hs1 & Hk2)|(y & Hs1 & _)];
    [|discriminate Hs1]. clear Hk.
  assert (Hd2 : db w2 = db w1) by (inversion Hs1; reflexivity).
  destruct (bind_inv Hk2) as [(success & w3 & Hs2 & Hk3)|(y & Hs2 & _)];
    [|discriminate Hs2]. clear Hk2.
  assert (Hd3 : db w3 = db w2) by (inversion Hs2; reflexivity).
  destruct (bind_inv Hk3) as [([ev t1] & w4 & Hs3 & Hk4)|(y & Hs3 & _)];
    [|destruct success; discriminate Hs3]. clear Hk3.
  assert (Hev4 : db w4 = db w3 /\ OutreachEvent.id ev = OutreachEvent.id e0 /\
                 (OutreachEvent.status ev = sent \/ OutreachEvent.status ev = failed)).
  { destruct success; inversion Hs3; subst; simpl; auto. }
  destruct Hev4 as (Hd4 & Hid4 & Hst4).
  assert (Hdb4 : db w4 = db w1) by congruence.
  unfold try_except in Hk4.
  match type of Hk4 with
  | context [bind (save_event ?f ev) ?k w4] =>
      destruct (bind (save_event f ev) k w4) as [[t2|y] wb] eqn:Hs
  end.
  - inversion Hk4; subst; clear Hk4.
    destruct (bind_inv Hs) as [(u' & w0 & Hs' & Hk')|(y & _ & Habs)]; [|discriminate].
    destruct (save_event_inv Hs') as [Hst' [[_ Hev]|(y & Hy & _)]]; [|discriminate].
    unfold ret in Hk'. inversion Hk'; subst.
    rewrite Hdb4 in Hst', Hev.
    split; [eapply same_tables_trans; eassumption|].
    split; [|intros t' _].
    + rewrite Hev. eapply ev_save; eauto. left; reflexivity.
    + rewrite Hev, map_update_event_keys. assumption.
  - destruct (bind_inv Hs) as [(u' & w0 & Hs' & Hk')|(z & Hs' & Hz)];
      [unfold ret in Hk'; discriminate|].
    injection Hz as <-.
    destruct (save_event_inv Hs') as [Hst' [[Hy _]|(z & _ & _ & Hev)]]; [discriminate|].
    eapply Hfail; [| | |exact Hk4].
    + eapply same_tables_trans; [exact Hst|]. rewrite <- Hdb4. exact Hst'.
    + rewrite Hev, Hdb4. reflexivity.
    + assumption.
Qed.

Lemma for_customers_inv {campaign : Campaign.t} {batch : list Customer.t} :
  forall (t : Totals) (w w' : World) (r : result Totals),
    for_customers str_format campaign batch t w = (r, w') ->
    same_tables (db w) (db w') /\
    evolves (Campaign.id campaign)
            (fun k => exists c, In c batch /\ Customer.id c = k)
            (events (db w)) (events (db w')) /\
    (forall t', r = Ok t' ->
       forall c, In c batch ->
         In (Campaign.id campaign, Customer.id c) (map event_key (events (db w')))).
Proof.
  induction batch as [|c rest IH]; intros t w w' r H; simpl in H.
  - unfold ret in H. inversion H; subst.
    split; [apply same_tables_refl|]. split; [constructor|].
    intros t' _ c [].
  - destruct (bind_inv H) as [(t1 & w1 & Hp & Hk)|(x & Hp & ->)]; clear H.
    + destruct (process_customer_inv Hp) as (Hst1 & Hev1 & Hkey1).
      destruct (IH _ _ _ _ Hk) as (Hst2 & Hev2 & Hkey2).
      split; [eapply same_tables_trans; eassumption|]. split.
      * eapply evolves_trans.
        -- eapply evolves_weaken; [|exact Hev1].
           intros k <-. exists c. split; [left; reflexivity|reflexivity].
        -- eapply evolves_weaken; [|exact Hev2].
           intros k (c' & Hin & Hid). exists c'. split; [right; assumption|assumption].
      * intros t' Hr c' [<-|Hin].
        -- apply (proj1 (evolves_keys Hev2)). apply (Hkey1 t1 eq_refl).
        -- eapply Hkey2; eassumption.
    + destruct (process_customer_inv Hp) as (Hst1 & Hev1 & _).
      split; [assumption|]. split; [|discriminate].
      eapply evolves_weaken; [|exact Hev1].
      intros k <-. exists c. split; [left; reflexivity|reflexivity].
Qed.

Lemma customers_id_in_inv {batch_ids : list pk} {w w1 : World}
      {r : result (list Customer.t)} :
  customers_id_in batch_ids w = (r, w1) ->
  db w1 = db w /\
  (forall cs, r = Ok cs ->
     cs = filter (fun c => mem_pk (Customer.id c) batch_ids) (customers (db w))).
Proof.
  unfold customers_id_in. intros H.
  destruct (bind_inv H) as [(u & w0 & Hs & Hk)|(x & Hs & ->)].
  - pose proof (storage_db Hs) as Hd0. unfold bind, get_db, ret in Hk.
    inversion Hk; subst. split; [assumption|].
    intros cs E. injection E as <-. rewrite Hd0. reflexivity.
  - split; [apply (storage_db Hs)|discriminate].
Qed.

Lemma mem_pk_In (k : pk) (ks : list pk) : mem_pk k ks = true <-> In k ks.
Proof.
  unfold mem_pk. rewrite existsb_exists. split.
  - intros (x & Hin & Heq). apply Nat.eqb_eq in Heq. subst. assumption.
  - intros Hin. exists k. split; [assumption|apply Nat.eqb_refl].
Qed.

Lemma In_slice {A} (x : A) (l : list A) (i j : nat) :
  In x (slice l i j) -> In x l.
Proof.
  unfold slice. intros H.
  rewrite <- (firstn_skipn i l). apply in_or_app. right.
  rewrite <- (firstn_skipn (j - i) (skipn i l)). apply in_or_app. left. assumption.
Qed.

Lemma for_batches_inv {campaign : Campaign.t} {customer_ids : list pk}
      {starts : list nat} :
  forall (t : Totals) (w w' : World) (r : result Totals),
    for_batches str_format campaign customer_ids starts t w = (r, w') ->
    same_tables (db w) (db w') /\
    evolves (Campaign.id campaign)
            (fun k => In k customer_ids /\
                      exists c, In c (customers (db w)) /\ Customer.id c = k)
            (events (db w)) (events (db w')) /\
    (forall t', r = Ok t' ->
       forall i c, In i starts -> In c (customers (db w)) ->
         In (Customer.id c) (slice customer_ids i (i + batch_size)) ->
         In (Campaign.id campaign, Customer.id c) (map event_key (events (db w')))).
Proof.
  induction starts as [|i rest IH]; intros t w w' r H; simpl in H.
  - unfold ret in H. inversion H; subst.
    split; [apply same_tables_refl|]. split; [constructor|].
    intros t' _ i c [].
  - destruct (bind_inv H) as [(cs & w1 & Hq & Hk)|(x & Hq & ->)]; clear H.
    2:{ destruct (customers_id_in_inv Hq) as [Hd _]. rewrite Hd.
        split; [apply same_tables_refl|]. split; [constructor|discriminate]. }
    destruct (customers_id_in_inv Hq) as [Hd Hcs]. specialize (Hcs cs eq_refl).
    assert (HP : forall k, (exists c, In c cs /\ Customer.id c = k) ->
                           In k customer_ids /\
                           exists c, In c (customers (db w)) /\ Customer.id c = k).
    { intros k (c & Hin & Hid). rewrite Hcs in Hin. apply filter_In in Hin.
      destruct Hin as [Hin Hmem]. apply mem_pk_In in Hmem. split.
      - rewrite <- Hid. eapply In_slice. eassumption.
      - eauto. }
    destruct (bind_inv Hk) as [(t1 & w2 & Hc & Hk2)|(x & Hc & ->)]; clear Hk.
    + destruct (for_customers_inv _ _ _ _ Hc) as (Hst1 & Hev1 & Hkey1).
      destruct (IH _ _ _ _ Hk2) as (Hst2 & Hev2 & Hkey2).
      rewrite Hd in Hst1, Hev1.
      assert (Hcust : customers (db w2) = customers (db w)) by apply Hst1.
      rewrite Hcust in Hev2, Hkey2.
      split; [eapply same_tables_trans; eassumption|]. split.
      * eapply evolves_trans; [|exact Hev2].
        eapply evolves_weaken; [exact HP|exact Hev1].
      * intros t' Hr j c [<-|Hin] Hc' Hsl.
        -- apply (proj1 (evolves_keys Hev2)). apply (Hkey1 t1 eq_refl).
           rewrite Hcs. apply filter_In. split; [assumption|].
           apply mem_pk_In. assumption.
        -- eapply Hkey2; eassumption.
    + destruct (for_customers_inv _ _ _ _ Hc) as (Hst1 & Hev1 & _).
      rewrite Hd in Hst1, Hev1.
      split; [assumption|]. split; [|discriminate].
      eapply evolves_weaken; [exact HP|exact Hev1].
Qed.

(** The batches cover the list of ids. *)
Lemma slices_cover {A} (l : list A) (x : A) :
  In x l ->
  exists i, In i (range_step (List.length l) batch_size) /\
            In x (slice l i (i + batch_size)).
Proof.
  intros Hin. destruct (In_nth l x x Hin) as (n & Hn & Hx).
  unfold batch_size in *.
  exists ((n / 200) * 200)%nat. split.
  - unfold range_step. apply in_map_iff. exists (n / 200)%nat.
    split; [reflexivity|]. apply in_seq. split; [lia|]. rewrite Nat.add_0_l.
    apply Nat.Div0.div_lt_upper_bound.
    pose proof (Nat.div_mod_eq (List.length l + 200 - 1) 200).
    pose proof (Nat.mod_upper_bound (List.length l + 200 - 1) 200).
    lia.
  - unfold slice.
    replace (n / 200 * 200 + 200 - n / 200 * 200)%nat with 200%nat by lia.
    pose proof (Nat.div_mod_eq n 200) as Hdm.
    pose proof (Nat.mod_upper_bound n 200) as Hmod.
    assert (Hx' : nth (n mod 200) (firstn 200 (skipn (n / 200 * 200) l)) x = x).
    { rewrite nth_firstn.
      destruct (Nat.ltb_spec (n mod 200) 200); [|lia].
      rewrite nth_skipn. rewrite <- Hx at 2. f_equal. lia. }
    rewrite <- Hx'. apply nth_In.
    rewrite length_firstn, length_skipn. lia.
Qed.

(** *** Which computations can raise [Campaign.DoesNotExist] *)

Lemma finds_ret {A} (a : A) : finds_campaign (ret a).
Proof. intros w x w' H. discriminate H. Qed.

Lemma finds_bind {A B} (m : M A) (k : A -> M B) :
  finds_campaign m -> (forall a, finds_campaign (k a)) -> finds_campaign (bind m k).
Proof.
  intros Hm Hk w x w' H.
  destruct (bind_inv H) as [(a & w1 & _ & H2)|(y & H1 & Hy)].
  - eapply Hk. eassumption.
  - injection Hy as <-. eapply Hm. eassumption.
Qed.

Lemma finds_try {A} (m : M A) (h : exn -> M A) :
  (forall e, finds_campaign (h e)) -> finds_campaign (try_except m h).
Proof.
  intros Hh w x w' H. unfold try_except in H.
  destruct (m w) as [[a|e] w1]; [discriminate|]. eapply Hh. eassumption.
Qed.

Lemma finds_storage : finds_campaign storage.
Proof. intros w x w' H. rewrite (storage_raise H). discriminate. Qed.

Lemma finds_save_event (fields : list OutreachEvent.field) (ev : OutreachEvent.t) :
  finds_campaign (save_event fields ev).
Proof.
  intros w x w' H. destruct (save_event_inv H) as [_ [[E _]|(y & E & Hc & _)]];
    [discriminate|]. injection E as <-. rewrite Hc. discriminate.
Qed.

Lemma finds_event_failed (event : OutreachEvent.t) (t : Totals) (e : exn) :
  finds_campaign (event_failed event t e).
Proof.
  unfold event_failed. apply finds_bind; [apply finds_save_event|].
  intros _. apply finds_ret.
Qed.

Lemma finds_get_or_create (campaign : Campaign.t) (customer : Customer.t) :
  finds_campaign (get_or_create_event campaign customer).
Proof.
  intros w x w' H.
  destruct (get_or_create_event_inv H) as [_ [(y & E & Hc & _)|(e0 & b & E & _)]];
    [|discriminate]. injection E as <-. assumption.
Qed.

Lemma finds_process_customer (campaign : Campaign.t) (customer : Customer.t)
      (t : Totals) :
  finds_campaign (process_customer str_format campaign customer t).
Proof.
  unfold process_customer. apply finds_bind; [apply finds_get_or_create|].
  intros [event b]. destruct (terminal (OutreachEvent.status event)); [apply finds_ret|].
  unfold process_event.
  destruct (str_format _ _); [|apply finds_event_failed].
  apply finds_bind; [intros w x w' H; discriminate H|]. intros _.
  apply finds_bind; [intros w x w' H; discriminate H|]. intros success.
  apply finds_bind.
  - destruct success; intros w x w' H; discriminate H.
  - intros [ev t']. apply finds_try. intros e. apply finds_event_failed.
Qed.

Lemma finds_for_customers (campaign : Campaign.t) (batch : list Customer.t) :
  forall t, finds_campaign (for_customers str_format campaign batch t).
Proof.
  induction batch as [|c rest IH]; intros t; simpl.
  - apply finds_ret.
  - apply finds_bind; [apply finds_process_customer|]. intros t'. apply IH.
Qed.

Lemma finds_for_batches (campaign : Campaign.t) (customer_ids : list pk)
      (starts : list nat) :
  forall t, finds_campaign (for_batches str_format campaign customer_ids starts t).
Proof.
  induction starts as [|i rest IH]; intros t; simpl.
  - apply finds_ret.
  - apply finds_bind.
    + unfold customers_id_in. apply finds_bind; [apply finds_storage|].
      intros _ w x w' H. discriminate H.
    + intros cs. apply finds_bind; [apply finds_for_customers|]. intros t'. apply IH.
Qed.

(** *** The shape of a run *)

Lemma apply_segmentation_inv {campaign : Campaign.t} {qs : QuerySet}
      {w w1 : World} {r : result (option QuerySet)} :
  apply_segmentation campaign qs w = (r, w1) ->
  db w1 = db w /\ faults w1 = faults w /\
  (forall x, r = Raise x -> exn_class x = OverflowError).
Proof.
  unfold apply_segmentation. intros H.
  destruct (Campaign.segment_type campaign =? "inactive_days")%string.
  - unfold bind in H. rewrite inactive_days_run in H.
    destruct (cutoff_representable _ _); inversion H; subst;
      repeat split; try discriminate.
    intros x E. injection E as <-. reflexivity.
  - destruct (Campaign.segment_type campaign =? "high_spenders")%string;
      inversion H; subst; repeat split; discriminate.
Qed.

Lemma selected_by_clock (campaign : Campaign.t) (w w0 : World) :
  clock w0 = clock w -> clock_ix w0 = clock_ix w ->
  selected_by campaign w0 = selected_by campaign w.
Proof.
  intros Hc Hi. unfold selected_by, apply_segmentation.
  destruct (Campaign.segment_type campaign =? "inactive_days")%string.
  - unfold bind. rewrite !inactive_days_run, Hc, Hi.
    destruct (cutoff_representable _ _); reflexivity.
  - destruct (Campaign.segment_type campaign =? "high_spenders")%string; reflexivity.
Qed.

Lemma task_body_inv {campaign_id : pk} {w w' : World} {r : result TaskReturn} :
  task_body str_format campaign_id w = (r, w') ->
  (db w' = db w /\
   match r with
   | Ok ret => ret = ReturnNone /\
               exists campaign, campaign_row (db w) campaign_id = Some campaign /\
                                selected_by campaign w = None
   | Raise x => exn_class x = CampaignDoesNotExist ->
                campaign_row (db w) campaign_id = None
   end) \/
  (exists campaign qs w3 rl w4,
     campaign_row (db w) campaign_id = Some campaign /\
     selected_by campaign w = Some qs /\
     db w3 = db w /\
     for_batches str_format campaign
                 (map Customer.id (filter qs (customers (db w))))
                 (range_step (List.length (map Customer.id (filter qs (customers (db w)))))
                             batch_size)
                 (mkTotals 0 0 0) w3 = (rl, w4) /\
     match rl with
     | Raise x => r = Raise x /\ w' = w4
     | Ok t => finish campaign campaign_id t w4 = (r, w')
     end).
Proof.
  unfold task_body. intros H.
  destruct (bind_inv H) as [(campaign & w1 & Hg & Hk)|(x & Hg & ->)]; clear H.
  2:{ left. destruct (get_campaign_inv Hg) as [Hd Hx]. split; [assumption|].
      intros Hc. unfold campaign_row. rewrite (Hx Hc). reflexivity. }
  destruct (get_campaign_inv Hg) as [Hd1 Hrow].
  assert (Hsel : selected_by campaign w1 = selected_by campaign w).
  { unfold get_campaign in Hg.
    destruct (bind_inv Hg) as [(u & w0 & Hs & Hk')|(x & _ & Habs)]; [|discriminate].
    destruct (storage_frame Hs) as (Hc & Hi & _).
    unfold bind, get_db in Hk'.
    assert (w1 = w0).
    { destruct (filter _ _) as [|c [|c2 rest]]; inversion Hk'; reflexivity. }
    subst w1. apply selected_by_clock; assumption. }
  destruct (bind_inv Hk) as [(seg & w2 & Ha & Hk2)|(x & Ha & ->)]; clear Hk.
  2:{ left. destruct (apply_segmentation_inv Ha) as (Hd2 & _ & Hx).
      split; [congruence|]. intros Hc. rewrite (Hx x eq_refl) in Hc. discriminate. }
  destruct (apply_segmentation_inv Ha) as (Hd2 & _ & _).
  assert (Hseg : selected_by campaign w1 = seg).
  { unfold selected_by, restaurant_customers. rewrite Ha. destruct seg; reflexivity. }
  destruct seg as [qs|].
  2:{ left. unfold ret in Hk2. inversion Hk2; subst. split; [congruence|].
      split; [reflexivity|]. exists campaign. split; [assumption|]. congruence. }
  destruct (bind_inv Hk2) as [(ids & w3 & Hv & Hk3)|(x & Hv & ->)]; clear Hk2.
  2:{ left. unfold values_list_id in Hv.
      destruct (bind_inv Hv) as [(u & w0 & Hs & Hk')|(y & Hs & Hy)];
        [unfold bind, get_db, ret in Hk'; discriminate|].
      injection Hy as <-. rewrite (storage_db Hs). split; [congruence|].
      rewrite (storage_raise Hs). discriminate. }
  assert (Hids : ids = map Customer.id (filter qs (customers (db w))) /\ db w3 = db w).
  { unfold values_list_id in Hv.
    destruct (bind_inv Hv) as [(u & w0 & Hs & Hk')|(y & _ & Habs)]; [|discriminate].
    pose proof (storage_db Hs) as Hd0. unfold bind, get_db, ret in Hk'.
    inversion Hk'; subst. split; congruence. }
  destruct Hids as [-> Hd3].
  right. exists campaign, qs, w3.
  destruct (for_batches str_format campaign _ _ _ w3) as [rl w4] eqn:Hloop.
  exists rl, w4. split; [assumption|]. split; [congruence|]. split; [assumption|].
  split; [reflexivity|].
  unfold bind in Hk3. rewrite Hloop in Hk3.
  destruct rl as [t|x]; [assumption|]. inversion Hk3; auto.
Qed.

Lemma finish_inv {campaign : Campaign.t} {campaign_id : pk} {t : Totals}
      {w w' : World} {r : result TaskReturn} :
  finish campaign campaign_id t w = (r, w') ->
  customers (db w') = customers (db w) /\ events (db w') = events (db w) /\
  (r = Ok (ReturnSummary campaign_id t) \/
   exists x, r = Raise x /\ exn_class x = DatabaseError).
Proof.
  unfold finish. intros H.
  destruct (bind_inv H) as [(u & w1 & Hs & Hk)|(x & Hs & ->)].
  - destruct (save_campaign_status_inv Hs) as (Hc & _ & He & _).
    unfold ret in Hk. inversion Hk; subst. auto.
  - destruct (save_campaign_status_inv Hs) as (Hc & _ & He & _).
    split; [assumption|]. split; [assumption|]. right. exists x. split; [reflexivity|].
    unfold save_campaign_status in Hs.
    destruct (bind_inv Hs) as [(u & w0 & Hs0 & Hk')|(y & Hs0 & Hy)].
    + unfold bind, get_db in Hk'.
      destruct (existsb _ _); inversion Hk'; reflexivity.
    + injection Hy as <-. apply (storage_raise Hs0).
Qed.

(** ** The pipeline when storage works *)

Lemma filter_key_In (a b : pk) {e : OutreachEvent.t} {evs : list OutreachEvent.t} :
  NoDup (map event_key evs) -> In e evs -> event_key e = (a, b) ->
  filter (event_for a b) evs = [e].
Proof.
  intros Hnd Hin Hkey.
  assert (Hf : In e (filter (event_for a b) evs)).
  { apply filter_In. split; [assumption|]. apply event_for_key. assumption. }
  destruct (filter_key_unique a b Hnd) as [E|(e1 & E)]; rewrite E in Hf.
  - destruct Hf.
  - destruct Hf as [->|[]]. assumption.
Qed.

Lemma filter_event_update (a b : pk) (fields : list OutreachEvent.field)
      (ev : OutreachEvent.t) (evs : list OutreachEvent.t) :
  filter (event_for a b) (map (update_event fields ev) evs)
  = map (update_event fields ev) (filter (event_for a b) evs).
Proof.
  induction evs as [|e evs IH]; simpl; [reflexivity|].
  assert (E : event_for a b (update_event fields ev e) = event_for a b e).
  { unfold event_for. pose proof (update_event_key fields ev e) as Hk.
    unfold event_key in Hk. injection Hk as -> ->. reflexivity. }
  rewrite E. destruct (event_for a b e); simpl; rewrite IH; reflexivity.
Qed.

Lemma save_event_ok (fields : list OutreachEvent.field) (ev e0 : OutreachEvent.t)
      (w : World) :
  faults w = [] -> In e0 (events (db w)) ->
  OutreachEvent.id ev = OutreachEvent.id e0 ->
  save_event fields ev w
  = (Ok tt, set_db (mkDB (customers (db w)) (visits (db w)) (campaigns (db w))
                         (map (update_event fields ev) (events (db w)))) w).
Proof.
  intros Hf Hin Hid. unfold save_event.
  rewrite (bind_ok _ (storage_ok Hf)). unfold bind, get_db.
  assert (Hex : existsb (fun row => (OutreachEvent.id row =? OutreachEvent.id ev)%nat)
                        (events (db w)) = true).
  { apply existsb_exists. exists e0. split; [assumption|].
    apply Nat.eqb_eq. congruence. }
  rewrite Hex. reflexivity.
Qed.

(** An attempt on the row [e0] of the pair. *)
Lemma process_event_ok (campaign : Campaign.t) (customer : Customer.t)
      (e0 : OutreachEvent.t) (t : Totals) (w : World) :
  faults w = [] -> events_ok (events (db w)) ->
  In e0 (events (db w)) ->
  event_key e0 = (Campaign.id campaign, Customer.id customer) ->
  exists t' w' e',
    process_event str_format campaign customer e0 t w = (Ok t', w') /\
    faults w' = [] /\ clock w' = clock w /\ rand w' = rand w /\
    filter (event_for (Campaign.id campaign) (Customer.id customer))
           (events (db w')) = [e'] /\
    OutreachEvent.id e' = OutreachEvent.id e0 /\
    attempt_outcome (str_format (Campaign.message_template campaign)
                                (Customer.first_name customer))
                    customer t w e' t' w'.
Proof.
  intros Hf [Hids Hkeys] Hin Hkey.
  pose proof (filter_key_In _ _ Hkeys Hin Hkey) as Hfil.
  assert (Hupd : forall fields ev,
             OutreachEvent.id ev = OutreachEvent.id e0 ->
             filter (event_for (Campaign.id campaign) (Customer.id customer))
                    (map (update_event fields ev) (events (db w)))
             = [update_event fields ev e0]).
  { intros fields ev Hid. rewrite filter_event_update, Hfil. reflexivity. }
  unfold process_event, attempt_outcome.
  destruct (str_format (Campaign.message_template campaign)
                       (Customer.first_name customer)) as [message|x].
  - unfold event_failed, send_email, random_lt_09, timezone_now, try_except.
    unfold bind, ret. cbn [db clock clock_ix rand rand_ix faults outbox].
    destruct (rand w (rand_ix w));
      (erewrite save_event_ok; [|exact Hf|exact Hin|reflexivity]);
      do 3 eexists; (split; [reflexivity|]);
      cbn [db faults clock rand outbox rand_ix clock_ix set_db events];
      rewrite Hupd by reflexivity;
      repeat split; try assumption; try reflexivity;
      unfold update_event; rewrite Nat.eqb_refl; reflexivity.
  - unfold event_failed, bind, ret.
    erewrite save_event_ok; [|exact Hf|exact Hin|reflexivity].
    do 3 eexists. split; [reflexivity|].
    cbn [db faults clock rand outbox rand_ix clock_ix set_db events].
    rewrite Hupd by reflexivity.
    repeat split; try assumption; try reflexivity;
      unfold update_event; rewrite Nat.eqb_refl; reflexivity.
Qed.

Lemma get_or_create_event_ok (campaign : Campaign.t) (customer : Customer.t)
      (w : World) :
  faults w = [] -> events_ok (events (db w)) ->
  (exists e,
      filter (event_for (Campaign.id campaign) (Customer.id customer))
             (events (db w)) = [e] /\
      get_or_create_event campaign customer w = (Ok (e, false), w)) \/
  (filter (event_for (Campaign.id campaign) (Customer.id customer))
          (events (db w)) = [] /\
   get_or_create_event campaign customer w
   = (Ok (new_event (Campaign.id campaign) (Customer.id customer) (events (db w)),
          true),
      set_db (mkDB (customers (db w)) (visits (db w)) (campaigns (db w))
                   (new_event (Campaign.id campaign) (Customer.id customer)
                              (events (db w)) :: events (db w))) w)).
Proof.
  intros Hf [_ Hkeys]. unfold get_or_create_event.
  rewrite (bind_ok _ (storage_ok Hf)). unfold bind, get_db.
  destruct (filter_key_unique (Campaign.id campaign) (Customer.id customer) Hkeys)
    as [E|(e & E)]; rewrite E.
  - right. split; reflexivity.
  - left. exists e. split; reflexivity.
Qed.

(** One turn of the inner loop when storage works. *)
Lemma process_customer_ok (campaign : Campaign.t) (customer : Customer.t)
      (t : Totals) (w : World) :
  faults w = [] -> events_ok (events (db w)) ->
  exists t' w',
    process_customer str_format campaign customer t w = (Ok t', w') /\
    faults w' = [] /\ clock w' = clock w /\ rand w' = rand w /\
    ((exists e,
         filter (event_for (Campaign.id campaign) (Customer.id customer))
                (events (db w)) = [e] /\
         terminal (OutreachEvent.status e) = true /\ t' = t /\ w' = w) \/
     (exists e0 e',
         ((filter (event_for (Campaign.id campaign) (Customer.id customer))
                  (events (db w)) = [e0] /\
           terminal (OutreachEvent.status e0) = false) \/
          (filter (event_for (Campaign.id campaign) (Customer.id customer))
                  (events (db w)) = [] /\
           e0 = new_event (Campaign.id campaign) (Customer.id customer)
                          (events (db w)))) /\
         filter (event_for (Campaign.id campaign) (Customer.id customer))
                (events (db w')) = [e'] /\
         OutreachEvent.id e' = OutreachEvent.id e0 /\
         attempt_outcome (str_format (Campaign.message_template campaign)
                                     (Customer.first_name customer))
                         customer t w e' t' w')).
Proof.
  intros Hf Hok. unfold process_customer.
  destruct (get_or_create_event_ok campaign customer w Hf Hok)
    as [(e & Hfil & Hg)|(Hfil & Hg)]; rewrite (bind_ok _ Hg).
  - assert (Hin : In e (events (db w)) /\
                  event_for (Campaign.id campaign) (Customer.id customer) e = true).
    { apply filter_In. rewrite Hfil. left. reflexivity. }
    destruct Hin as [Hin Hkey]. apply event_for_key in Hkey.
    destruct (terminal (OutreachEvent.status e)) eqn:Hterm.
    + exists t, w. split; [reflexivity|]. repeat split; try assumption.
      left. exists e. auto.
    + destruct (process_event_ok campaign customer e t w Hf Hok Hin Hkey)
        as (t' & w' & e' & Hrun & Hf' & Hc & Hr & Hfil' & Hid & Hout).
      exists t', w'. split; [assumption|]. repeat split; try assumption.
      right. exists e, e'. auto.
  - set (e0 := new_event (Campaign.id campaign) (Customer.id customer) (events (db w))).
    set (w1 := set_db _ w).
    assert (Hok1 : events_ok (events (db w1))).
    { apply (evolves_ok (camp := Campaign.id campaign) (P := fun _ => True)
                        (evs := events (db w))); [|assumption].
      apply ev_create; [constructor|exact I|assumption]. }
    destruct (process_event_ok campaign customer e0 t w1 Hf Hok1
                               (or_introl eq_refl) eq_refl)
      as (t' & w' & e' & Hrun & Hf' & Hc & Hr & Hfil' & Hid & Hout).
    cbn [terminal OutreachEvent.status e0 new_event].
    exists t', w'. split; [exact Hrun|]. repeat split; try assumption.
    right. exists e0, e'. auto.
Qed.

Lemma for_customers_ok (campaign : Campaign.t) (batch : list Customer.t) :
  forall (t : Totals) (w : World),
    faults w = [] -> events_ok (events (db w)) ->
    exists t' w',
      for_customers str_format campaign batch t w = (Ok t', w') /\
      faults w' = [] /\ events_ok (events (db w')) /\
      clock w' = clock w /\ rand w' = rand w.
Proof.
  induction batch as [|c rest IH]; intros t w Hf Hok; simpl.
  - exists t, w. split; [reflexivity|]. split; [assumption|].
    split; [assumption|]. split; reflexivity.
  - destruct (process_customer_ok campaign c t w Hf Hok)
      as (t1 & w1 & Hrun & Hf1 & Hc1 & Hr1 & _).
    destruct (process_customer_inv Hrun) as (_ & Hev & _).
    destruct (IH t1 w1 Hf1 (evolves_ok Hev Hok)) as (t' & w' & Hrun' & Hf' & Hok' & Hc' & Hr').
    exists t', w'. rewrite (bind_ok _ Hrun). split; [assumption|].
    split; [assumption|]. split; [assumption|]. split; congruence.
Qed.

Lemma customers_id_in_ok (batch_ids : list pk) {w : World} :
  faults w = [] ->
  customers_id_in batch_ids w
  = (Ok (filter (fun c => mem_pk (Customer.id c) batch_ids) (customers (db w))), w).
Proof.
  intros Hf. unfold customers_id_in.
  rewrite (bind_ok _ (storage_ok Hf)). reflexivity.
Qed.

Lemma values_list_id_ok (qs : QuerySet) {w : World} :
  faults w = [] ->
  values_list_id qs w = (Ok (map Customer.id (filter qs (customers (db w)))), w).
Proof.
  intros Hf. unfold values_list_id.
  rewrite (bind_ok _ (storage_ok Hf)). reflexivity.
Qed.

Lemma for_batches_ok (campaign : Campaign.t) (customer_ids : list pk)
      (starts : list nat) :
  forall (t : Totals) (w : World),
    faults w = [] -> events_ok (events (db w)) ->
    exists t' w',
      for_batches str_format campaign customer_ids starts t w = (Ok t', w') /\
      faults w' = [] /\ events_ok (events (db w')) /\
      clock w' = clock w /\ rand w' = rand w.
Proof.
  induction starts as [|i rest IH]; intros t w Hf Hok; simpl.
  - exists t, w. split; [reflexivity|]. split; [assumption|].
    split; [assumption|]. split; reflexivity.
  - rewrite (bind_ok _ (customers_id_in_ok _ Hf)).
    match goal with
    | |- context [bind (for_customers str_format campaign ?cs t) _ w] =>
        destruct (for_customers_ok campaign cs t w Hf Hok)
          as (t1 & w1 & Hrun & Hf1 & Hok1 & Hc1 & Hr1)
    end.
    rewrite (bind_ok _ Hrun).
    destruct (IH t1 w1 Hf1 Hok1) as (t' & w' & Hrun' & Hf' & Hok' & Hc' & Hr').
    exists t', w'. split; [assumption|]. split; [assumption|].
    split; [assumption|]. split; congruence.
Qed.

Lemma campaign_row_In {d : DB} {k : pk} {c : Campaign.t} :
  campaign_row d k = Some c -> In c (campaigns d) /\ Campaign.id c = k.
Proof.
  unfold campaign_row.
  destruct (filter (fun c0 => Campaign.id c0 =? k)%nat (campaigns d))
    as [|c0 [|c1 rest]] eqn:Hfil; try discriminate.
  intros H; injection H as ->.
  assert (Hin : In c (filter (fun c0 => Campaign.id c0 =? k)%nat (campaigns d)))
    by (rewrite Hfil; left; reflexivity).
  apply filter_In in Hin. destruct Hin as [Hin Hid].
  apply Nat.eqb_eq in Hid. auto.
Qed.

Lemma update_campaign_status_id (c row : Campaign.t) :
  Campaign.id (update_campaign_status c row) = Campaign.id row.
Proof.
  unfold update_campaign_status.
  destruct (Campaign.id row =? Campaign.id c)%nat; reflexivity.
Qed.

Lemma filter_update_campaign (c : Campaign.t) (rows : list Campaign.t) (k : pk) :
  filter (fun r => Campaign.id r =? k)%nat (map (update_campaign_status c) rows)
  = map (update_campaign_status c) (filter (fun r => Campaign.id r =? k)%nat rows).
Proof.
  induction rows as [|r rows IH]; simpl; [reflexivity|].
  rewrite update_campaign_status_id.
  destruct (Campaign.id r =? k)%nat; simpl; rewrite IH; reflexivity.
Qed.

(** A successful [campaign.save(update_fields=['status'])] sets the status of
    the campaign's row and of no other. *)
Lemma campaign_row_saved (d d' : DB) (campaign : Campaign.t) (s : CampaignStatus) (k : pk) :
  campaign_row d (Campaign.id campaign) = Some campaign ->
  campaigns d' = map (update_campaign_status (Campaign.with_status s campaign))
                     (campaigns d) ->
  campaign_row d' k
  = if (k =? Campaign.id campaign)%nat
    then Some (Campaign.with_status s campaign)
    else campaign_row d k.
Proof.
  intros Hrow Hd'. unfold campaign_row in *. rewrite Hd'.
  rewrite filter_update_campaign.
  destruct (Nat.eqb_spec k (Campaign.id campaign)) as [->|Hne].
  - destruct (filter _ (campaigns d)) as [|c0 [|c1 rest]]; try discriminate.
    injection Hrow as ->. simpl. unfold update_campaign_status. simpl.
    rewrite Nat.eqb_refl. reflexivity.
  - assert (E : map (update_campaign_status (Campaign.with_status s campaign))
                    (filter (fun r => Campaign.id r =? k)%nat (campaigns d))
                = filter (fun r => Campaign.id r =? k)%nat (campaigns d)).
    { rewrite <- (map_id (filter _ (campaigns d))) at 2.
      apply map_ext_in. intros r Hr. apply filter_In in Hr. destruct Hr as [_ Hr].
      apply Nat.eqb_eq in Hr. unfold update_campaign_status. simpl.
      destruct (Nat.eqb_spec (Campaign.id r) (Campaign.id campaign)); [congruence|reflexivity]. }
    rewrite E. reflexivity.
Qed.

Lemma campaign_row_ext (d d' : DB) (k : pk) :
  campaigns d' = campaigns d -> campaign_row d' k = campaign_row d k.
Proof. unfold campaign_row. intros ->. reflexivity. Qed.

Lemma get_campaign_ok {w : World} {k : pk} {c : Campaign.t} :
  faults w = [] -> campaign_row (db w) k = Some c ->
  get_campaign k w = (Ok c, w).
Proof.
  intros Hf Hrow. unfold get_campaign.
  rewrite (bind_ok _ (storage_ok Hf)).
  unfold bind, get_db. unfold campaign_row in Hrow.
  destruct (filter (fun c0 => Campaign.id c0 =? k)%nat (campaigns (db w)))
    as [|c0 [|c1 rest]]; try discriminate.
  injection Hrow as ->. reflexivity.
Qed.

Lemma save_campaign_status_ok {w : World} (c : Campaign.t) :
  faults w = [] -> In c (campaigns (db w)) ->
  forall s,
    save_campaign_status (Campaign.with_status s c) w
    = (Ok tt, set_db (mkDB (customers (db w)) (visits (db w))
                           (map (update_campaign_status (Campaign.with_status s c))
                                (campaigns (db w)))
                           (events (db w))) w).
Proof.
  intros Hf Hin s. unfold save_campaign_status.
  rewrite (bind_ok _ (storage_ok Hf)). unfold bind, get_db.
  assert (Hex : existsb (fun row => (Campaign.id row =? Campaign.id (Campaign.with_status s c))%nat)
                        (campaigns (db w)) = true).
  { apply existsb_exists. exists c. split; [assumption|]. apply Nat.eqb_refl. }
  rewrite Hex. reflexivity.
Qed.

Lemma selected_by_run (campaign : Campaign.t) (w : World) (qs : QuerySet) :
  selected_by campaign w = Some qs ->
  exists w2,
    apply_segmentation campaign (restaurant_customers campaign) w
    = (Ok (Some qs), w2) /\
    db w2 = db w /\ faults w2 = faults w.
Proof.
  unfold selected_by. intros H.
  destruct (apply_segmentation campaign (restaurant_customers campaign) w)
    as [[[qs'|]|x] w2] eqn:E; try discriminate.
  injection H as ->. exists w2. split; [reflexivity|].
  destruct (apply_segmentation_inv E) as (Hd & Hf & _). auto.
Qed.

(** A run on an existing campaign with a segment that resolves, when storage
    works: every batch is processed and the campaign ends [completed]. *)
Lemma run_campaign_task_ok (campaign_id : pk) (w : World)
      (campaign : Campaign.t) (qs : QuerySet) :
  faults w = [] -> events_ok (events (db w)) ->
  campaign_row (db w) campaign_id = Some campaign ->
  selected_by campaign w = Some qs ->
  exists t w',
    run_campaign_task str_format campaign_id w
    = (Ok (ReturnSummary campaign_id t), w') /\
    faults w' = [] /\
    campaign_row (db w') campaign_id = Some (Campaign.with_status completed campaign) /\
    customers (db w') = customers (db w).
Proof.
  intros Hf Hok Hrow Hsel.
  destruct (campaign_row_In Hrow) as [Hin Hid].
  destruct (selected_by_run _ _ _ Hsel) as (w2 & Hseg & Hd2 & Hf2).
  rewrite Hf in Hf2.
  assert (Hok2 : events_ok (events (db w2))) by (rewrite Hd2; assumption).
  destruct (for_batches_ok campaign
              (map Customer.id (filter qs (customers (db w2))))
              (range_step (List.length (map Customer.id (filter qs (customers (db w2)))))
                          batch_size)
              (mkTotals 0 0 0) w2 Hf2 Hok2)
    as (t & w4 & Hloop & Hf4 & Hok4 & _).
  destruct (for_batches_inv _ _ _ _ Hloop) as ((Hcu & _ & Hca) & _).
  assert (Hin4 : In campaign (campaigns (db w4))) by (rewrite Hca, Hd2; assumption).
  exists t. eexists.
  unfold run_campaign_task, try_except, task_body.
  rewrite (bind_ok _ (get_campaign_ok Hf Hrow)).
  change (fun c : Customer.t =>
            (Customer.restaurant c =? Campaign.restaurant campaign)%nat)
    with (restaurant_customers campaign).
  cbv zeta. rewrite (bind_ok _ Hseg).
  rewrite (bind_ok _ (values_list_id_ok _ Hf2)).
  rewrite (bind_ok _ Hloop).
  unfold finish. rewrite (bind_ok _ (save_campaign_status_ok _ Hf4 Hin4 completed)).
  unfold ret. split; [reflexivity|]. cbn [db faults set_db customers].
  split; [assumption|]. split.
  - rewrite (campaign_row_saved (db w4) _ campaign completed campaign_id);
      [rewrite Hid, Nat.eqb_refl; reflexivity| |reflexivity].
    rewrite Hid, (campaign_row_ext (db w) (db w4)); [exact Hrow|congruence].
  - rewrite Hcu, Hd2. reflexivity.
Qed.

(** *** The two [except] arms of the run *)

Lemma pause_on_error_inv {campaign_id : pk} {e : exn} {w w' : World}
      {r : result TaskReturn} :
  pause_on_error campaign_id e w = (r, w') ->
  r = Raise e /\
  customers (db w') = customers (db w) /\ visits (db w') = visits (db w) /\
  events (db w') = events (db w) /\
  (campaign_row (db w) campaign_id = None -> db w' = db w) /\
  (forall k, k <> campaign_id ->
     campaign_row (db w') k = campaign_row (db w) k) /\
  (forall campaign,
     campaign_row (db w) campaign_id = Some campaign ->
     campaign_row (db w') campaign_id = Some campaign \/
     campaign_row (db w') campaign_id = Some (Campaign.with_status paused campaign)).
Proof.
  unfold pause_on_error. intros H.
  destruct (bind_inv H) as [(u & w1 & Ht & Hk)|(x & Ht & _)]; clear H.
  2:{ unfold try_except in Ht. destruct (bind _ _ w) as [[a|y] w2]; discriminate. }
  unfold raise in Hk. inversion Hk; subst; clear Hk. split; [reflexivity|].
  unfold try_except in Ht.
  destruct (bind (get_campaign campaign_id) _ w) as [[a|y] w2] eqn:Hm;
    inversion Ht; subst; clear Ht.
  - destruct (bind_inv Hm) as [(c & w0 & Hg & Hs)|(y & _ & Habs)]; [|discriminate].
    destruct (get_campaign_inv Hg) as [Hd0 Hrow].
    destruct (campaign_row_In Hrow) as [Hin Hid].
    destruct (save_campaign_status_inv Hs) as (Hc & Hv & He & [[_ Hca]|(y & Hy & _)]);
      [|discriminate].
    rewrite Hd0 in *.
    assert (Hrow' : campaign_row (db w) (Campaign.id c) = Some c) by (rewrite Hid; exact Hrow).
    repeat split; try assumption.
    + intros Hnone. congruence.
    + intros k Hk. rewrite (campaign_row_saved (db w) (db w') c paused k Hrow' Hca).
      destruct (Nat.eqb_spec k (Campaign.id c)); [congruence|reflexivity].
    + intros campaign Hcamp. right.
      rewrite (campaign_row_saved (db w) (db w') c paused campaign_id Hrow' Hca).
      rewrite Hid, Nat.eqb_refl. congruence.
  - assert (Hdb : db w' = db w).
    { destruct (bind_inv Hm) as [(c & w0 & Hg & Hs)|(z & Hg & _)].
      - destruct (get_campaign_inv Hg) as [Hd0 _].
        destruct (save_campaign_status_inv Hs) as (Hc & Hv & He & [[Habs _]|(z & _ & Hca)]);
          [discriminate|].
        rewrite Hd0 in *. destruct (db w'), (db w). simpl in *. congruence.
      - apply (get_campaign_inv Hg). }
    rewrite Hdb. repeat split; auto.
Qed.

Lemma pause_on_error_ok (campaign_id : pk) (e : exn) (w : World)
      (campaign : Campaign.t) :
  faults w = [] -> campaign_row (db w) campaign_id = Some campaign ->
  exists w',
    pause_on_error campaign_id e w = (Raise e, w') /\
    campaign_row (db w') campaign_id = Some (Campaign.with_status paused campaign).
Proof.
  intros Hf Hrow. destruct (campaign_row_In Hrow) as [Hin Hid].
  unfold pause_on_error, try_except.
  unfold bind at 1.
  rewrite (bind_ok _ (get_campaign_ok Hf Hrow)).
  rewrite (save_campaign_status_ok _ Hf Hin paused).
  eexists. split; [reflexivity|]. cbn [db set_db].
  rewrite (campaign_row_saved (db w) _ campaign paused campaign_id);
    [rewrite Hid, Nat.eqb_refl; reflexivity| |reflexivity].
  rewrite Hid. exact Hrow.
Qed.

Lemma run_campaign_task_inv {campaign_id : pk} {w w' : World}
      {r : result TaskReturn} :
  run_campaign_task str_format campaign_id w = (r, w') ->
  (exists ret, r = Ok ret /\ task_body str_format campaign_id w = (Ok ret, w')) \/
  (exists x, exn_class x = CampaignDoesNotExist /\
             r = Ok (ReturnNotFound campaign_id) /\
             task_body str_format campaign_id w = (Raise x, w')) \/
  (exists x w1, exn_class x <> CampaignDoesNotExist /\
                task_body str_format campaign_id w = (Raise x, w1) /\
                pause_on_error campaign_id x w1 = (r, w')).
Proof.
  unfold run_campaign_task, try_except. intros H.
  destruct (task_body str_format campaign_id w) as [[ret|x] w1] eqn:Hb.
  - inversion H; subst. left. eauto.
  - right. destruct (exn_class x) eqn:Hc.
    + left. unfold ret in H. inversion H; subst. exists x. auto.
    + right. exists x, w1. rewrite Hc. repeat split; [discriminate|exact H].
    + right. exists x, w1. rewrite Hc. repeat split; [discriminate|exact H].
    + right. exists x, w1. rewrite Hc. repeat split; [discriminate|exact H].
    + right. exists x, w1. rewrite Hc. repeat split; [discriminate|exact H].
    + right. exists x, w1. rewrite Hc. repeat split; [discriminate|exact H].
Qed.

Lemma storage_hd {w : World} :
  hd None (faults w) = None ->
  exists w0, storage w = (Ok tt, w0) /\ db w0 = db w /\
             clock w0 = clock w /\ clock_ix w0 = clock_ix w /\
             faults w0 = tl (faults w).
Proof.
  unfold storage. destruct (faults w) as [|[msg|] fs] eqn:E; simpl; intros H;
    try discriminate.
  - exists w. rewrite E. auto.
  - eexists. split; [reflexivity|]. auto.
Qed.

(** C9. When no campaign has the given id, the run fails without touching
    the database: no event is created and no campaign or customer changes.
    The error reaches the caller, as the returned [{'error': ...}] value
    when the lookup itself was answered, as the raised [DatabaseError] when
    it was not. *)
Theorem campaign_not_found (campaign_id : pk) (w : World) :
  (forall c, In c (campaigns (db w)) -> Campaign.id c <> campaign_id) ->
  exists r w',
    run_campaign_task str_format campaign_id w = (r, w') /\
    db w' = db w /\
    match faults w with
    | Some msg :: _ => r = Raise (mkExn DatabaseError msg)
    | _ => r = Ok (ReturnNotFound campaign_id)
    end.
Proof.
  intros Hno.
  assert (Hfil : filter (fun c => Campaign.id c =? campaign_id)%nat
                        (campaigns (db w)) = []).
  { destruct (filter _ _) as [|c rest] eqn:E; [reflexivity|].
    assert (Hin : In c (filter (fun c => Campaign.id c =? campaign_id)%nat
                               (campaigns (db w)))) by (rewrite E; left; reflexivity).
    apply filter_In in Hin. destruct Hin as [Hin Hid]. apply Nat.eqb_eq in Hid.
    exfalso. eapply Hno; eassumption. }
  assert (Hrow : campaign_row (db w) campaign_id = None)
    by (unfold campaign_row; rewrite Hfil; reflexivity).
  destruct (run_campaign_task str_format campaign_id w) as [r w'] eqn:Hrun.
  exists r, w'. split; [reflexivity|].
  assert (Hbody : forall r0 w0, task_body str_format campaign_id w = (r0, w0) ->
            db w0 = db w /\
            match faults w with
            | Some msg :: _ => r0 = Raise (mkExn DatabaseError msg)
            | _ => r0 = Raise (mkExn CampaignDoesNotExist
                                     "matching query does not exist.")
            end).
  { intros r0 w0. unfold task_body, get_campaign, bind, storage, get_db.
    destruct (faults w) as [|[msg|] fs]; cbn [db]; try rewrite Hfil;
      unfold get_one, raise; intros E; inversion E; subst; auto. }
  destruct (run_campaign_task_inv Hrun) as [(ret & -> & Hb)|[(x & Hc & -> & Hb)|(x & w1 & Hc & Hb & Hp)]].
  - destruct (Hbody _ _ Hb) as [_ Habs]. destruct (faults w) as [|[msg|] fs]; discriminate.
  - destruct (Hbody _ _ Hb) as [Hd Hr]. split; [assumption|].
    destruct (faults w) as [|[msg|] fs]; try reflexivity.
    injection Hr as ->. discriminate.
  - destruct (Hbody _ _ Hb) as [Hd Hr].
    destruct (pause_on_error_inv Hp) as (-> & _ & _ & _ & Hsame & _).
    rewrite Hd in Hsame. split; [exact (Hsame Hrow)|].
    destruct (faults w) as [|[msg|] fs]; try (injection Hr as ->; exfalso; apply Hc; reflexivity).
    congruence.
Qed.

Lemma get_campaign_hd {w : World} {k : pk} {c : Campaign.t} :
  hd None (faults w) = None -> campaign_row (db w) k = Some c ->
  exists w0, get_campaign k w = (Ok c, w0) /\ db w0 = db w /\
             clock w0 = clock w /\ clock_ix w0 = clock_ix w /\
             faults w0 = tl (faults w).
Proof.
  intros Hf Hrow. destruct (storage_hd Hf) as (w0 & Hs & Hd0 & Hrest).
  exists w0. unfold get_campaign. rewrite (bind_ok _ Hs).
  unfold bind, get_db. rewrite Hd0. unfold campaign_row in Hrow.
  destruct (filter (fun c0 => Campaign.id c0 =? k)%nat (campaigns (db w)))
    as [|c0 [|c1 rest]]; try discriminate.
  injection Hrow as ->. auto.
Qed.

(** C3. A campaign whose [segment_type] is neither ['inactive_days'] nor
    ['high_spenders'] makes the run return at once: the database is left as
    it was, so no event is created and the campaign keeps its status. *)
Theorem unknown_segment_type (campaign_id : pk) (w : World) (campaign : Campaign.t) :
  hd None (faults w) = None ->
  campaign_row (db w) campaign_id = Some campaign ->
  Campaign.segment_type campaign <> "inactive_days"%string ->
  Campaign.segment_type campaign <> "high_spenders"%string ->
  exists w',
    run_campaign_task str_format campaign_id w = (Ok ReturnNone, w') /\
    db w' = db w /\
    events (db w') = events (db w) /\
    campaign_row (db w') campaign_id = Some campaign.
Proof.
  intros Hf Hrow Hn1 Hn2.
  destruct (get_campaign_hd Hf Hrow) as (w0 & Hg & Hd0 & _).
  apply String.eqb_neq in Hn1, Hn2.
  exists w0. unfold run_campaign_task, try_except, task_body.
  rewrite (bind_ok _ Hg).
  unfold apply_segmentation. rewrite Hn1, Hn2.
  unfold bind, ret. split; [reflexivity|].
  split; [assumption|]. split; [congruence|].
  rewrite Hd0. assumption.
Qed.

(** C5. A run that loads its campaign and resolves the campaign's segment
    ends with the campaign [completed]: when storage works it always gets
    there, whatever the rendering and the sends do to the individual events
    and however many customers the segment has; and whenever such a run
    returns at all, it returns the summary and the campaign is [completed]. *)
Theorem campaign_completed_after_run
        (campaign_id : pk) (w : World) (campaign : Campaign.t) (qs : QuerySet) :
  campaign_row (db w) campaign_id = Some campaign ->
  selected_by campaign w = Some qs ->
  (faults w = [] -> events_ok (events (db w)) ->
   exists t w' row,
     run_campaign_task str_format campaign_id w
     = (Ok (ReturnSummary campaign_id t), w') /\
     campaign_row (db w') campaign_id = Some row /\
     Campaign.status row = completed /\
     row = Campaign.with_status completed campaign) /\
  (forall out w',
     run_campaign_task str_format campaign_id w = (Ok out, w') ->
     (exists t, out = ReturnSummary campaign_id t) /\
     exists row,
       campaign_row (db w') campaign_id = Some row /\
       Campaign.status row = completed /\
       row = Campaign.with_status completed campaign).
Proof.
  intros Hrow Hsel. split.
  - intros Hf Hok.
    destruct (run_campaign_task_ok campaign_id w campaign qs Hf Hok Hrow Hsel)
      as (t & w' & Hrun & _ & Hdone & _).
    exists t, w', (Campaign.with_status completed campaign).
    split; [assumption|]. split; [assumption|]. split; reflexivity.
  - intros out w' Hrun.
    cut ((exists t, out = ReturnSummary campaign_id t) /\
         campaign_row (db w') campaign_id
         = Some (Campaign.with_status completed campaign)).
    { intros [Ht Hdone]. split; [assumption|].
      exists (Campaign.with_status completed campaign).
      split; [assumption|]. split; reflexivity. }
    assert (Hloop : forall r, task_body str_format campaign_id w = (r, w') ->
              match r with
              | Ok out' =>
                  (exists t, out' = ReturnSummary campaign_id t) /\
                  campaign_row (db w') campaign_id
                  = Some (Campaign.with_status completed campaign)
              | Raise x => exn_class x <> CampaignDoesNotExist
              end).
    { intros r Hb.
      destruct (task_body_inv Hb)
        as [[_ Hearly]|(c & qs' & w3 & rl & w4 & Hc & Hq & Hd3 & Hl & Hfin)].
      - destruct r as [out'|x].
        + destruct Hearly as (_ & c & Hc & Hnone). congruence.
        + intros Hx. specialize (Hearly Hx). congruence.
      - assert (c = campaign) by congruence. subst c.
        destruct rl as [t|x].
        + destruct (for_batches_inv _ _ _ _ Hl) as ((_ & _ & Hca) & _).
          destruct (finish_inv Hfin) as (_ & _ & [->|(x & -> & Hx)]).
          * split; [eauto|].
            unfold finish in Hfin.
            destruct (bind_inv Hfin) as [(u & w5 & Hs & Hk)|(y & _ & Habs)];
              [|discriminate].
            unfold ret in Hk. inversion Hk; subst.
            destruct (save_campaign_status_inv Hs) as (_ & _ & _ & [[_ Hsave]|(y & Hy & _)]);
              [|discriminate].
            destruct (campaign_row_In Hrow) as [_ Hid].
            rewrite (campaign_row_saved (db w4) (db w') campaign completed campaign_id);
              [rewrite Hid, Nat.eqb_refl; reflexivity| |exact Hsave].
            rewrite Hid, (campaign_row_ext (db w) (db w4)); [exact Hrow|congruence].
          * rewrite Hx. discriminate.
        + destruct Hfin as [-> _]. eapply finds_for_batches. exact Hl. }
    destruct (run_campaign_task_inv Hrun)
      as [(out' & E & Hb)|[(x & Hc & _ & Hb)|(x & w1 & _ & _ & Hp)]].
    + injection E as <-. apply (Hloop _ Hb).
    + exfalso. apply (Hloop _ Hb). assumption.
    + destruct (pause_on_error_inv Hp) as (Habs & _). discriminate.
Qed.

(** C6. When an error other than [Campaign.DoesNotExist] leaves the body of
    the run, the run raises that same error to its caller, whatever happens
    to the attempt to store the [paused] status; only the campaign's status
    can change in the handler, and it is [paused] when storage answers. *)
Theorem run_level_error_pauses
        (campaign_id : pk) (w w1 : World) (e : exn) :
  task_body str_format campaign_id w = (Raise e, w1) ->
  exn_class e <> CampaignDoesNotExist ->
  exists w2,
    run_campaign_task str_format campaign_id w = (Raise e, w2) /\
    customers (db w2) = customers (db w1) /\
    visits (db w2) = visits (db w1) /\
    events (db w2) = events (db w1) /\
    (forall k, k <> campaign_id ->
       campaign_row (db w2) k = campaign_row (db w1) k) /\
    (forall campaign,
       campaign_row (db w1) campaign_id = Some campaign ->
       (campaign_row (db w2) campaign_id = Some campaign \/
        exists row,
          campaign_row (db w2) campaign_id = Some row /\
          Campaign.status row = paused /\
          row = Campaign.with_status paused campaign) /\
       (faults w1 = [] ->
        exists row,
          campaign_row (db w2) campaign_id = Some row /\
          Campaign.status row = paused /\
          row = Campaign.with_status paused campaign)).
Proof.
  intros Hb Hc.
  destruct (pause_on_error campaign_id e w1) as [r w2] eqn:Hp.
  destruct (pause_on_error_inv Hp) as (-> & Hcu & Hv & He & _ & Hk & Hst).
  exists w2. split.
  - unfold run_campaign_task, try_except. rewrite Hb.
    destruct (exn_class e); try exact Hp. exfalso. apply Hc. reflexivity.
  - split; [assumption|]. split; [assumption|]. split; [assumption|].
    split; [assumption|]. intros campaign Hrow1. split.
    + destruct (Hst campaign Hrow1) as [H|H]; [left; assumption|right].
      exists (Campaign.with_status paused campaign).
      split; [assumption|]. split; reflexivity.
    + intros Hf. destruct (pause_on_error_ok campaign_id e w1 campaign Hf Hrow1)
        as (w2' & Hp' & Hrow'). rewrite Hp in Hp'. injection Hp' as <-.
      exists (Campaign.with_status paused campaign).
      split; [assumption|]. split; reflexivity.
Qed.

(** C4. When the template fails to render for a customer whose event is not
    yet [sent] or [skipped], the failure stays with that event: the event is
    stored as [failed] with the error text, both [total_failed] and
    [total_processed] grow by one, and the loop goes on with the next
    customer; with storage working, neither the batch nor the sequence of
    batches is ever cut short. *)
Theorem render_failure_is_per_event
        (campaign : Campaign.t) (customer : Customer.t) (t : Totals)
        (w : World) (x : exn) :
  faults w = [] -> events_ok (events (db w)) ->
  str_format (Campaign.message_template campaign) (Customer.first_name customer)
  = Raise x ->
  (forall e, In e (events (db w)) ->
     event_key e = (Campaign.id campaign, Customer.id customer) ->
     terminal (OutreachEvent.status e) = false) ->
  exists w' e',
    process_customer str_format campaign customer t w
    = (Ok (mkTotals (S (total_processed t)) (total_sent t) (S (total_failed t))), w') /\
    filter (event_for (Campaign.id campaign) (Customer.id customer))
           (events (db w')) = [e'] /\
    OutreachEvent.status e' = failed /\
    OutreachEvent.error_message e' = Some (exn_str x) /\
    (forall rest,
       for_customers str_format campaign (customer :: rest) t w
       = for_customers str_format campaign rest
           (mkTotals (S (total_processed t)) (total_sent t) (S (total_failed t))) w') /\
    (forall rest, exists t'' w'',
       for_customers str_format campaign (customer :: rest) t w = (Ok t'', w'')) /\
    (forall customer_ids starts, exists t'' w'',
       for_batches str_format campaign customer_ids starts t w = (Ok t'', w'')).
Proof.
  intros Hf Hok Hrender Hpending.
  destruct (process_customer_ok campaign customer t w Hf Hok)
    as (t' & w' & Hrun & Hf' & _ & _ & Hcase).
  destruct Hcase as [(e & Hfil & Hterm & _)|(e0 & e' & _ & Hfil' & _ & Hout)].
  - exfalso.
    assert (Hin : In e (filter (event_for (Campaign.id campaign) (Customer.id customer))
                               (events (db w)))) by (rewrite Hfil; left; reflexivity).
    apply filter_In in Hin. destruct Hin as [Hin Hkey]. apply event_for_key in Hkey.
    rewrite (Hpending e Hin Hkey) in Hterm. discriminate.
  - unfold attempt_outcome in Hout. rewrite Hrender in Hout.
    destruct Hout as (-> & Hst & Herr & _).
    exists w', e'. split; [exact Hrun|]. split; [assumption|].
    split; [assumption|]. split; [assumption|]. split; [|split].
    + intros rest. simpl. rewrite (bind_ok _ Hrun). reflexivity.
    + intros rest.
      destruct (for_customers_ok campaign (customer :: rest) t w Hf Hok)
        as (t'' & w'' & H & _). eauto.
    + intros customer_ids starts.
      destruct (for_batches_ok campaign customer_ids starts t w Hf Hok)
        as (t'' & w'' & H & _). eauto.
Qed.

(** *** The loop and the campaign table *)

Lemma ignores_ret {A} (a : A) : ignores_campaigns (ret a).
Proof. intros cs w. reflexivity. Qed.

Lemma ignores_raise {A} (e : exn) : ignores_campaigns (@raise A e).
Proof. intros cs w. reflexivity. Qed.

Lemma ignores_bind {A B} (m : M A) (k : A -> M B) :
  ignores_campaigns m -> (forall a, ignores_campaigns (k a)) ->
  ignores_campaigns (bind m k).
Proof.
  intros Hm Hk cs w. unfold bind. rewrite Hm.
  destruct (m w) as [[a|e] w1]; simpl; [apply Hk|reflexivity].
Qed.

Lemma ignores_try {A} (m : M A) (h : exn -> M A) :
  ignores_campaigns m -> (forall e, ignores_campaigns (h e)) ->
  ignores_campaigns (try_except m h).
Proof.
  intros Hm Hh cs w. unfold try_except. rewrite Hm.
  destruct (m w) as [[a|e] w1]; simpl; [reflexivity|apply Hh].
Qed.

Lemma ignores_save_event (fields : list OutreachEvent.field) (ev : OutreachEvent.t) :
  ignores_campaigns (save_event fields ev).
Proof.
  intros cs [d c ci r ri f o].
  unfold save_event, bind, storage, get_db, put_db, raise, with_campaigns, set_db.
  destruct f as [|[msg|] fs];
    cbn [db faults customers visits campaigns events clock clock_ix rand rand_ix
         outbox fst snd];
    try reflexivity;
    destruct (existsb _ (events d)); reflexivity.
Qed.

Lemma ignores_get_or_create (campaign : Campaign.t) (customer : Customer.t) :
  ignores_campaigns (get_or_create_event campaign customer).
Proof.
  intros cs [d c ci r ri f o].
  unfold get_or_create_event, bind, storage, get_db, put_db, raise, ret,
    with_campaigns, set_db.
  destruct f as [|[msg|] fs];
    cbn [db faults customers visits campaigns events clock clock_ix rand rand_ix
         outbox fst snd];
    try reflexivity;
    destruct (filter _ (events d)) as [|e [|e2 rest]]; reflexivity.
Qed.

Lemma ignores_customers_id_in (batch_ids : list pk) :
  ignores_campaigns (customers_id_in batch_ids).
Proof.
  intros cs [d c ci r ri f o].
  unfold customers_id_in, bind, storage, get_db, ret, with_campaigns, set_db.
  destruct f as [|[msg|] fs]; reflexivity.
Qed.

Lemma ignores_event_failed (event : OutreachEvent.t) (t : Totals) (e : exn) :
  ignores_campaigns (event_failed event t e).
Proof.
  unfold event_failed. apply ignores_bind; [apply ignores_save_event|].
  intros _. apply ignores_ret.
Qed.

Lemma ignores_process_customer (campaign : Campaign.t) (customer : Customer.t)
      (t : Totals) :
  ignores_campaigns (process_customer str_format campaign customer t).
Proof.
  unfold process_customer. apply ignores_bind; [apply ignores_get_or_create|].
  intros [event b]. destruct (terminal (OutreachEvent.status event)); [apply ignores_ret|].
  unfold process_event.
  destruct (str_format _ _); [|apply ignores_event_failed].
  apply ignores_bind; [intros cs w; reflexivity|]. intros _.
  apply ignores_bind; [intros cs w; reflexivity|]. intros success.
  apply ignores_bind.
  - destruct success; intros cs w; reflexivity.
  - intros [ev t']. apply ignores_try.
    + apply ignores_bind; [apply ignores_save_event|]. intros _. apply ignores_ret.
    + intros e. apply ignores_event_failed.
Qed.

Lemma ignores_for_customers (campaign : Campaign.t) (batch : list Customer.t) :
  forall t, ignores_campaigns (for_customers str_format campaign batch t).
Proof.
  induction batch as [|c rest IH]; intros t; simpl.
  - apply ignores_ret.
  - apply ignores_bind; [apply ignores_process_customer|]. intros t'. apply IH.
Qed.

Lemma ignores_for_batches (campaign : Campaign.t) (customer_ids : list pk)
      (starts : list nat) :
  forall t, ignores_campaigns (for_batches str_format campaign customer_ids starts t).
Proof.
  induction starts as [|i rest IH]; intros t; simpl.
  - apply ignores_ret.
  - apply ignores_bind; [apply ignores_customers_id_in|].
    intros cs. apply ignores_bind; [apply ignores_for_customers|]. intros t'. apply IH.
Qed.

Lemma bind_assoc {A B C} (m : M A) (k : A -> M B) (h : B -> M C) (w : World) :
  bind (bind m k) h w = bind m (fun a => bind (k a) h) w.
Proof. unfold bind. destruct (m w) as [[a|e] w1]; reflexivity. Qed.

Lemma bind_ext {A B} (m : M A) (k k' : A -> M B) (w : World) :
  (forall a w1, k a w1 = k' a w1) -> bind m k w = bind m k' w.
Proof. intros H. unfold bind. destruct (m w) as [[a|e] w1]; [apply H|reflexivity]. Qed.

Lemma for_batches_app (campaign : Campaign.t) (customer_ids : list pk)
      (done rest : list nat) :
  forall t w,
    for_batches str_format campaign customer_ids (done ++ rest) t w
    = bind (for_batches str_format campaign customer_ids done t)
           (for_batches str_format campaign customer_ids rest) w.
Proof.
  induction done as [|i done IH]; intros t w; simpl.
  - reflexivity.
  - rewrite bind_assoc. apply bind_ext. intros cs w1.
    rewrite bind_assoc. apply bind_ext. intros t1 w2. apply IH.
Qed.

Lemma campaign_row_updated (d d' : DB) (c row : Campaign.t) :
  campaign_row d (Campaign.id c) = Some row ->
  campaigns d' = map (update_campaign_status c) (campaigns d) ->
  campaign_row d' (Campaign.id c)
  = Some (Campaign.with_status (Campaign.status c) row).
Proof.
  intros Hrow Hd'. unfold campaign_row in *. rewrite Hd', filter_update_campaign.
  destruct (filter _ (campaigns d)) as [|c0 [|c1 rest]] eqn:Hfil; try discriminate.
  injection Hrow as ->. simpl. unfold update_campaign_status.
  assert (Hin : In row (filter (fun r => Campaign.id r =? Campaign.id c)%nat (campaigns d)))
    by (rewrite Hfil; left; reflexivity).
  apply filter_In in Hin. destruct Hin as [_ Hid]. rewrite Hid. reflexivity.
Qed.

Lemma save_campaign_status_hd {w : World} (c row : Campaign.t) :
  hd None (faults w) = None ->
  In row (campaigns (db w)) -> Campaign.id row = Campaign.id c ->
  exists w',
    save_campaign_status c w = (Ok tt, w') /\
    campaigns (db w') = map (update_campaign_status c) (campaigns (db w)) /\
    customers (db w') = customers (db w) /\ events (db w') = events (db w) /\
    faults w' = tl (faults w).
Proof.
  intros Hf Hin Hid. destruct (storage_hd Hf) as (w0 & Hs & Hd0 & _ & _ & Hf0).
  unfold save_campaign_status. rewrite (bind_ok _ Hs). unfold bind, get_db.
  assert (Hex : existsb (fun r => (Campaign.id r =? Campaign.id c)%nat)
                        (campaigns (db w0)) = true).
  { rewrite Hd0. apply existsb_exists. exists row. split; [assumption|].
    apply Nat.eqb_eq. assumption. }
  rewrite Hex. unfold put_db. eexists. split; [reflexivity|].
  cbn [db set_db campaigns customers events faults]. rewrite Hd0. auto.
Qed.

(** C8, as the code has it.  Once the campaign is loaded the run never looks
    at the campaign table again until it stores the final status: whatever
    is written to that table at a batch boundary (a pause request included),
    the remaining batches are processed exactly as they would have been, and
    the final save then turns the status into [completed], a [paused] set in
    the meantime included. *)
Theorem pause_is_not_observed
        (campaign : Campaign.t) (campaign_id : pk) (customer_ids : list pk)
        (done rest : list nat) (t : Totals) (w : World) :
  (for_batches str_format campaign customer_ids (done ++ rest) t w
   = bind (for_batches str_format campaign customer_ids done t)
          (for_batches str_format campaign customer_ids rest) w) /\
  (forall (table : list Campaign.t) (t1 : Totals) (w1 : World),
     for_batches str_format campaign customer_ids rest t1 (with_campaigns table w1)
     = (fst (for_batches str_format campaign customer_ids rest t1 w1),
        with_campaigns table
          (snd (for_batches str_format campaign customer_ids rest t1 w1)))) /\
  (forall (row : Campaign.t) (t2 : Totals) (w2 : World),
     hd None (faults w2) = None ->
     campaign_row (db w2) (Campaign.id campaign) = Some row ->
     exists w3 row3,
       finish campaign campaign_id t2 w2 = (Ok (ReturnSummary campaign_id t2), w3) /\
       campaign_row (db w3) (Campaign.id campaign) = Some row3 /\
       Campaign.status row3 = completed /\
       row3 = Campaign.with_status completed row).
Proof.
  split; [apply for_batches_app|]. split.
  - intros table t1 w1. apply ignores_for_batches.
  - intros row t2 w2 Hf Hrow.
    destruct (campaign_row_In Hrow) as [Hin Hid].
    destruct (save_campaign_status_hd (Campaign.with_status completed campaign)
                                      row Hf Hin Hid)
      as (w3 & Hs & Hca & _).
    exists w3, (Campaign.with_status completed row).
    unfold finish. rewrite (bind_ok _ Hs). split; [reflexivity|].
    split; [|split; reflexivity].
    apply (campaign_row_updated (db w2) _ (Campaign.with_status completed campaign) row);
      assumption.
Qed.

(** *** What a run does to the event table *)

Lemma run_campaign_task_events {campaign_id : pk} {w w' : World}
      {r : result TaskReturn} :
  run_campaign_task str_format campaign_id w = (r, w') ->
  customers (db w') = customers (db w) /\
  visits (db w') = visits (db w) /\
  ((events (db w') = events (db w) /\
    (forall out, r = Ok out -> segment_of_run campaign_id w = None)) \/
   exists campaign qs,
     campaign_row (db w) campaign_id = Some campaign /\
     selected_by campaign w = Some qs /\
     evolves campaign_id
             (fun k => exists c, In c (customers (db w)) /\ qs c = true /\
                                 Customer.id c = k)
             (events (db w)) (events (db w')) /\
     (forall out, r = Ok out ->
        forall c, In c (customers (db w)) -> qs c = true ->
          In (campaign_id, Customer.id c) (map event_key (events (db w'))))).
Proof.
  intros Hrun.
  assert (Hbody : forall rb wb,
            task_body str_format campaign_id w = (rb, wb) ->
            customers (db wb) = customers (db w) /\
            visits (db wb) = visits (db w) /\
            ((events (db wb) = events (db w) /\
              match rb with
              | Ok _ => segment_of_run campaign_id w = None
              | Raise x => exn_class x = CampaignDoesNotExist ->
                           segment_of_run campaign_id w = None
              end) \/
             exists campaign qs,
               campaign_row (db w) campaign_id = Some campaign /\
               selected_by campaign w = Some qs /\
               evolves campaign_id
                       (fun k => exists c, In c (customers (db w)) /\ qs c = true /\
                                           Customer.id c = k)
                       (events (db w)) (events (db wb)) /\
               match rb with
               | Ok _ =>
                   forall c, In c (customers (db w)) -> qs c = true ->
                     In (campaign_id, Customer.id c) (map event_key (events (db wb)))
               | Raise x => exn_class x <> CampaignDoesNotExist
               end)).
  { intros rb wb Hb.
    destruct (task_body_inv Hb)
      as [[Hd Hearly]|(campaign & qs & w3 & rl & w4 & Hrow & Hsel & Hd3 & Hl & Hfin)].
    { rewrite Hd. split; [reflexivity|]. split; [reflexivity|]. left.
      split; [reflexivity|]. unfold segment_of_run. destruct rb as [out|x].
      - destruct Hearly as (_ & c & -> & Hnone). assumption.
      - intros Hx. rewrite (Hearly Hx). reflexivity. }
    destruct (campaign_row_In Hrow) as [_ Hid].
    destruct (for_batches_inv _ _ _ _ Hl) as ((Hcu & Hvi & _) & Hev & Hkeys).
    rewrite Hd3 in Hcu, Hvi, Hev, Hkeys. rewrite Hid in Hev, Hkeys.
    assert (Hev' : evolves campaign_id
                     (fun k => exists c, In c (customers (db w)) /\ qs c = true /\
                                         Customer.id c = k)
                     (events (db w)) (events (db w4))).
    { eapply evolves_weaken; [|exact Hev]. intros k [Hin _].
      apply in_map_iff in Hin. destruct Hin as (c & Hc & Hin).
      apply filter_In in Hin. destruct Hin as [Hin Hq]. eauto. }
    destruct rl as [t|x].
    - destruct (finish_inv Hfin) as (Hcu' & He' & Hr).
      assert (Hvi' : visits (db wb) = visits (db w4)).
      { unfold finish in Hfin.
        destruct (bind_inv Hfin) as [(u & w5 & Hs & Hk)|(y & Hs & _)].
        - unfold ret in Hk. inversion Hk; subst.
          apply (save_campaign_status_inv Hs).
        - apply (save_campaign_status_inv Hs). }
      split; [congruence|]. split; [congruence|]. right.
      exists campaign, qs. rewrite He'. split; [assumption|]. split; [assumption|].
      split; [assumption|].
      destruct Hr as [->|(x & -> & Hx)]; [|rewrite Hx; discriminate].
      intros c Hin Hq.
      assert (Hidc : In (Customer.id c)
                        (map Customer.id (filter qs (customers (db w))))).
      { apply in_map. apply filter_In. auto. }
      destruct (slices_cover _ _ Hidc) as (i & Hi & Hsl).
      eapply (Hkeys t eq_refl); eassumption.
    - destruct Hfin as [-> ->].
      split; [assumption|]. split; [assumption|]. right.
      exists campaign, qs. split; [assumption|]. split; [assumption|].
      split; [assumption|]. eapply finds_for_batches. exact Hl. }
  destruct (run_campaign_task_inv Hrun)
    as [(out & -> & Hb)|[(x & Hc & -> & Hb)|(x & w1 & Hc & Hb & Hp)]].
  - destruct (Hbody _ _ Hb) as (Hcu & Hvi & [[He Hs]|(campaign & qs & Hrow & Hsel & Hev & Hk)]).
    + split; [assumption|]. split; [assumption|]. left. split; [assumption|].
      intros out' _. exact Hs.
    + split; [assumption|]. split; [assumption|]. right.
      exists campaign, qs. repeat split; try assumption. intros out' _. exact Hk.
  - destruct (Hbody _ _ Hb) as (Hcu & Hvi & [[He Hs]|(campaign & qs & _ & _ & _ & Hk)]).
    + split; [assumption|]. split; [assumption|]. left. split; [assumption|].
      intros out' _. exact (Hs Hc).
    + exfalso. apply Hk. assumption.
  - destruct (Hbody _ _ Hb) as (Hcu & Hvi & Hev).
    destruct (pause_on_error_inv Hp) as (-> & Hcu' & Hvi' & He' & _).
    split; [congruence|]. split; [congruence|]. rewrite He'.
    destruct Hev as [[He _]|(campaign & qs & Hrow & Hsel & Hev & _)].
    + left. split; [assumption|discriminate].
    + right. exists campaign, qs. repeat split; try assumption. discriminate.
Qed.

Lemma run_campaign_task_evolves {campaign_id : pk} {w w' : World}
      {r : result TaskReturn} :
  run_campaign_task str_format campaign_id w = (r, w') ->
  evolves campaign_id (fun _ => True) (events (db w)) (events (db w')).
Proof.
  intros Hrun.
  destruct (run_campaign_task_events Hrun)
    as (_ & _ & [[-> _]|(campaign & qs & _ & _ & Hev & _)]).
  - constructor.
  - eapply evolves_weaken; [|exact Hev]. auto.
Qed.

(** When every customer the second run selects was selected by the first,
    the second run adds no row. *)
Lemma rerun_adds_no_row (campaign_id : pk) (w w1 w2 : World)
      (out : TaskReturn) (r2 : result TaskReturn) :
  run_campaign_task str_format campaign_id w = (Ok out, w1) ->
  run_campaign_task str_format campaign_id w1 = (r2, w2) ->
  (forall qs2, segment_of_run campaign_id w1 = Some qs2 ->
     exists qs1, segment_of_run campaign_id w = Some qs1 /\
                 forall c, In c (customers (db w)) -> qs2 c = true -> qs1 c = true) ->
  map event_key (events (db w2)) = map event_key (events (db w1)).
Proof.
  intros H1 H2 Hincl.
  destruct (run_campaign_task_events H2)
    as (_ & _ & [[-> _]|(c2 & qs2 & Hrow2 & Hsel2 & Hev2 & _)]); [reflexivity|].
  assert (Hseg2 : segment_of_run campaign_id w1 = Some qs2)
    by (unfold segment_of_run; rewrite Hrow2; exact Hsel2).
  destruct (Hincl qs2 Hseg2) as (qs1 & Hseg1 & Hsub).
  destruct (run_campaign_task_events H1)
    as (Hcu & _ & [[_ Hnone]|(c1 & qs1' & Hrow1 & Hsel1 & _ & Hkeys)]).
  - rewrite (Hnone out eq_refl) in Hseg1. discriminate.
  - assert (qs1' = qs1).
    { unfold segment_of_run in Hseg1. rewrite Hrow1 in Hseg1. congruence. }
    subst qs1'.
    apply (proj2 (evolves_keys Hev2)).
    intros k (c & Hin & Hq & <-). rewrite Hcu in Hin.
    apply (Hkeys out eq_refl c Hin). apply Hsub; assumption.
Qed.

(** *** Events that are not yet [sent] or [skipped] are attempted *)

Lemma process_customer_facts (campaign : Campaign.t) (customer : Customer.t)
      (t : Totals) (w : World) :
  faults w = [] -> events_ok (events (db w)) ->
  exists t' w',
    process_customer str_format campaign customer t w = (Ok t', w') /\
    faults w' = [] /\ events_ok (events (db w')) /\
    customers (db w') = customers (db w) /\
    (exists pre, outbox w' = pre ++ outbox w) /\
    evolves (Campaign.id campaign) (eq (Customer.id customer))
            (events (db w)) (events (db w')).
Proof.
  intros Hf Hok.
  destruct (process_customer_ok campaign customer t w Hf Hok)
    as (t' & w' & Hrun & Hf' & _ & _ & Hcase).
  destruct (process_customer_inv Hrun) as ((Hcu & _) & Hev & _).
  exists t', w'. split; [assumption|]. split; [assumption|].
  split; [apply (evolves_ok Hev Hok)|]. split; [assumption|]. split; [|assumption].
  destruct Hcase as [(e & _ & _ & _ & ->)|(e0 & e' & _ & _ & _ & Hout)].
  - exists []. reflexivity.
  - unfold attempt_outcome in Hout.
    destruct (str_format _ _) as [message|x].
    + destruct Hout as (Hob & _). eexists [_]. exact Hob.
    + destruct Hout as (_ & _ & _ & Hob & _). exists []. exact Hob.
Qed.

Lemma attempt_step (campaign : Campaign.t) (customer : Customer.t)
      (t : Totals) (w : World) (e : OutreachEvent.t) :
  faults w = [] -> events_ok (events (db w)) ->
  In e (events (db w)) ->
  event_key e = (Campaign.id campaign, Customer.id customer) ->
  terminal (OutreachEvent.status e) = false ->
  forall t' w',
    process_customer str_format campaign customer t w = (Ok t', w') ->
    attempted (str_format (Campaign.message_template campaign)
                          (Customer.first_name customer))
              customer (outbox w) e w'.
Proof.
  intros Hf Hok Hin Hkey Hterm t' w' Hrun.
  pose proof (filter_key_In _ _ (proj2 Hok) Hin Hkey) as Hfil.
  destruct (process_customer_ok campaign customer t w Hf Hok)
    as (t1 & w1 & Hrun1 & _ & _ & _ & Hcase).
  rewrite Hrun in Hrun1. injection Hrun1 as <- <-.
  destruct Hcase as [(e1 & Hfil1 & Hterm1 & _)|(e0 & e' & Hprior & Hfil' & Hid & Hout)].
  - rewrite Hfil in Hfil1. injection Hfil1 as <-. congruence.
  - assert (e0 = e).
    { destruct Hprior as [[Hfil0 _]|[Hnil _]]; rewrite Hfil in *; [congruence|discriminate]. }
    subst e0.
    assert (Hin' : In e' (filter (event_for (Campaign.id campaign) (Customer.id customer))
                                 (events (db w')))) by (rewrite Hfil'; left; reflexivity).
    apply filter_In in Hin'. destruct Hin' as [Hin' Hkey'].
    apply event_for_key in Hkey'.
    exists e'. split; [assumption|]. split; [assumption|]. split; [congruence|].
    unfold attempt_outcome in Hout.
    destruct (str_format _ _) as [message|x].
    + destruct Hout as (Hob & _ & Hres). split.
      * destruct (rand w (rand_ix w)).
        -- left. apply Hres.
        -- right. apply Hres.
      * eexists [_]. split; [exact Hob|]. left. reflexivity.
    + destruct Hout as (_ & Hst & Herr & _). auto.
Qed.

Lemma attempted_base (rendered : result string) (customer : Customer.t)
      (pre ob : list (string * string)) (e : OutreachEvent.t) (w' : World) :
  attempted rendered customer (pre ++ ob) e w' -> attempted rendered customer ob e w'.
Proof.
  intros (e' & Hin & Hid & Hkey & Hst & Hr).
  exists e'. repeat split; try assumption.
  destruct rendered as [message|x]; [|assumption].
  destruct Hr as (pre' & Hob & Hp). exists (pre' ++ pre).
  rewrite <- app_assoc. split; [assumption|]. apply in_or_app. auto.
Qed.

Lemma attempted_step (campaign : Campaign.t) (customer c2 : Customer.t)
      (ob : list (string * string)) (e : OutreachEvent.t)
      (t t' : Totals) (w w' : World) :
  event_key e = (Campaign.id campaign, Customer.id customer) ->
  (Customer.id c2 = Customer.id customer -> c2 = customer) ->
  faults w = [] -> events_ok (events (db w)) ->
  process_customer str_format campaign c2 t w = (Ok t', w') ->
  attempted (str_format (Campaign.message_template campaign)
                        (Customer.first_name customer)) customer ob e w ->
  attempted (str_format (Campaign.message_template campaign)
                        (Customer.first_name customer)) customer ob e w'.
Proof.
  intros Hkey Hsame Hf Hok Hrun (e' & Hin & Hid & Hkey' & Hst & Hr).
  destruct (process_customer_facts campaign c2 t w Hf Hok)
    as (t1 & w1 & Hrun1 & _ & _ & _ & (pre1 & Hob1) & Hev).
  rewrite Hrun in Hrun1. injection Hrun1 as <- <-.
  assert (Hgrow : forall message,
             (exists pre, outbox w = pre ++ ob /\
                          In (Customer.email customer, substring 0 50 message) pre) ->
             exists pre, outbox w' = pre ++ ob /\
                         In (Customer.email customer, substring 0 50 message) pre).
  { intros message (pre & Hob & Hp). exists (pre1 ++ pre).
    rewrite Hob1, Hob, app_assoc. split; [reflexivity|]. apply in_or_app. auto. }
  destruct (Nat.eq_dec (Customer.id c2) (Customer.id customer)) as [Heq|Hne].
  - specialize (Hsame Heq). subst c2.
    destruct (terminal (OutreachEvent.status e')) eqn:Hterm.
    + (* already sent: the turn leaves the row alone *)
      exists e'. split.
      * apply (evolves_keeps Hev Hok Hin). left. assumption.
      * repeat split; try assumption.
        destruct (str_format _ _) as [message|x]; [apply Hgrow; assumption|assumption].
    + (* failed: attempted once more *)
      assert (Hkey2 : event_key e' = (Campaign.id campaign, Customer.id customer))
        by congruence.
      pose proof (attempt_step campaign customer t w e' Hf Hok Hin Hkey2 Hterm _ _ Hrun)
        as (e2 & Hin2 & Hid2 & Hkey3 & Hst2 & Hr2).
      exists e2. split; [assumption|]. split; [congruence|]. split; [congruence|].
      split; [assumption|].
      destruct (str_format _ _) as [message|x]; [|assumption].
      destruct Hr2 as (pre2 & Hob2 & Hp2).
      destruct Hr as (pre & Hob & _).
      exists (pre2 ++ pre). rewrite Hob2, Hob, app_assoc.
      split; [reflexivity|]. apply in_or_app. auto.
  - exists e'. split.
    + apply (evolves_keeps Hev Hok Hin). right. right.
      intros Hc. apply Hne. rewrite Hc.
      unfold event_key in Hkey', Hkey. congruence.
    + repeat split; try assumption.
      destruct (str_format _ _) as [message|x]; [apply Hgrow; assumption|assumption].
Qed.

Lemma for_customers_attempts (campaign : Campaign.t) (customer : Customer.t)
      (ob : list (string * string)) (e : OutreachEvent.t)
      (batch : list Customer.t) :
  event_key e = (Campaign.id campaign, Customer.id customer) ->
  terminal (OutreachEvent.status e) = false ->
  forall (t : Totals) (w : World),
    faults w = [] -> events_ok (events (db w)) ->
    (forall c2, In c2 batch -> Customer.id c2 = Customer.id customer -> c2 = customer) ->
    exists t' w',
      for_customers str_format campaign batch t w = (Ok t', w') /\
      faults w' = [] /\ events_ok (events (db w')) /\
      customers (db w') = customers (db w) /\
      (exists pre, outbox w' = pre ++ outbox w) /\
      (attempted (str_format (Campaign.message_template campaign)
                             (Customer.first_name customer)) customer ob e w ->
       attempted (str_format (Campaign.message_template campaign)
                             (Customer.first_name customer)) customer ob e w') /\
      (In e (events (db w)) -> (exists pre, outbox w = pre ++ ob) ->
       (In e (events (db w')) \/
        attempted (str_format (Campaign.message_template campaign)
                              (Customer.first_name customer)) customer ob e w') /\
       (In customer batch ->
        attempted (str_format (Campaign.message_template campaign)
                              (Customer.first_name customer)) customer ob e w')).
Proof.
  intros Hkey Hterm.
  induction batch as [|c0 rest IH]; intros t w Hf Hok Huniq.
  - exists t, w. simpl. split; [reflexivity|]. split; [assumption|].
    split; [assumption|]. split; [reflexivity|]. split; [exists []; reflexivity|].
    split; [auto|]. intros Hin _. split; [auto|intros []].
  - destruct (process_customer_facts campaign c0 t w Hf Hok)
      as (t1 & w1 & Hrun & Hf1 & Hok1 & Hcu1 & (pre1 & Hob1) & Hev1).
    destruct (IH t1 w1 Hf1 Hok1 (fun c2 H => Huniq c2 (or_intror H)))
      as (t' & w' & Hrun' & Hf' & Hok' & Hcu' & (pre' & Hob') & Hatt & Hunt).
    exists t', w'. simpl. rewrite (bind_ok _ Hrun).
    split; [assumption|]. split; [assumption|]. split; [assumption|].
    split; [congruence|]. split.
    { exists (pre' ++ pre1). rewrite Hob', Hob1, app_assoc. reflexivity. }
    assert (Hstep : attempted (str_format (Campaign.message_template campaign)
                                          (Customer.first_name customer))
                              customer ob e w ->
                    attempted (str_format (Campaign.message_template campaign)
                                          (Customer.first_name customer))
                              customer ob e w1).
    { apply (attempted_step campaign customer c0 ob e t t1 w w1 Hkey
                            (Huniq c0 (or_introl eq_refl)) Hf Hok Hrun). }
    split; [auto|].
    intros Hin (pre & Hob).
    destruct (Nat.eq_dec (Customer.id c0) (Customer.id customer)) as [Heq|Hne].
    + pose proof (Huniq c0 (or_introl eq_refl) Heq) as ->.
      pose proof (attempt_step campaign customer t w e Hf Hok Hin Hkey Hterm _ _ Hrun)
        as Ha.
      rewrite Hob in Ha. apply attempted_base in Ha. auto.
    + assert (Hin1 : In e (events (db w1))).
      { apply (evolves_keeps Hev1 Hok Hin). right. right.
        intros Hc. apply Hne. rewrite Hc. unfold event_key in Hkey. congruence. }
      assert (Hob1' : exists pre2, outbox w1 = pre2 ++ ob).
      { exists (pre1 ++ pre). rewrite Hob1, Hob, app_assoc. reflexivity. }
      destruct (Hunt Hin1 Hob1') as [Hor Hall]. split; [assumption|].
      intros [->|Hr]; [congruence|auto].
Qed.

Lemma for_batches_attempts (campaign : Campaign.t) (customer : Customer.t)
      (ob : list (string * string)) (e : OutreachEvent.t)
      (customer_ids : list pk) (starts : list nat) :
  event_key e = (Campaign.id campaign, Customer.id customer) ->
  terminal (OutreachEvent.status e) = false ->
  forall (t : Totals) (w : World),
    faults w = [] -> events_ok (events (db w)) ->
    (forall c2, In c2 (customers (db w)) ->
                Customer.id c2 = Customer.id customer -> c2 = customer) ->
    exists t' w',
      for_batches str_format campaign customer_ids starts t w = (Ok t', w') /\
      faults w' = [] /\ events_ok (events (db w')) /\
      customers (db w') = customers (db w) /\
      (exists pre, outbox w' = pre ++ outbox w) /\
      (attempted (str_format (Campaign.message_template campaign)
                             (Customer.first_name customer)) customer ob e w ->
       attempted (str_format (Campaign.message_template campaign)
                             (Customer.first_name customer)) customer ob e w') /\
      (In e (events (db w)) -> (exists pre, outbox w = pre ++ ob) ->
       (In e (events (db w')) \/
        attempted (str_format (Campaign.message_template campaign)
                              (Customer.first_name customer)) customer ob e w') /\
       (forall i, In i starts -> In customer (customers (db w)) ->
          In (Customer.id customer) (slice customer_ids i (i + batch_size)) ->
          attempted (str_format (Campaign.message_template campaign)
                                (Customer.first_name customer)) customer ob e w')).
Proof.
  intros Hkey Hterm.
  induction starts as [|i0 rest IH]; intros t w Hf Hok Huniq.
  - exists t, w. simpl. split; [reflexivity|]. split; [assumption|].
    split; [assumption|]. split; [reflexivity|]. split; [exists []; reflexivity|].
    split; [auto|]. intros Hin _. split; [auto|intros i []].
  - set (cs := filter (fun c => mem_pk (Customer.id c)
                                       (slice customer_ids i0 (i0 + batch_size)))
                      (customers (db w))).
    assert (Hcs : forall c2, In c2 cs -> Customer.id c2 = Customer.id customer ->
                             c2 = customer).
    { intros c2 Hin. apply filter_In in Hin. apply Huniq. apply Hin. }
    destruct (for_customers_attempts campaign customer ob e cs Hkey Hterm t w Hf Hok Hcs)
      as (t1 & w1 & Hrun & Hf1 & Hok1 & Hcu1 & (pre1 & Hob1) & Hatt1 & Hunt1).
    assert (Huniq1 : forall c2, In c2 (customers (db w1)) ->
                       Customer.id c2 = Customer.id customer -> c2 = customer)
      by (rewrite Hcu1; exact Huniq).
    destruct (IH t1 w1 Hf1 Hok1 Huniq1)
      as (t' & w' & Hrun' & Hf' & Hok' & Hcu' & (pre' & Hob') & Hatt & Hunt).
    exists t', w'. simpl.
    rewrite (bind_ok _ (customers_id_in_ok _ Hf)). fold cs.
    rewrite (bind_ok _ Hrun).
    split; [assumption|]. split; [assumption|]. split; [assumption|].
    split; [congruence|]. split.
    { exists (pre' ++ pre1). rewrite Hob', Hob1, app_assoc. reflexivity. }
    split; [auto|].
    intros Hin (pre & Hob).
    destruct (Hunt1 Hin (ex_intro _ pre Hob)) as [Hor1 Hall1].
    assert (Hob1' : exists pre2, outbox w1 = pre2 ++ ob).
    { exists (pre1 ++ pre). rewrite Hob1, Hob, app_assoc. reflexivity. }
    split.
    + destruct Hor1 as [Hin1|Ha1]; [|auto].
      apply (Hunt Hin1 Hob1').
    + intros i [<-|Hi] Hc Hsl.
      * apply Hatt. apply Hall1. unfold cs. apply filter_In. split; [assumption|].
        apply mem_pk_In. assumption.
      * destruct Hor1 as [Hin1|Ha1]; [|auto].
        rewrite <- Hcu1 in Hc.
        apply (proj2 (Hunt Hin1 Hob1') i Hi Hc Hsl).
Qed.

Lemma apply_segmentation_outbox (campaign : Campaign.t) (qs : QuerySet)
      (w w1 : World) (r : result (option QuerySet)) :
  apply_segmentation campaign qs w = (r, w1) -> outbox w1 = outbox w.
Proof.
  unfold apply_segmentation. intros H.
  destruct (Campaign.segment_type campaign =? "inactive_days")%string.
  - unfold bind in H. rewrite inactive_days_run in H.
    destruct (cutoff_representable _ _); inversion H; reflexivity.
  - destruct (Campaign.segment_type campaign =? "high_spenders")%string;
      inversion H; reflexivity.
Qed.

(** A run with working storage attempts every selected customer's event that
    is [queued] or [failed] when the run starts. *)
Lemma run_campaign_task_attempts (campaign_id : pk) (w : World)
      (campaign : Campaign.t) (qs : QuerySet) (customer : Customer.t)
      (e : OutreachEvent.t) :
  faults w = [] -> events_ok (events (db w)) ->
  NoDup (map Customer.id (customers (db w))) ->
  campaign_row (db w) campaign_id = Some campaign ->
  selected_by campaign w = Some qs ->
  In customer (customers (db w)) -> qs customer = true ->
  In e (events (db w)) ->
  event_key e = (campaign_id, Customer.id customer) ->
  terminal (OutreachEvent.status e) = false ->
  exists t w',
    run_campaign_task str_format campaign_id w
    = (Ok (ReturnSummary campaign_id t), w') /\
    attempted (str_format (Campaign.message_template campaign)
                          (Customer.first_name customer))
              customer (outbox w) e w'.
Proof.
  intros Hf Hok Hnd Hrow Hsel Hc Hq Hin Hkey Hterm.
  destruct (campaign_row_In Hrow) as [Hinc Hid].
  destruct (selected_by_run _ _ _ Hsel) as (w2 & Hseg & Hd2 & Hf2).
  pose proof (apply_segmentation_outbox _ _ _ _ _ Hseg) as Hob2.
  rewrite Hf in Hf2.
  assert (Hok2 : events_ok (events (db w2))) by (rewrite Hd2; assumption).
  assert (Hkey' : event_key e = (Campaign.id campaign, Customer.id customer))
    by (rewrite Hid; assumption).
  assert (Huniq : forall c2, In c2 (customers (db w2)) ->
                    Customer.id c2 = Customer.id customer -> c2 = customer).
  { rewrite Hd2. intros c2 Hc2 Heq. eapply NoDup_map_eq; eassumption. }
  set (ids := map Customer.id (filter qs (customers (db w2)))).
  destruct (for_batches_attempts campaign customer (outbox w) e ids
              (range_step (List.length ids) batch_size) Hkey' Hterm
              (mkTotals 0 0 0) w2 Hf2 Hok2 Huniq)
    as (t & w4 & Hloop & Hf4 & Hok4 & Hcu4 & _ & _ & Hunt).
  assert (Hin2 : In e (events (db w2))) by (rewrite Hd2; assumption).
  destruct (Hunt Hin2 (ex_intro _ [] (eq_trans Hob2 eq_refl))) as [_ Hall].
  assert (Hidc : In (Customer.id customer) ids).
  { unfold ids. apply in_map. apply filter_In. rewrite Hd2. auto. }
  destruct (slices_cover _ _ Hidc) as (i & Hi & Hsl).
  assert (Hc2 : In customer (customers (db w2))) by (rewrite Hd2; assumption).
  pose proof (Hall i Hi Hc2 Hsl) as Ha.
  destruct (for_batches_inv _ _ _ _ Hloop) as ((_ & _ & Hca) & _).
  assert (Hin4 : In campaign (campaigns (db w4))) by (rewrite Hca, Hd2; assumption).
  exists t. eexists.
  unfold run_campaign_task, try_except, task_body.
  rewrite (bind_ok _ (get_campaign_ok Hf Hrow)).
  change (fun c : Customer.t =>
            (Customer.restaurant c =? Campaign.restaurant campaign)%nat)
    with (restaurant_customers campaign).
  cbv zeta. rewrite (bind_ok _ Hseg).
  rewrite (bind_ok _ (values_list_id_ok _ Hf2)). fold ids.
  rewrite (bind_ok _ Hloop).
  unfold finish. rewrite (bind_ok _ (save_campaign_status_ok _ Hf4 Hin4 completed)).
  unfold ret. split; [reflexivity|].
  destruct Ha as (e' & He' & Hrest). exists e'. split; [exact He'|exact Hrest].
Qed.

Lemma with_status_same (c : Campaign.t) :
  Campaign.with_status (Campaign.status c) c = c.
Proof. destruct c. reflexivity. Qed.

(** A run changes nothing of its campaign but the status. *)
Lemma run_campaign_task_row (campaign_id : pk) (w w' : World)
      (r : result TaskReturn) (campaign : Campaign.t) :
  campaign_row (db w) campaign_id = Some campaign ->
  run_campaign_task str_format campaign_id w = (r, w') ->
  exists s, campaign_row (db w') campaign_id = Some (Campaign.with_status s campaign).
Proof.
  intros Hrow Hrun.
  destruct (campaign_row_In Hrow) as [_ Hid].
  assert (Hbody : forall rb wb, task_body str_format campaign_id w = (rb, wb) ->
            exists s, campaign_row (db wb) campaign_id
                      = Some (Campaign.with_status s campaign)).
  { intros rb wb Hb.
    destruct (task_body_inv Hb)
      as [[Hd _]|(c & qs & w3 & rl & w4 & Hc & _ & Hd3 & Hl & Hfin)].
    - exists (Campaign.status campaign). rewrite Hd, with_status_same. assumption.
    - assert (c = campaign) by congruence. subst c.
      destruct (for_batches_inv _ _ _ _ Hl) as ((_ & _ & Hca) & _).
      assert (Hrow4 : campaign_row (db w4) campaign_id = Some campaign).
      { rewrite (campaign_row_ext (db w) (db w4)); [assumption|congruence]. }
      destruct rl as [t|x].
      + unfold finish in Hfin.
        destruct (bind_inv Hfin) as [(u & w5 & Hs & Hk)|(y & Hs & _)].
        * unfold ret in Hk. injection Hk as _ Hwb. rewrite <- Hwb.
          destruct (save_campaign_status_inv Hs)
            as (_ & _ & _ & [[_ Hsave]|(y & Hy & _)]); [|discriminate].
          exists completed.
          rewrite (campaign_row_saved (db w4) (db w5) campaign completed campaign_id);
            [rewrite Hid, Nat.eqb_refl; reflexivity|rewrite Hid; assumption|exact Hsave].
        * destruct (save_campaign_status_inv Hs)
            as (_ & _ & _ & [[Habs _]|(z & _ & Hsame)]); [discriminate|].
          exists (Campaign.status campaign). rewrite with_status_same.
          rewrite (campaign_row_ext (db w4) (db wb)); assumption.
      + destruct Hfin as [_ ->]. exists (Campaign.status campaign).
        rewrite with_status_same. assumption. }
  destruct (run_campaign_task_inv Hrun)
    as [(out & -> & Hb)|[(x & Hc & -> & Hb)|(x & w1 & Hc & Hb & Hp)]].
  - apply (Hbody _ _ Hb).
  - apply (Hbody _ _ Hb).
  - destruct (Hbody _ _ Hb) as (s & Hrow1).
    destruct (pause_on_error_inv Hp) as (_ & _ & _ & _ & _ & _ & Hst).
    destruct (Hst _ Hrow1) as [H|H].
    + exists s. assumption.
    + exists paused. rewrite H. reflexivity.
Qed.

(** The segment of a [high_spenders] campaign does not depend on the time
    nor on the campaign's status. *)
Lemma selected_by_high_spenders (campaign : Campaign.t) (s : CampaignStatus)
      (w w1 : World) :
  Campaign.segment_type campaign = "high_spenders"%string ->
  selected_by (Campaign.with_status s campaign) w1 = selected_by campaign w.
Proof.
  intros Hty. unfold selected_by, apply_segmentation. cbn [Campaign.with_status
    Campaign.segment_type Campaign.segment_value]. rewrite Hty. reflexivity.
Qed.

(** *** What a run puts in the outbox, and what it counts *)

Lemma keeps_ret {A} (a : A) : keeps_outbox (ret a).
Proof. intros w r w' H. inversion H. reflexivity. Qed.

Lemma keeps_raise {A} (e : exn) : keeps_outbox (@raise A e).
Proof. intros w r w' H. inversion H. reflexivity. Qed.

Lemma keeps_bind {A B} (m : M A) (k : A -> M B) :
  keeps_outbox m -> (forall a, keeps_outbox (k a)) -> keeps_outbox (bind m k).
Proof.
  intros Hm Hk w r w' H.
  destruct (bind_inv H) as [(a & w1 & H1 & H2)|(x & H1 & _)].
  - rewrite (Hk a _ _ _ H2). apply (Hm _ _ _ H1).
  - apply (Hm _ _ _ H1).
Qed.

Lemma keeps_try {A} (m : M A) (h : exn -> M A) :
  keeps_outbox m -> (forall e, keeps_outbox (h e)) -> keeps_outbox (try_except m h).
Proof.
  intros Hm Hh w r w' H. unfold try_except in H.
  destruct (m w) as [[a|e] w1] eqn:E.
  - inversion H; subst. apply (Hm _ _ _ E).
  - rewrite (Hh e _ _ _ H). apply (Hm _ _ _ E).
Qed.

Lemma keeps_storage : keeps_outbox storage.
Proof. intros w r w' H. apply (storage_frame H). Qed.

Lemma keeps_get_db : keeps_outbox get_db.
Proof. intros w r w' H. inversion H. reflexivity. Qed.

Lemma keeps_put_db (d : DB) : keeps_outbox (put_db d).
Proof. intros w r w' H. inversion H. reflexivity. Qed.

Lemma keeps_get_one {A} (missing : ExnClass) (rows : list A) :
  keeps_outbox (get_one missing rows).
Proof.
  destruct rows as [|a [|b rest]]; simpl;
    [apply keeps_raise|apply keeps_ret|apply keeps_raise].
Qed.

Lemma keeps_query {A} (k : DB -> M A) :
  (forall d, keeps_outbox (k d)) ->
  keeps_outbox (storage ;;; d <- get_db ;; k d).
Proof.
  intros Hk. apply keeps_bind; [apply keeps_storage|]. intros _.
  apply keeps_bind; [apply keeps_get_db|]. assumption.
Qed.

Lemma keeps_get_or_create_event (campaign : Campaign.t) (customer : Customer.t) :
  keeps_outbox (get_or_create_event campaign customer).
Proof.
  unfold get_or_create_event. apply keeps_query. intros d.
  destruct (filter _ (events d)) as [|e [|e2 rest]].
  - apply keeps_bind; [apply keeps_put_db|]. intros _. apply keeps_ret.
  - apply keeps_ret.
  - apply keeps_raise.
Qed.

Lemma keeps_save_event (fields : list OutreachEvent.field) (e : OutreachEvent.t) :
  keeps_outbox (save_event fields e).
Proof.
  unfold save_event. apply keeps_query. intros d.
  destruct (existsb _ (events d)); [apply keeps_put_db|apply keeps_raise].
Qed.

Lemma keeps_event_failed (event : OutreachEvent.t) (t : Totals) (x : exn) :
  keeps_outbox (event_failed event t x).
Proof.
  unfold event_failed. apply keeps_bind; [apply keeps_save_event|].
  intros _. apply keeps_ret.
Qed.

Lemma keeps_customers_id_in (batch_ids : list pk) :
  keeps_outbox (customers_id_in batch_ids).
Proof. unfold customers_id_in. apply keeps_query. intros d. apply keeps_ret. Qed.

Lemma keeps_values_list_id (qs : QuerySet) : keeps_outbox (values_list_id qs).
Proof. unfold values_list_id. apply keeps_query. intros d. apply keeps_ret. Qed.

Lemma keeps_get_campaign (campaign_id : pk) : keeps_outbox (get_campaign campaign_id).
Proof. unfold get_campaign. apply keeps_query. intros d. apply keeps_get_one. Qed.

Lemma keeps_save_campaign_status (c : Campaign.t) :
  keeps_outbox (save_campaign_status c).
Proof.
  unfold save_campaign_status. apply keeps_query. intros d.
  destruct (existsb _ (campaigns d)); [apply keeps_put_db|apply keeps_raise].
Qed.

Lemma keeps_finish (campaign : Campaign.t) (campaign_id : pk) (t : Totals) :
  keeps_outbox (finish campaign campaign_id t).
Proof.
  unfold finish. apply keeps_bind; [apply keeps_save_campaign_status|].
  intros _. apply keeps_ret.
Qed.

Lemma keeps_pause_on_error (campaign_id : pk) (e : exn) :
  keeps_outbox (pause_on_error campaign_id e).
Proof.
  unfold pause_on_error. apply keeps_bind; [|intros _; apply keeps_raise].
  apply keeps_try; [|intros _; apply keeps_ret].
  apply keeps_bind; [apply keeps_get_campaign|].
  intros c. apply keeps_save_campaign_status.
Qed.

Lemma settled_In (camp k : pk) (evs : list OutreachEvent.t) :
  settled camp k evs = true <->
  exists e, In e evs /\ event_key e = (camp, k) /\
            terminal (OutreachEvent.status e) = true.
Proof.
  unfold settled. rewrite existsb_exists. split.
  - intros (e & Hin & H). apply andb_prop in H. destruct H as [Hk Ht].
    apply event_for_key in Hk. eauto.
  - intros (e & Hin & Hk & Ht). exists e. split; [assumption|].
    apply andb_true_intro. split; [apply event_for_key|]; assumption.
Qed.

Lemma settled_evolves {camp : pk} {P : pk -> Prop} {evs evs' : list OutreachEvent.t}
      (k : pk) :
  evolves camp P evs evs' -> events_ok evs ->
  settled camp k evs = true -> settled camp k evs' = true.
Proof.
  intros Hev Hok Hs. apply settled_In in Hs. destruct Hs as (e & Hin & Hk & Ht).
  apply settled_In. exists e. split; [|auto].
  apply (evolves_keeps Hev Hok Hin). left. assumption.
Qed.

(** The per-event [try] block: at most one message, addressed to the
    customer, and each counter moves by at most one step of its own. *)
Lemma process_event_turn {campaign : Campaign.t} {customer : Customer.t}
      {e0 : OutreachEvent.t} {t : Totals} {w w' : World} {r : result Totals} :
  process_event str_format campaign customer e0 t w = (r, w') ->
  (outbox w' = outbox w \/
   exists preview, outbox w' = (Customer.email customer, preview) :: outbox w) /\
  (forall t', r = Ok t' ->
     total_processed t' <= S (total_processed t) /\
     total_sent t' <= S (total_sent t) /\
     total_failed t' <= 2 + total_failed t).
Proof.
  unfold process_event. intros H.
  destruct (str_format (Campaign.message_template campaign)
                       (Customer.first_name customer)) as [message|x].
  2:{ split; [left; apply (keeps_event_failed _ _ _ _ _ _ H)|].
      intros t' ->.
      destruct (event_failed_inv H) as [_ [[Hr _]|(y & Hy & _)]]; [|discriminate].
      injection Hr as ->. simpl. lia. }
  destruct (bind_inv H) as [(u & w2 & Hs1 & Hk2)|(y & Hs1 & _)];
    [|discriminate Hs1]. clear H.
  assert (Ho2 : outbox w2 = (Customer.email customer, substring 0 50 message)
                            :: outbox w) by (inversion Hs1; reflexivity).
  destruct (bind_inv Hk2) as [(success & w3 & Hs2 & Hk3)|(y & Hs2 & _)];
    [|discriminate Hs2]. clear Hk2.
  assert (Ho3 : outbox w3 = outbox w2) by (inversion Hs2; reflexivity).
  destruct (bind_inv Hk3) as [([ev t1] & w4 & Hs3 & Hk4)|(y & Hs3 & _)];
    [|destruct success; discriminate Hs3]. clear Hk3.
  assert (H4 : outbox w4 = outbox w3 /\ (t1 = add_sent t \/ t1 = add_failed t)).
  { destruct success; inversion Hs3; subst; simpl; auto. }
  destruct H4 as (Ho4 & Ht1).
  assert (Hkeep : keeps_outbox
            (try_except
               (save_event [OutreachEvent.f_status; OutreachEvent.f_sent_at;
                            OutreachEvent.f_error_message] ev ;;;
                ret (add_processed t1))
               (event_failed ev t1))).
  { apply keeps_try; [|intros e; apply keeps_event_failed].
    apply keeps_bind; [apply keeps_save_event|]. intros _. apply keeps_ret. }
  split.
  - right. exists (substring 0 50 message).
    rewrite (Hkeep _ _ _ Hk4). congruence.
  - intros t' ->. unfold try_except in Hk4.
    match type of Hk4 with
    | context [bind (save_event ?f ev) ?k w4] =>
        destruct (bind (save_event f ev) k w4) as [[t2|y] wb] eqn:Hs
    end.
    + inversion Hk4; subst t2 wb; clear Hk4.
      destruct (bind_inv Hs) as [(u' & w0 & _ & Hk')|(y & _ & Habs)]; [|discriminate].
      unfold ret in Hk'. injection Hk' as <- _.
      destruct Ht1 as [-> | ->]; simpl; lia.
    + destruct (event_failed_inv Hk4) as [_ [[Hr _]|(z & Hz & _)]]; [|discriminate].
      injection Hr as ->. destruct Ht1 as [-> | ->]; simpl; lia.
Qed.

(** One turn of the inner loop: nothing happens for a customer whose event
    is settled. *)
Lemma process_customer_turn {campaign : Campaign.t} {customer : Customer.t}
      {t : Totals} {w w' : World} {r : result Totals} :
  process_customer str_format campaign customer t w = (r, w') ->
  events_ok (events (db w)) ->
  (outbox w' = outbox w \/
   exists preview, outbox w' = (Customer.email customer, preview) :: outbox w) /\
  (settled (Campaign.id campaign) (Customer.id customer) (events (db w)) = true ->
   outbox w' = outbox w /\ forall t', r = Ok t' -> t' = t) /\
  (forall t', r = Ok t' ->
     total_processed t' <= S (total_processed t) /\
     total_sent t' <= S (total_sent t) /\
     total_failed t' <= 2 + total_failed t).
Proof.
  unfold process_customer. intros H [Hids Hkeys].
  destruct (bind_inv H) as [([e0 b] & w1 & Hg & Hk)|(x & Hg & ->)]; clear H.
  2:{ pose proof (keeps_get_or_create_event _ _ _ _ _ Hg) as Ho.
      split; [left; assumption|]. split; [|discriminate].
      intros _. split; [assumption|discriminate]. }
  pose proof (keeps_get_or_create_event _ _ _ _ _ Hg) as Ho1.
  destruct (get_or_create_event_inv Hg)
    as [_ [(y & Hr & _)|(e0' & b' & Hr & Hin & Hkey & Hev)]]; [discriminate|].
  injection Hr as <- <-. clear Hg.
  destruct (terminal (OutreachEvent.status e0)) eqn:Hterm.
  { unfold ret in Hk. inversion Hk; subst.
    split; [left; assumption|]. split.
    - intros _. split; [assumption|]. intros t' E. injection E as <-. reflexivity.
    - intros t' E. injection E as <-. lia. }
  destruct (process_event_turn Hk) as (Hout & Hcnt).
  split; [|split; [|assumption]].
  - rewrite Ho1 in Hout. assumption.
  - intros Hs. exfalso. apply settled_In in Hs.
    destruct Hs as (e & Hin_e & Hkey_e & Hte).
    destruct Hev as [Hsame|(Hnil & _ & _)].
    + rewrite Hsame in Hin.
      assert (e = e0).
      { apply (NoDup_map_eq event_key (events (db w))); try assumption. congruence. }
      subst e. congruence.
    + apply filter_key_nil in Hnil. apply Hnil. rewrite <- Hkey_e.
      apply in_map. assumption.
Qed.

(** The inner loop, measured against the table [evs0] the run started
    with. *)
Lemma for_customers_sends {campaign : Campaign.t} (evs0 : list OutreachEvent.t)
      {batch : list Customer.t} :
  events_ok evs0 ->
  forall (t : Totals) (w w' : World) (r : result Totals),
    evolves (Campaign.id campaign) (fun _ => True) evs0 (events (db w)) ->
    for_customers str_format campaign batch t w = (r, w') ->
    exists pre,
      outbox w' = pre ++ outbox w /\
      (forall m, In m pre ->
         exists c, In c batch /\ fst m = Customer.email c /\
                   settled (Campaign.id campaign) (Customer.id c) evs0 = false) /\
      (forall t', r = Ok t' ->
         let n := List.length
                    (filter (fun c => negb (settled (Campaign.id campaign)
                                                    (Customer.id c) evs0)) batch) in
         total_processed t' <= total_processed t + n /\
         total_sent t' <= total_sent t + n /\
         total_failed t' <= total_failed t + 2 * n).
Proof.
  intros Hok0.
  induction batch as [|c rest IH]; intros t w w' r Hev H; simpl in H.
  - unfold ret in H. inversion H; subst. exists []. split; [reflexivity|].
    split; [intros m []|]. intros t' E. injection E as <-. simpl. lia.
  - pose proof (evolves_ok Hev Hok0) as Hokw.
    destruct (bind_inv H) as [(t1 & w1 & Hp & Hk)|(x & Hp & ->)]; clear H.
    + destruct (process_customer_turn Hp Hokw) as (Hout & Hset & Hcnt).
      destruct (process_customer_inv Hp) as (_ & Hev1 & _).
      assert (Hev' : evolves (Campaign.id campaign) (fun _ => True) evs0
                             (events (db w1))).
      { eapply evolves_trans; [exact Hev|].
        eapply evolves_weaken; [|exact Hev1]. auto. }
      destruct (IH _ _ _ _ Hev' Hk) as (pre & Ho & Hmsg & Hn).
      cbn [filter].
      destruct (settled (Campaign.id campaign) (Customer.id c) evs0) eqn:Hs0.
      * destruct (Hset (settled_evolves _ Hev Hok0 Hs0)) as [Ho1 Ht1].
        rewrite (Ht1 t1 eq_refl) in *.
        exists pre. split; [congruence|]. split.
        -- intros m Hm. destruct (Hmsg m Hm) as (c' & Hin & H').
           exists c'. split; [right; assumption|exact H'].
        -- exact Hn.
      * destruct (Hcnt t1 eq_refl) as (Hc1 & Hc2 & Hc3).
        assert (Hjoin : exists pre1,
                   outbox w1 = pre1 ++ outbox w /\
                   forall m, In m pre1 -> fst m = Customer.email c).
        { destruct Hout as [Ho1|(preview & Ho1)].
          - exists []. split; [assumption|intros m []].
          - eexists [_]. split; [exact Ho1|]. intros m [<-|[]]. reflexivity. }
        destruct Hjoin as (pre1 & Ho1 & Hm1).
        exists (pre ++ pre1). split; [rewrite Ho, Ho1; apply app_assoc|]. split.
        -- intros m Hm. apply in_app_or in Hm. destruct Hm as [Hm|Hm].
           ++ destruct (Hmsg m Hm) as (c' & Hin & H').
              exists c'. split; [right; assumption|exact H'].
           ++ exists c. split; [left; reflexivity|]. split; [apply Hm1; assumption|].
              assumption.
        -- intros t' E. specialize (Hn t' E). cbn zeta in *. cbn [negb List.length].
           lia.
    + destruct (process_customer_turn Hp Hokw) as (Hout & Hset & _).
      destruct (settled (Campaign.id campaign) (Customer.id c) evs0) eqn:Hs0.
      * destruct (Hset (settled_evolves _ Hev Hok0 Hs0)) as [Ho1 _].
        exists []. split; [assumption|]. split; [intros m []|discriminate].
      * destruct Hout as [Ho1|(preview & Ho1)].
        -- exists []. split; [assumption|]. split; [intros m []|discriminate].
        -- eexists [_]. split; [exact Ho1|]. split; [|discriminate].
           intros m [<-|[]]. exists c. split; [left; reflexivity|].
           split; [reflexivity|assumption].
Qed.

Lemma for_batches_sends {campaign : Campaign.t} {customer_ids : list pk}
      (evs0 : list OutreachEvent.t) {starts : list nat} :
  events_ok evs0 ->
  forall (t : Totals) (w w' : World) (r : result Totals),
    evolves (Campaign.id campaign) (fun _ => True) evs0 (events (db w)) ->
    for_batches str_format campaign customer_ids starts t w = (r, w') ->
    exists pre,
      outbox w' = pre ++ outbox w /\
      (forall m, In m pre ->
         exists c, In c (customers (db w)) /\ In (Customer.id c) customer_ids /\
                   fst m = Customer.email c /\
                   settled (Campaign.id campaign) (Customer.id c) evs0 = false) /\
      (forall t', r = Ok t' ->
         let n := List.length
                    (filter (fun c => negb (settled (Campaign.id campaign)
                                                    (Customer.id c) evs0))
                            (batches_of
                               (map (fun i => slice customer_ids i (i + batch_size))
                                    starts)
                               (customers (db w)))) in
         total_processed t' <= total_processed t + n /\
         total_sent t' <= total_sent t + n /\
         total_failed t' <= total_failed t + 2 * n).
Proof.
  intros Hok0.
  induction starts as [|i rest IH]; intros t w w' r Hev H; simpl in H.
  - unfold ret in H. inversion H; subst. exists []. split; [reflexivity|].
    split; [intros m []|]. intros t' E. injection E as <-. simpl. lia.
  - destruct (bind_inv H) as [(cs & w1 & Hq & Hk)|(x & Hq & ->)]; clear H.
    2:{ exists []. split; [apply (keeps_customers_id_in _ _ _ _ Hq)|].
        split; [intros m []|discriminate]. }
    pose proof (keeps_customers_id_in _ _ _ _ Hq) as Ho1.
    destruct (customers_id_in_inv Hq) as [Hd Hcs]. specialize (Hcs cs eq_refl).
    assert (Hev1 : evolves (Campaign.id campaign) (fun _ => True) evs0
                           (events (db w1))) by (rewrite Hd; assumption).
    assert (Hfrom : forall c, In c cs ->
              In c (customers (db w)) /\ In (Customer.id c) customer_ids).
    { intros c Hin. rewrite Hcs in Hin. apply filter_In in Hin.
      destruct Hin as [Hin Hmem]. apply mem_pk_In in Hmem.
      split; [assumption|]. eapply In_slice. eassumption. }
    destruct (bind_inv Hk) as [(t1 & w2 & Hc & Hk2)|(x & Hc & ->)]; clear Hk.
    + destruct (for_customers_sends evs0 Hok0 _ _ _ _ Hev1 Hc) as (pre1 & Ho2 & Hm1 & Hn1).
      destruct (for_customers_inv _ _ _ _ Hc) as ((Hcu & _) & Hev2 & _).
      assert (Hev2' : evolves (Campaign.id campaign) (fun _ => True) evs0
                              (events (db w2))).
      { eapply evolves_trans; [exact Hev1|].
        eapply evolves_weaken; [|exact Hev2]. auto. }
      destruct (IH _ _ _ _ Hev2' Hk2) as (pre & Ho & Hmsg & Hn).
      rewrite Hd in Hcu. rewrite Hcu in Hmsg, Hn.
      exists (pre ++ pre1). split; [rewrite Ho, Ho2, Ho1; apply app_assoc|]. split.
      * intros m Hm. apply in_app_or in Hm. destruct Hm as [Hm|Hm].
        -- apply Hmsg. assumption.
        -- destruct (Hm1 m Hm) as (c & Hin & Hmail & Hs).
           destruct (Hfrom c Hin). exists c. auto.
      * intros t' E. specialize (Hn t' E). specialize (Hn1 t1 eq_refl).
        cbn zeta in *. unfold batches_of in *. cbn [map flat_map].
        rewrite filter_app, length_app, <- Hcs. lia.
    + destruct (for_customers_sends evs0 Hok0 _ _ _ _ Hev1 Hc) as (pre1 & Ho2 & Hm1 & _).
      exists pre1. split; [rewrite Ho2, Ho1; reflexivity|]. split; [|discriminate].
      intros m Hm. destruct (Hm1 m Hm) as (c & Hin & Hmail & Hs).
      destruct (Hfrom c Hin). exists c. auto.
Qed.

(** *** Each selected customer is in one batch *)

Lemma concat_slices {A} (n : nat) :
  forall (k : nat) (l : list A),
    List.length l <= n * k ->
    List.concat (map (fun j => firstn n (skipn (j * n) l)) (seq 0 k)) = l.
Proof.
  induction k as [|k IH]; intros l Hlen.
  - rewrite Nat.mul_0_r in Hlen. destruct l; [reflexivity|simpl in Hlen; lia].
  - cbn [seq]. rewrite <- seq_shift. cbn [map List.concat]. rewrite map_map.
    rewrite Nat.mul_0_l. cbn [skipn].
    transitivity (firstn n l ++ skipn n l); [|apply firstn_skipn]. f_equal.
    transitivity (List.concat (map (fun j => firstn n (skipn (j * n) (skipn n l)))
                                   (seq 0 k))).
    + f_equal. apply map_ext. intros j. rewrite skipn_skipn. f_equal. f_equal. lia.
    + apply IH. rewrite length_skipn. lia.
Qed.

Lemma concat_batches {A} (ids : list A) :
  List.concat (map (fun i => slice ids i (i + batch_size))
                   (range_step (List.length ids) batch_size)) = ids.
Proof.
  unfold range_step, slice, batch_size. rewrite map_map.
  rewrite (map_ext _ (fun j => firstn 200 (skipn (j * 200) ids)))
    by (intros j; f_equal; lia).
  apply concat_slices.
  pose proof (Nat.div_mod_eq (List.length ids + 200 - 1) 200).
  pose proof (Nat.mod_upper_bound (List.length ids + 200 - 1) 200). lia.
Qed.

Lemma NoDup_app_disjoint {A} (a b : list A) (x : A) :
  NoDup (a ++ b) -> In x a -> In x b -> False.
Proof.
  induction a as [|y a IH]; simpl; intros Hnd Ha Hb; [contradiction|].
  inversion Hnd as [|z zs Hnotin Hnd']; subst.
  destruct Ha as [->|Ha].
  - apply Hnotin. apply in_or_app. right. assumption.
  - apply IH; assumption.
Qed.

Lemma mem_pk_app (k : pk) (a b : list pk) :
  mem_pk k (a ++ b) = mem_pk k a || mem_pk k b.
Proof. unfold mem_pk. apply existsb_app. Qed.

Lemma batches_of_count (p : Customer.t -> bool) (cs : list Customer.t) :
  forall batches : list (list pk),
    NoDup (List.concat batches) ->
    List.length (filter p (batches_of batches cs))
    = List.length (filter (fun c => p c && mem_pk (Customer.id c)
                                                  (List.concat batches)) cs).
Proof.
  induction batches as [|s rest IH]; intros Hnd.
  - simpl. induction cs as [|c cs IHc]; simpl; [reflexivity|].
    rewrite andb_false_r. assumption.
  - unfold batches_of in *. cbn [flat_map List.concat] in *.
    rewrite filter_app, length_app, (IH (NoDup_app_remove_l _ _ Hnd)).
    clear IH. induction cs as [|c cs IHc]; [reflexivity|].
    cbn [filter]. rewrite mem_pk_app.
    assert (Hdisj : mem_pk (Customer.id c) s && mem_pk (Customer.id c)
                                                       (List.concat rest) = false).
    { destruct (mem_pk (Customer.id c) s) eqn:E1; [|reflexivity].
      destruct (mem_pk (Customer.id c) (List.concat rest)) eqn:E2; [|reflexivity].
      exfalso. apply mem_pk_In in E1, E2.
      apply (NoDup_app_disjoint _ _ _ Hnd E1 E2). }
    destruct (p c) eqn:Hp, (mem_pk (Customer.id c) s),
      (mem_pk (Customer.id c) (List.concat rest));
      cbn [andb] in Hdisj; try discriminate Hdisj;
      cbn [andb orb filter List.length]; rewrite ?Hp;
      cbn [andb orb filter List.length]; lia.
Qed.

(** The ids the run collects are distinct when the primary keys are. *)
Lemma selected_ids_distinct (qs : QuerySet) (cs : list Customer.t) :
  NoDup (map Customer.id cs) -> NoDup (map Customer.id (filter qs cs)).
Proof.
  induction cs as [|c cs IH]; intros Hnd; [constructor|].
  cbn [map] in Hnd. apply NoDup_cons_iff in Hnd. destruct Hnd as [Hfresh Hnd].
  cbn [filter]. destruct (qs c); [|apply IH; assumption].
  cbn [map]. constructor; [|apply IH; assumption].
  intros Hin. apply Hfresh. apply in_map_iff in Hin.
  destruct Hin as (c' & Hid & Hin). apply filter_In in Hin.
  rewrite <- Hid. apply in_map. apply Hin.
Qed.

Lemma mem_selected (qs : QuerySet) (cs : list Customer.t) (c : Customer.t) :
  NoDup (map Customer.id cs) -> In c cs ->
  mem_pk (Customer.id c) (map Customer.id (filter qs cs)) = qs c.
Proof.
  intros Hnd Hin. destruct (qs c) eqn:Hq.
  - apply mem_pk_In. apply in_map. apply filter_In. auto.
  - destruct (mem_pk _ _) eqn:E; [|reflexivity].
    apply mem_pk_In in E. apply in_map_iff in E. destruct E as (c' & Hid & Hin').
    apply filter_In in Hin'. destruct Hin' as [Hin' Hq'].
    assert (c' = c) by (eapply NoDup_map_eq; eassumption).
    subst. congruence.
Qed.

Lemma selected_by_restaurant (campaign : Campaign.t) (w : World) (qs : QuerySet)
      (c : Customer.t) :
  selected_by campaign w = Some qs -> qs c = true ->
  Customer.restaurant c = Campaign.restaurant campaign.
Proof.
  unfold selected_by, apply_segmentation. intros Hsel Hq.
  assert (Hr : restaurant_customers campaign c = true).
  { destruct (Campaign.segment_type campaign =? "inactive_days")%string.
    - unfold bind in Hsel. rewrite inactive_days_run in Hsel.
      destruct (cutoff_representable _ _); [|discriminate].
      injection Hsel as <-. apply andb_prop in Hq. tauto.
    - destruct (Campaign.segment_type campaign =? "high_spenders")%string;
        [|discriminate].
      injection Hsel as <-. unfold high_spenders in Hq. apply andb_prop in Hq. tauto. }
  unfold restaurant_customers in Hr. apply Nat.eqb_eq. assumption.
Qed.

(** The shape of a run once more, with the outbox. *)
Lemma task_body_inv_outbox {campaign_id : pk} {w w' : World} {r : result TaskReturn} :
  task_body str_format campaign_id w = (r, w') ->
  (outbox w' = outbox w /\
   (forall c0 t, r <> Ok (ReturnSummary c0 t)) /\
   (forall campaign qs,
      campaign_row (db w) campaign_id = Some campaign ->
      selected_by campaign w = Some qs -> exists x, r = Raise x)) \/
  (exists campaign qs w3 rl w4,
     campaign_row (db w) campaign_id = Some campaign /\
     selected_by campaign w = Some qs /\
     db w3 = db w /\ outbox w3 = outbox w /\
     for_batches str_format campaign
                 (map Customer.id (filter qs (customers (db w))))
                 (range_step (List.length (map Customer.id (filter qs (customers (db w)))))
                             batch_size)
                 (mkTotals 0 0 0) w3 = (rl, w4) /\
     match rl with
     | Raise x => r = Raise x /\ w' = w4
     | Ok t => finish campaign campaign_id t w4 = (r, w')
     end).
Proof.
  unfold task_body. intros H.
  destruct (bind_inv H) as [(campaign & w1 & Hg & Hk)|(x & Hg & ->)]; clear H.
  2:{ left. split; [apply (keeps_get_campaign _ _ _ _ Hg)|].
      split; [discriminate|]. eauto. }
  pose proof (keeps_get_campaign _ _ _ _ Hg) as Ho1.
  destruct (get_campaign_inv Hg) as [Hd1 Hrow].
  assert (Hsel : selected_by campaign w1 = selected_by campaign w).
  { unfold get_campaign in Hg.
    destruct (bind_inv Hg) as [(u & w0 & Hs & Hk')|(x & _ & Habs)]; [|discriminate].
    destruct (storage_frame Hs) as (Hc & Hi & _).
    unfold bind, get_db in Hk'.
    assert (w1 = w0).
    { destruct (filter _ _) as [|c [|c2 rest]]; inversion Hk'; reflexivity. }
    subst w1. apply selected_by_clock; assumption. }
  destruct (bind_inv Hk) as [(seg & w2 & Ha & Hk2)|(x & Ha & ->)]; clear Hk.
  2:{ left. rewrite (apply_segmentation_outbox _ _ _ _ _ Ha).
      split; [assumption|]. split; [discriminate|]. eauto. }
  pose proof (apply_segmentation_outbox _ _ _ _ _ Ha) as Ho2.
  destruct (apply_segmentation_inv Ha) as (Hd2 & _ & _).
  assert (Hseg : selected_by campaign w1 = seg).
  { unfold selected_by, restaurant_customers. rewrite Ha. destruct seg; reflexivity. }
  destruct seg as [qs|].
  2:{ left. unfold ret in Hk2. inversion Hk2; subst.
      split; [congruence|]. split; [discriminate|].
      intros c q Hc Hq. exfalso. congruence. }
  destruct (bind_inv Hk2) as [(ids & w3 & Hv & Hk3)|(x & Hv & ->)]; clear Hk2.
  2:{ left. rewrite (keeps_values_list_id _ _ _ _ Hv).
      split; [congruence|]. split; [discriminate|]. eauto. }
  pose proof (keeps_values_list_id _ _ _ _ Hv) as Ho3.
  assert (Hids : ids = map Customer.id (filter qs (customers (db w))) /\ db w3 = db w).
  { unfold values_list_id in Hv.
    destruct (bind_inv Hv) as [(u & w0 & Hs & Hk')|(y & _ & Habs)]; [|discriminate].
    pose proof (storage_db Hs) as Hd0. unfold bind, get_db, ret in Hk'.
    inversion Hk'; subst. split; congruence. }
  destruct Hids as [-> Hd3].
  right. exists campaign, qs, w3.
  destruct (for_batches str_format campaign _ _ _ w3) as [rl w4] eqn:Hloop.
  exists rl, w4. split; [assumption|]. split; [congruence|]. split; [assumption|].
  split; [congruence|]. split; [reflexivity|].
  unfold bind in Hk3. rewrite Hloop in Hk3.
  destruct rl as [t|x]; [assumption|]. inversion Hk3; auto.
Qed.

(** "Not re-sent, not re-processed": what a run sends and counts, measured
    against the event table it started with. *)
Lemma run_campaign_task_sends (campaign_id : pk) (w w' : World)
      (r : result TaskReturn) :
  events_ok (events (db w)) ->
  run_campaign_task str_format campaign_id w = (r, w') ->
  settled_left_alone campaign_id w r w'.
Proof.
  intros Hok Hrun.
  (* the body *)
  assert (Hbody : forall rb wb,
            task_body str_format campaign_id w = (rb, wb) ->
            settled_left_alone campaign_id w rb wb).
  { intros rb wb Hb.
    destruct (task_body_inv_outbox Hb)
      as [(Ho & Hnot & Hres)
         |(campaign & qs & w3 & rl & w4 & Hrow & Hsel & Hd3 & Ho3 & Hl & Hfin)].
    { exists []. split; [assumption|]. split; [reflexivity|].
      intros campaign qs Hrow Hsel Hnd. cbv zeta.
      destruct (Hres campaign qs Hrow Hsel) as (x & ->).
      split; [intros m []|]. split; [intros _ c _ _ _ m []|].
      split; [discriminate|]. intros _. split; [reflexivity|discriminate]. }
    destruct (campaign_row_In Hrow) as [_ Hid].
    assert (Hev3 : evolves (Campaign.id campaign) (fun _ => True)
                           (events (db w)) (events (db w3)))
      by (rewrite Hd3; constructor).
    destruct (for_batches_sends (events (db w)) Hok _ _ _ _ Hev3 Hl)
      as (pre & Ho & Hmsg & Hcnt).
    rewrite Hd3, Hid in Hmsg, Hcnt. rewrite Ho3 in Ho.
    assert (Ho' : outbox wb = pre ++ outbox w).
    { destruct rl as [t|x].
      - rewrite (keeps_finish _ _ _ _ _ _ Hfin). assumption.
      - destruct Hfin as [_ ->]. assumption. }
    exists pre. split; [assumption|]. split.
    { unfold segment_of_run. rewrite Hrow, Hsel. discriminate. }
    intros campaign' qs' Hrow' Hsel' Hnd. cbv zeta.
    assert (campaign' = campaign) by congruence. subst campaign'.
    assert (qs' = qs) by congruence. subst qs'.
    set (pending := fun c => qs c && negb (settled campaign_id (Customer.id c)
                                                   (events (db w)))).
    assert (Hpend : forall m, In m pre ->
              exists c, In c (customers (db w)) /\ pending c = true /\
                        fst m = Customer.email c).
    { intros m Hm. destruct (Hmsg m Hm) as (c & Hin & Hmem & Hmail & Hs).
      exists c. split; [assumption|]. split; [|assumption].
      unfold pending. rewrite Hs.
      apply mem_pk_In in Hmem. rewrite (mem_selected qs _ c Hnd Hin) in Hmem.
      rewrite Hmem. reflexivity. }
    assert (Hn : List.length
                   (filter (fun c => negb (settled campaign_id (Customer.id c)
                                                   (events (db w))))
                           (batches_of
                              (map (fun i => slice (map Customer.id
                                                        (filter qs (customers (db w))))
                                                   i (i + batch_size))
                                   (range_step
                                      (List.length
                                         (map Customer.id
                                              (filter qs (customers (db w)))))
                                      batch_size))
                              (customers (db w))))
                 = List.length (filter pending (customers (db w)))).
    { rewrite batches_of_count.
      - rewrite concat_batches. f_equal. apply filter_ext_in. intros c Hin.
        rewrite (mem_selected qs _ c Hnd Hin). unfold pending.
        apply andb_comm.
      - rewrite concat_batches. apply selected_ids_distinct. assumption. }
    assert (Hcount : forall c0 t, rb = Ok (ReturnSummary c0 t) ->
              total_processed t <= List.length (filter pending (customers (db w))) /\
              total_sent t <= List.length (filter pending (customers (db w))) /\
              total_failed t <= 2 * List.length (filter pending (customers (db w)))).
    { intros c0 t ->. destruct rl as [t0|x]; [|destruct Hfin; discriminate].
      destruct (finish_inv Hfin) as (_ & _ & [E|(x & E & _)]); [|discriminate].
      injection E as _ Et. subst t0. specialize (Hcnt t eq_refl). cbv zeta in Hcnt.
      rewrite Hn in Hcnt. simpl in Hcnt. lia. }
    split; [exact Hpend|]. split; [|split; [exact Hcount|]].
    - intros Hmail c Hin Hrest Hs m Hm Heq.
      destruct (Hpend m Hm) as (c' & Hin' & Hp' & Hmail').
      unfold pending in Hp'. apply andb_prop in Hp'. destruct Hp' as [Hq' Hs'].
      assert (c' = c).
      { apply (NoDup_map_eq (fun c => (Customer.restaurant c, Customer.email c))
                            (customers (db w))); try assumption.
        rewrite (selected_by_restaurant campaign w qs c' Hsel Hq'), Hrest.
        congruence. }
      subst c'. rewrite Hs in Hs'. discriminate.
    - intros Hall.
      assert (Hnil : filter pending (customers (db w)) = []).
      { destruct (filter pending (customers (db w))) as [|c l] eqn:E; [reflexivity|].
        assert (Hin : In c (filter pending (customers (db w))))
          by (rewrite E; left; reflexivity).
        apply filter_In in Hin. destruct Hin as [Hin Hp]. unfold pending in Hp.
        apply andb_prop in Hp. destruct Hp as [Hq Hs].
        rewrite (Hall c Hin Hq) in Hs. discriminate. }
      split.
      + destruct pre as [|m pre']; [reflexivity|].
        destruct (Hpend m (or_introl eq_refl)) as (c & Hin & Hp & _).
        assert (Hin' : In c (filter pending (customers (db w))))
          by (apply filter_In; auto).
        rewrite Hnil in Hin'. destruct Hin'.
      + intros c0 t E. destruct (Hcount c0 t E) as (H1 & H2 & H3).
        rewrite Hnil in *. simpl in *. destruct t as [a b c]. simpl in *.
        f_equal; lia. }
  destruct (run_campaign_task_inv Hrun)
    as [(out & -> & Hb)|[(x & Hc & -> & Hb)|(x & w1 & Hc & Hb & Hp)]].
  - apply (Hbody _ _ Hb).
  - destruct (Hbody _ _ Hb) as (pre & Ho & Hnone & Hall).
    exists pre. split; [assumption|]. split; [assumption|].
    intros campaign qs Hrow Hsel Hnd. cbv zeta.
    destruct (Hall campaign qs Hrow Hsel Hnd) as (H1 & H2 & _ & H4).
    split; [assumption|]. split; [assumption|]. split; [discriminate|].
    intros Hs. destruct (H4 Hs) as [E _]. split; [assumption|discriminate].
  - destruct (Hbody _ _ Hb) as (pre & Ho & Hnone & Hall).
    destruct (pause_on_error_inv Hp) as (-> & _).
    exists pre. split; [rewrite (keeps_pause_on_error _ _ _ _ _ Hp); assumption|].
    split; [assumption|].
    intros campaign qs Hrow Hsel Hnd. cbv zeta.
    destruct (Hall campaign qs Hrow Hsel Hnd) as (H1 & H2 & _ & H4).
    split; [assumption|]. split; [assumption|]. split; [discriminate|].
    intros Hs. destruct (H4 Hs) as [E _]. split; [assumption|discriminate].
Qed.


(** C2, as the code has it.  Two runs of the same campaign in sequence never
    leave two rows for one (campaign, customer) pair; each run leaves the
    rows that are [sent] or [skipped] when it starts exactly as they are,
    sends no message to their customers and does not count them (not
    re-sent, not re-processed: [settled_left_alone]); when the first run
    returns and every customer the second run selects was selected by the
    first (always so for a [high_spenders] campaign), the second run adds no
    row, so the set and the count of rows are those the first run left; and
    a second run with working storage attempts again every selected
    customer's row that the first left [queued] or [failed]. *)
Theorem rerun_is_idempotent
        (campaign_id : pk) (w w1 w2 : World) (r1 r2 : result TaskReturn) :
  events_ok (events (db w)) ->
  run_campaign_task str_format campaign_id w = (r1, w1) ->
  run_campaign_task str_format campaign_id w1 = (r2, w2) ->
  events_ok (events (db w1)) /\ events_ok (events (db w2)) /\
  (forall e, In e (events (db w)) -> terminal (OutreachEvent.status e) = true ->
             In e (events (db w1))) /\
  (forall e, In e (events (db w1)) -> terminal (OutreachEvent.status e) = true ->
             In e (events (db w2))) /\
  settled_left_alone campaign_id w r1 w1 /\
  settled_left_alone campaign_id w1 r2 w2 /\
  ((exists out, r1 = Ok out) ->
   (forall qs2, segment_of_run campaign_id w1 = Some qs2 ->
      exists qs1, segment_of_run campaign_id w = Some qs1 /\
                  forall c, In c (customers (db w)) -> qs2 c = true -> qs1 c = true) ->
   map event_key (events (db w2)) = map event_key (events (db w1)) /\
   List.length (events (db w2)) = List.length (events (db w1))) /\
  ((exists out, r1 = Ok out) ->
   (exists campaign, campaign_row (db w) campaign_id = Some campaign /\
                     Campaign.segment_type campaign = "high_spenders"%string) ->
   map event_key (events (db w2)) = map event_key (events (db w1)) /\
   List.length (events (db w2)) = List.length (events (db w1))) /\
  (faults w1 = [] -> NoDup (map Customer.id (customers (db w1))) ->
   forall campaign qs customer e,
     campaign_row (db w1) campaign_id = Some campaign ->
     selected_by campaign w1 = Some qs ->
     In customer (customers (db w1)) -> qs customer = true ->
     In e (events (db w1)) ->
     event_key e = (campaign_id, Customer.id customer) ->
     terminal (OutreachEvent.status e) = false ->
     (exists t, r2 = Ok (ReturnSummary campaign_id t)) /\
     attempted (str_format (Campaign.message_template campaign)
                           (Customer.first_name customer))
               customer (outbox w1) e w2).
Proof.
  intros Hok H1 H2.
  pose proof (run_campaign_task_evolves H1) as Hev1.
  pose proof (run_campaign_task_evolves H2) as Hev2.
  pose proof (evolves_ok Hev1 Hok) as Hok1.
  assert (Hsame : forall out,
            r1 = Ok out ->
            (forall qs2, segment_of_run campaign_id w1 = Some qs2 ->
               exists qs1, segment_of_run campaign_id w = Some qs1 /\
                           forall c, In c (customers (db w)) -> qs2 c = true ->
                                     qs1 c = true) ->
            map event_key (events (db w2)) = map event_key (events (db w1)) /\
            List.length (events (db w2)) = List.length (events (db w1))).
  { intros out -> Hincl.
    pose proof (rerun_adds_no_row campaign_id w w1 w2 out r2 H1 H2 Hincl) as Hk.
    split; [assumption|].
    rewrite <- (length_map event_key (events (db w2))), Hk. apply length_map. }
  split; [assumption|]. split; [apply (evolves_ok Hev2 Hok1)|].
  split; [|split; [|split; [|split; [|split; [|split]]]]].
  - intros e Hin Ht. apply (evolves_keeps Hev1 Hok Hin). auto.
  - intros e Hin Ht. apply (evolves_keeps Hev2 Hok1 Hin). auto.
  - apply run_campaign_task_sends; assumption.
  - apply run_campaign_task_sends; assumption.
  - intros (out & Hr). apply (Hsame out Hr).
  - intros (out & Hr) (campaign & Hrow & Hty). apply (Hsame out Hr).
    intros qs2 Hseg2.
    destruct (run_campaign_task_row campaign_id w w1 r1 campaign Hrow H1) as (s & Hrow1).
    unfold segment_of_run in *. rewrite Hrow1 in Hseg2. rewrite Hrow.
    rewrite (selected_by_high_spenders campaign s w w1 Hty) in Hseg2.
    exists qs2. auto.
  - intros Hf Hnd campaign qs customer e Hrow Hsel Hc Hq Hin Hkey Hterm.
    destruct (run_campaign_task_attempts campaign_id w1 campaign qs customer e
                Hf Hok1 Hnd Hrow Hsel Hc Hq Hin Hkey Hterm)
      as (t & w2' & Hrun & Ha).
    rewrite H2 in Hrun. injection Hrun as -> <-. split; [eauto|assumption].
Qed.

End PipelineFacts.

(** ** The pipeline on the sample data *)

Lemma unknown_segment_type_witness :
  exists w',
    run_campaign_task format_first_name 2 (sample_world campaign_db)
    = (Ok ReturnNone, w') /\
    events (db w') = [].
Proof.
  destruct (unknown_segment_type format_first_name 2 (sample_world campaign_db)
              birthday eq_refl eq_refl)
    as (w' & Hrun & _ & Hev & _); try discriminate.
  exists w'. split; assumption.
Defined.

Lemma campaign_not_found_witness :
  exists w',
    run_campaign_task format_first_name 7 (sample_world campaign_db)
    = (Ok (ReturnNotFound 7), w') /\
    db w' = campaign_db.
Proof.
  destruct (campaign_not_found format_first_name 7 (sample_world campaign_db))
    as (r & w' & Hrun & Hdb & Hr).
  - intros c [<-|[<-|[<-|[<-|[]]]]]; discriminate.
  - simpl in Hr. subst r. exists w'. split; assumption.
Defined.

Lemma campaign_completed_after_run_witness :
  exists t w' row,
    run_campaign_task format_first_name 1 (sample_world campaign_db)
    = (Ok (ReturnSummary 1 t), w') /\
    campaign_row (db w') 1 = Some row /\
    Campaign.status row = completed /\
    row = Campaign.with_status completed come_back.
Proof.
  destruct (campaign_completed_after_run format_first_name 1
              (sample_world campaign_db) come_back
              (fun c => restaurant_customers come_back c &&
                        inactive_before (sample_now + Z.of_nat 0 - 30 * US_PER_DAY)%Z c)
              eq_refl eq_refl)
    as [H _].
  apply H; [reflexivity|]. split; constructor.
Defined.

Lemma run_level_error_pauses_witness :
  exists w2 row,
    run_campaign_task format_first_name 3 (sample_world campaign_db)
    = (Raise (mkExn OverflowError "days must have magnitude <= 999999999"), w2) /\
    campaign_row (db w2) 3 = Some row /\
    Campaign.status row = paused /\
    Campaign.status far_past = running.
Proof.
  destruct (run_level_error_pauses format_first_name 3 (sample_world campaign_db)
              (mkWorld campaign_db (clock (sample_world campaign_db)) 1
                       (rand (sample_world campaign_db)) 0 [] [])
              (mkExn OverflowError "days must have magnitude <= 999999999")
              eq_refl)
    as (w2 & Hrun & _ & _ & _ & _ & Hst).
  - discriminate.
  - destruct (Hst far_past eq_refl) as [_ Hpaused].
    destruct (Hpaused eq_refl) as (row & Hrow & Hstatus & _).
    exists w2, row. split; [assumption|]. split; [assumption|].
    split; [assumption|reflexivity].
Defined.

Lemma render_failure_is_per_event_witness :
  exists w' e',
    process_customer format_first_name unclosed regular (mkTotals 0 0 0)
                     (sample_world campaign_db)
    = (Ok (mkTotals 1 0 1), w') /\
    filter (event_for 4 3) (events (db w')) = [e'] /\
    OutreachEvent.status e' = failed /\
    OutreachEvent.error_message e' = Some "expected '}' before end of string"%string.
Proof.
  destruct (render_failure_is_per_event format_first_name unclosed regular
              (mkTotals 0 0 0) (sample_world campaign_db)
              (mkExn FormatError "expected '}' before end of string")
              eq_refl)
    as (w' & e' & Hrun & Hfil & Hst & Herr & _).
  - split; constructor.
  - reflexivity.
  - intros e [].
  - exists w', e'. repeat split; assumption.
Defined.

Lemma pause_is_not_observed_witness :
  let w2 := sample_world (mkDB [] [] [Campaign.with_status paused big_spenders] []) in
  option_map Campaign.status (campaign_row (db w2) 1) = Some paused /\
  exists w3 row3,
    finish big_spenders 1 (mkTotals 201 201 0) w2
    = (Ok (ReturnSummary 1 (mkTotals 201 201 0)), w3) /\
    campaign_row (db w3) 1 = Some row3 /\
    Campaign.status row3 = completed.
Proof.
  intros w2. split; [reflexivity|].
  destruct (pause_is_not_observed format_first_name big_spenders 1 [] [] []
              (mkTotals 0 0 0) (sample_world campaign_db)) as (_ & _ & H).
  destruct (H (Campaign.with_status paused big_spenders) (mkTotals 201 201 0) w2
              eq_refl eq_refl) as (w3 & row3 & Hfin & Hrow & Hst & _).
  exists w3, row3. split; [assumption|]. split; assumption.
Defined.

(** C8 as it is written fails: with 201 selected customers the run has two
    batches; a pause stored after the first batch stops nothing, the second
    batch is processed, its customer is sent a message, and the final save
    replaces [paused] by [completed]. *)
Lemma pause_between_batches_is_ignored :
  let w0 := sample_world patrons_db in
  let zero := mkTotals 0 0 0 in
  let r1 := for_batches format_first_name big_spenders patron_ids [0] zero w0 in
  let r2 := campaign_pause big_spenders (snd r1) in
  let r3 := for_batches format_first_name big_spenders patron_ids [200]
                        (mkTotals 200 200 0) (snd r2) in
  let r4 := finish big_spenders 1 (mkTotals 201 201 0) (snd r3) in
  NoDup (map Customer.id (customers patrons_db)) /\
  NoDup (map Customer.email (customers patrons_db)) /\
  range_step (List.length patron_ids) batch_size = [0; 200] /\
  fst (run_campaign_task format_first_name 1 w0)
  = Ok (ReturnSummary 1 (mkTotals 201 201 0)) /\
  fst r1 = Ok (mkTotals 200 200 0) /\
  filter (event_for 1 1) (events (db (snd r1))) = [] /\
  option_map Campaign.status (campaign_row (db (snd r1)) 1) = Some running /\
  fst r2 = Ok tt /\
  option_map Campaign.status (campaign_row (db (snd r2)) 1) = Some paused /\
  fst r3 = Ok (mkTotals 201 201 0) /\
  map OutreachEvent.status (filter (event_for 1 1) (events (db (snd r3)))) = [sent] /\
  List.length (outbox (snd r3)) = 201 /\
  option_map Campaign.status (campaign_row (db (snd r3)) 1) = Some paused /\
  fst r4 = Ok (ReturnSummary 1 (mkTotals 201 201 0)) /\
  option_map Campaign.status (campaign_row (db (snd r4)) 1) = Some completed.
Proof.
  intros w0 zero r1 r2 r3 r4. split; [|split].
  - assert (E : nodup Nat.eq_dec (map Customer.id (customers patrons_db))
                = map Customer.id (customers patrons_db))
      by (vm_compute; reflexivity).
    rewrite <- E. apply NoDup_nodup.
  - assert (E : nodup string_dec (map Customer.email (customers patrons_db))
                = map Customer.email (customers patrons_db))
      by (vm_compute; reflexivity).
    rewrite <- E. apply NoDup_nodup.
  - vm_compute. repeat split; reflexivity.
Qed.

(** The segment of an [inactive_days] campaign, spelled out. *)
Lemma selected_by_inactive_days (campaign : Campaign.t) (w : World) (qs : QuerySet)
      (c : Customer.t) :
  Campaign.segment_type campaign = "inactive_days"%string ->
  selected_by campaign w = Some qs ->
  qs c = restaurant_customers campaign c &&
         inactive_before (clock w (clock_ix w)
                          - Campaign.segment_value campaign * US_PER_DAY)%Z c.
Proof.
  unfold selected_by, apply_segmentation. intros -> Hsel. cbn in Hsel.
  unfold bind in Hsel. rewrite inactive_days_run in Hsel.
  destruct (cutoff_representable _ _); [|discriminate].
  injection Hsel as <-. reflexivity.
Qed.

Lemma rerun_is_idempotent_witness :
  let w0 := sample_world campaign_db in
  let w1 := snd (run_campaign_task format_first_name 1 w0) in
  let w2 := snd (run_campaign_task format_first_name 1 w1) in
  events_ok (events (db w1)) /\ events_ok (events (db w2)) /\
  map OutreachEvent.status (events (db w1)) = [sent; sent] /\
  events (db w2) = events (db w1) /\
  List.length (outbox w1) = 2 /\
  outbox w2 = outbox w1 /\
  fst (run_campaign_task format_first_name 1 w1)
  = Ok (ReturnSummary 1 (mkTotals 0 0 0)).
Proof.
  intros w0 w1 w2.
  destruct (rerun_is_idempotent format_first_name 1 w0 w1 w2
              (fst (run_campaign_task format_first_name 1 w0))
              (fst (run_campaign_task format_first_name 1 w1)))
    as (H1 & H2 & _ & _ & _ & (sent_now & Hout & Hnone & Hall) & _).
  - split; constructor.
  - apply surjective_pairing.
  - apply surjective_pairing.
  - split; [assumption|]. split; [assumption|].
    split; [vm_compute; reflexivity|]. split; [vm_compute; reflexivity|].
    split; [vm_compute; reflexivity|]. split; [|vm_compute; reflexivity].
    assert (Hrow : campaign_row (db w1) 1
                   = Some (Campaign.with_status completed come_back))
      by (vm_compute; reflexivity).
    assert (Hnil : sent_now = []).
    { destruct (selected_by (Campaign.with_status completed come_back) w1)
        as [qs|] eqn:Hsel.
      - assert (Hnd : NoDup (map Customer.id (customers (db w1)))).
        { vm_compute. repeat constructor; simpl; intuition discriminate. }
        destruct (Hall _ qs Hrow Hsel Hnd) as (_ & _ & _ & Hnothing).
        apply Hnothing.
        intros c Hin Hq.
        assert (Hcu : customers (db w1) = [regular; lapsed; never_visited])
          by (vm_compute; reflexivity).
        rewrite Hcu in Hin.
        rewrite (selected_by_inactive_days
                   (Campaign.with_status completed come_back) w1 qs c
                   eq_refl Hsel) in Hq.
        destruct Hin as [<-|[<-|[<-|[]]]];
          first [vm_compute; reflexivity|vm_compute in Hq; discriminate Hq].
      - apply Hnone. unfold segment_of_run. rewrite Hrow. rewrite Hsel. reflexivity. }
    rewrite Hout, Hnil. reflexivity.
Defined.

(** C2 as it is written fails: the segment is resolved anew by each run.  A
    customer last seen exactly thirty days before the first run is not
    selected by it and is selected by a second run one clock tick later,
    which then adds a row. *)
Lemma second_run_can_add_a_row :
  let w0 := sample_world edge_db in
  let w1 := snd (run_campaign_task format_first_name 1 w0) in
  let w2 := snd (run_campaign_task format_first_name 1 w1) in
  fst (run_campaign_task format_first_name 1 w0)
  = Ok (ReturnSummary 1 (mkTotals 0 0 0)) /\
  events (db w1) = [] /\
  fst (run_campaign_task format_first_name 1 w1)
  = Ok (ReturnSummary 1 (mkTotals 1 1 0)) /\
  map event_key (events (db w2)) = [(1, 1)] /\
  List.length (events (db w2)) <> List.length (events (db w1)).
Proof. vm_compute. repeat split; try reflexivity. discriminate. Qed.

(** * Further properties of the code *)

(** ** Ledger: every outcome of [record_visit] *)

Lemma record_visit_inv (ref : CustomerRef) (spend : Z) (visited_at : option datetime)
      (w w' : World) (r : result Visit.t) :
  record_visit ref spend visited_at w = (r, w') ->
  (exists x, r = Raise x /\ db w' = db w) \/
  (exists c,
     customer_row (db w) (ref_pk ref) = Some c /\
     let at_ := match visited_at with
                | Some t => t | None => clock w (clock_ix w) end in
     let v := Visit.mk (next_id (map Visit.id (visits (db w)))) (Customer.id c)
                       at_ spend in
     r = Ok v /\
     db w' = mkDB (map (update_customer_totals
                          (Customer.mk (Customer.id c) (Customer.restaurant c)
                             (Customer.email c) (Customer.first_name c)
                             (Customer.last_name c)
                             (Customer.total_spend_cents c + spend)
                             (if later_than at_ (Customer.last_visit_at c)
                              then Some at_ else Customer.last_visit_at c)))
                       (customers (db w)))
                  (v :: visits (db w)) (campaigns (db w)) (events (db w)) /\
     in_int64 spend = true /\
     in_int64 (Customer.total_spend_cents c + spend) = true).
Proof.
  unfold record_visit, atomic. intros H.
  match type of H with
  | (match ?m w with _ => _ end) = _ => destruct (m w) as [[v|x] w1] eqn:Hm
  end.
  2:{ left. inversion H; subst. exists x. split; reflexivity. }
  inversion H; subst r w1. clear H. right.
  destruct (bind_inv Hm) as [(at_ & w0 & Hat & Hk)|(x & _ & Habs)]; [|discriminate].
  clear Hm.
  assert (Hat' : at_ = match visited_at with
                       | Some t => t | None => clock w (clock_ix w) end /\
                 db w0 = db w).
  { destruct visited_at; inversion Hat; split; reflexivity. }
  destruct Hat' as [-> Hd0]. clear Hat.
  destruct (bind_inv Hk) as [(c & w1 & Hg & Hk1)|(x & _ & Habs)]; [|discriminate].
  clear Hk.
  assert (Hc : customer_row (db w) (ref_pk ref) = Some c /\ db w1 = db w).
  { unfold get_customer_for_update in Hg.
    destruct (bind_inv Hg) as [(u & w2 & Hs & Hk2)|(x & _ & Habs)]; [|discriminate].
    pose proof (storage_db Hs) as Hd2. unfold bind, get_db in Hk2.
    unfold customer_row. rewrite <- Hd0, <- Hd2.
    destruct (filter _ (customers (db w2))) as [|c0 [|c1 rest]];
      inversion Hk2; subst. split; [reflexivity|congruence]. }
  destruct Hc as [Hrow Hd1]. clear Hg.
  exists c. split; [assumption|]. cbv zeta.
  destruct (bind_inv Hk1) as [(v' & w2 & Hcv & Hk2)|(x & _ & Habs)]; [|discriminate].
  clear Hk1.
  assert (Hv : v' = Visit.mk (next_id (map Visit.id (visits (db w)))) (Customer.id c)
                             (match visited_at with
                              | Some t => t | None => clock w (clock_ix w) end) spend /\
               db w2 = mkDB (customers (db w)) (v' :: visits (db w))
                            (campaigns (db w)) (events (db w)) /\
               in_int64 spend = true).
  { unfold create_visit in Hcv.
    destruct (bind_inv Hcv) as [(u & w3 & Hs & Hk3)|(x & _ & Habs)]; [|discriminate].
    pose proof (storage_db Hs) as Hd3.
    unfold bind, get_db, put_db, ret, out_of_range, raise in Hk3.
    destruct (in_int64 spend); [|discriminate].
    inversion Hk3; subst. cbn [db set_db]. rewrite Hd3, Hd1. repeat split. }
  destruct Hv as (-> & Hd2 & Hfit). clear Hcv.
  destruct (bind_inv Hk2) as [(u & w3 & Hs & Hk3)|(x & _ & Habs)]; [|discriminate].
  unfold ret in Hk3. inversion Hk3; subst v w3. clear Hk3 Hk2.
  split; [reflexivity|].
  unfold save_customer_totals in Hs.
  destruct (bind_inv Hs) as [(u' & w4 & Hs4 & Hk4)|(x & _ & Habs)]; [|discriminate].
  pose proof (storage_db Hs4) as Hd4.
  unfold bind, get_db, out_of_range, raise in Hk4.
  cbn [Customer.total_spend_cents] in Hk4.
  destruct (in_int64 (Customer.total_spend_cents c + spend)); [|discriminate].
  destruct (existsb _ (customers (db w4))); [|discriminate].
  unfold put_db in Hk4. inversion Hk4; subst. cbn [db set_db].
  rewrite Hd4, Hd2. repeat split; assumption.
Qed.

Lemma max_datetime_cons (t : datetime) (ts : list datetime) :
  max_datetime (t :: ts)
  = if later_than t (max_datetime ts) then Some t else max_datetime ts.
Proof.
  destruct (max_datetime ts) as [m|] eqn:E.
  - apply max_datetime_spec in E. destruct E as [Hin Hle].
    unfold later_than. destruct (Z.ltb_spec m t).
    + apply max_datetime_spec. split; [left; reflexivity|].
      intros x [<-|Hx]; [lia|]. specialize (Hle x Hx). lia.
    + apply max_datetime_spec. split; [right; assumption|].
      intros x [<-|Hx]; [lia|auto].
  - destruct ts; [reflexivity|discriminate].
Qed.

Lemma customer_row_unique (d : DB) (k : pk) (c c0 : Customer.t) :
  customer_row d k = Some c -> In c0 (customers d) -> Customer.id c0 = k -> c0 = c.
Proof.
  unfold customer_row. intros Hrow Hin Hid.
  assert (Hf : In c0 (filter (fun x => Customer.id x =? k)%nat (customers d))).
  { apply filter_In. split; [assumption|]. apply Nat.eqb_eq. assumption. }
  destruct (filter _ (customers d)) as [|c1 [|c2 rest]]; try discriminate.
  injection Hrow as ->. destruct Hf as [->|[]]. reflexivity.
Qed.

(** X1. [record_visit] keeps the ledger consistent, whatever its outcome:
    if every customer's [total_spend_cents] is the sum of the customer's
    visits and [last_visit_at] the latest of them, this is still so after the
    call, whether it returned a visit or raised. *)
Theorem record_visit_keeps_ledger
        (ref : CustomerRef) (spend : Z) (visited_at : option datetime)
        (w w' : World) (r : result Visit.t) :
  ledger_consistent (db w) ->
  record_visit ref spend visited_at w = (r, w') ->
  ledger_consistent (db w').
Proof.
  intros Hcons Hrun.
  destruct (record_visit_inv _ _ _ _ _ _ Hrun) as [(x & _ & ->)|(c & Hrow & H)];
    [assumption|].
  cbv zeta in H. destruct H as (_ & Hdb & _). rewrite Hdb. clear Hdb Hrun.
  destruct (customer_row_In Hrow) as [Hinc Hidc].
  set (at_ := match visited_at with Some t => t | None => clock w (clock_ix w) end) in *.
  intros c1 Hin1. cbn [customers] in Hin1.
  apply in_map_iff in Hin1. destruct Hin1 as (c0 & <- & Hin0).
  unfold visits_of. cbn [visits]. rewrite update_customer_totals_id.
  cbn [filter Visit.customer].
  unfold update_customer_totals. cbn [Customer.id].
  destruct (Nat.eqb_spec (Customer.id c0) (Customer.id c)) as [Heq|Hne].
  - assert (c0 = c).
    { eapply customer_row_unique; [exact Hrow|assumption|congruence]. }
    subst c0. rewrite Nat.eqb_refl.
    cbn [Customer.total_spend_cents Customer.last_visit_at map fold_right
         Visit.spend_cents Visit.visited_at].
    destruct (Hcons c Hinc) as [Htot Hlast]. unfold visits_of in Htot, Hlast.
    split.
    + rewrite Htot. lia.
    + rewrite max_datetime_cons, <- Hlast. reflexivity.
  - assert (E : (Customer.id c =? Customer.id c0)%nat = false)
      by (apply Nat.eqb_neq; congruence).
    rewrite E. apply (Hcons c0 Hin0).
Qed.

Lemma record_visit_keeps_ledger_witness :
  ledger_consistent
    (db (snd (record_visit (ById 1) 5000 None (sample_world fresh_db)))).
Proof.
  apply (record_visit_keeps_ledger (ById 1) 5000 None (sample_world fresh_db) _
           (fst (record_visit (ById 1) 5000 None (sample_world fresh_db)))).
  - intros c [<-|[]]. split; reflexivity.
  - apply surjective_pairing.
Defined.

(** X2. [record_visit] is all or nothing and touches only its customer: when
    it raises, the database is as before; when it returns a visit, that
    visit, with a key no visit had and an amount that fits its column, is
    the only new row, no customer is added or removed, the rows of the other
    customers are as before, and so are the campaigns and the events. *)
Theorem record_visit_all_or_nothing
        (ref : CustomerRef) (spend : Z) (visited_at : option datetime)
        (w w' : World) (r : result Visit.t) :
  record_visit ref spend visited_at w = (r, w') ->
  match r with
  | Raise _ => db w' = db w
  | Ok v =>
      visits (db w') = v :: visits (db w) /\
      ~ In (Visit.id v) (map Visit.id (visits (db w))) /\
      Visit.customer v = ref_pk ref /\ Visit.spend_cents v = spend /\
      map Customer.id (customers (db w')) = map Customer.id (customers (db w)) /\
      (forall c, In c (customers (db w)) -> Customer.id c <> ref_pk ref ->
                 In c (customers (db w'))) /\
      campaigns (db w') = campaigns (db w) /\
      events (db w') = events (db w) /\
      in_int64 spend = true
  end.
Proof.
  intros Hrun.
  destruct (record_visit_inv _ _ _ _ _ _ Hrun) as [(x & -> & Hd)|(c & Hrow & H)];
    [assumption|].
  cbv zeta in H. destruct H as (-> & Hdb & Hfit & _). rewrite Hdb.
  cbn [visits customers campaigns events].
  destruct (customer_row_In Hrow) as [_ Hid].
  split; [reflexivity|]. split; [apply next_id_fresh|].
  split; [exact Hid|]. split; [reflexivity|].
  split; [|split; [|split; [reflexivity|split; [reflexivity|exact Hfit]]]].
  - rewrite map_map. apply map_ext. intros. apply update_customer_totals_id.
  - intros c0 Hin Hne. apply in_map_iff. exists c0. split; [|assumption].
    unfold update_customer_totals. cbn [Customer.id].
    destruct (Nat.eqb_spec (Customer.id c0) (Customer.id c)); [congruence|reflexivity].
Qed.

(** X3. For a customer id that no row has, [record_visit] raises and leaves
    the database as it was; the exception is [Customer.DoesNotExist] when
    the lookup is answered. *)
Theorem record_visit_missing_customer
        (ref : CustomerRef) (spend : Z) (visited_at : option datetime) (w : World) :
  (forall c, In c (customers (db w)) -> Customer.id c <> ref_pk ref) ->
  exists x w',
    record_visit ref spend visited_at w = (Raise x, w') /\
    db w' = db w /\
    (hd None (faults w) = None -> exn_class x = CustomerDoesNotExist).
Proof.
  intros Hno.
  assert (Hfil : filter (fun c => Customer.id c =? ref_pk ref)%nat
                        (customers (db w)) = []).
  { destruct (filter _ _) as [|c rest] eqn:E; [reflexivity|].
    assert (Hin : In c (filter (fun c => Customer.id c =? ref_pk ref)%nat
                               (customers (db w)))) by (rewrite E; left; reflexivity).
    apply filter_In in Hin. destruct Hin as [Hin Hid]. apply Nat.eqb_eq in Hid.
    exfalso. eapply Hno; eassumption. }
  destruct (record_visit ref spend visited_at w) as [r w'] eqn:Hrun.
  destruct (record_visit_inv _ _ _ _ _ _ Hrun) as [(x & -> & Hd)|(c & Hrow & _)].
  2:{ unfold customer_row in Hrow. rewrite Hfil in Hrow. discriminate. }
  exists x, w'. split; [reflexivity|]. split; [assumption|].
  intros Hf. revert Hrun.
  unfold record_visit, atomic, get_customer_for_update.
  destruct w as [d clk ix rnd rix fl ob]. cbn [faults db] in *.
  destruct fl as [|[msg|] fs]; try discriminate;
    destruct visited_at as [t|];
    unfold bind, storage, timezone_now, ret, get_db, get_one, raise;
    cbn [faults db]; rewrite Hfil; intros E; inversion E; reflexivity.
Qed.

Lemma record_visit_missing_customer_witness :
  exists x w',
    record_visit (ById 9) 5000 None (sample_world fresh_db) = (Raise x, w') /\
    db w' = fresh_db /\ exn_class x = CustomerDoesNotExist.
Proof.
  destruct (record_visit_missing_customer (ById 9) 5000 None (sample_world fresh_db))
    as (x & w' & Hrun & Hdb & Hx).
  - intros c [<-|[]]. discriminate.
  - exists x, w'. split; [assumption|]. split; [assumption|]. apply Hx. reflexivity.
Defined.

(** X4. A recorded visit adds its amount to the customer's total and moves
    [last_visit_at] forward only: afterwards it is the later of the previous
    value and the visit's time, so a visit recorded late, with an earlier
    [visited_at], leaves it as it was. *)
Theorem record_visit_last_visit_is_latest
        (ref : CustomerRef) (spend : Z) (visited_at : option datetime)
        (w w' : World) (v : Visit.t) (c : Customer.t) :
  customer_row (db w) (ref_pk ref) = Some c ->
  record_visit ref spend visited_at w = (Ok v, w') ->
  exists c',
    customer_row (db w') (ref_pk ref) = Some c' /\
    Customer.total_spend_cents c' = (Customer.total_spend_cents c + spend)%Z /\
    Customer.last_visit_at c'
    = Some (match Customer.last_visit_at c with
            | None => Visit.visited_at v
            | Some l => Z.max l (Visit.visited_at v)
            end) /\
    (forall t, visited_at = Some t -> Visit.visited_at v = t) /\
    Customer.email c' = Customer.email c /\
    Customer.first_name c' = Customer.first_name c /\
    Customer.restaurant c' = Customer.restaurant c.
Proof.
  intros Hrow Hrun.
  destruct (record_visit_inv _ _ _ _ _ _ Hrun) as [(x & Habs & _)|(c0 & Hrow0 & H)];
    [discriminate|].
  assert (c0 = c) by congruence. subst c0.
  cbv zeta in H. destruct H as (Hv & Hdb & _). injection Hv as ->.
  destruct (customer_row_In Hrow) as [_ Hid].
  eexists. split.
  - rewrite Hdb. unfold customer_row. cbn [customers].
    rewrite filter_update_customer. unfold customer_row in Hrow.
    destruct (filter _ (customers (db w))) as [|c1 [|c2 rest]]; try discriminate.
    injection Hrow as ->. cbn [map]. unfold update_customer_totals. cbn [Customer.id].
    rewrite Nat.eqb_refl. reflexivity.
  - cbn [Customer.total_spend_cents Customer.last_visit_at Visit.visited_at
         Customer.email Customer.first_name Customer.restaurant].
    split; [reflexivity|]. split; [|split; [|repeat split]].
    + unfold later_than. destruct (Customer.last_visit_at c) as [l|]; [|reflexivity].
      generalize (match visited_at with
                  | Some t => t | None => clock w (clock_ix w) end).
      intros at_. destruct (Z.ltb_spec l at_); f_equal; lia.
    + intros t ->. reflexivity.
Qed.

Lemma record_visit_last_visit_is_latest_witness :
  exists c',
    customer_row
      (db (snd (record_visit (ById 2) 1200 (Some (days_ago 40))
                             (sample_world sample_db)))) 2 = Some c' /\
    Customer.last_visit_at c' = Some (days_ago 35).
Proof.
  destruct (record_visit_last_visit_is_latest (ById 2) 1200 (Some (days_ago 40))
              (sample_world sample_db)
              (snd (record_visit (ById 2) 1200 (Some (days_ago 40))
                                 (sample_world sample_db)))
              (Visit.mk 1 2 (days_ago 40) 1200) lapsed eq_refl eq_refl)
    as (c' & Hrow & _ & Hlast & _).
  exists c'. split; [exact Hrow|]. rewrite Hlast. reflexivity.
Defined.

(** ** Segmentation: how the filters compose *)

(** X5. The two segment filters only narrow the queryset they are given and
    can be chained in either order: two spending thresholds amount to the
    larger one, and [inactive_days] applied after [high_spenders] selects the
    same customers, reads the clock as often and fails in the same cases as
    [high_spenders] applied after [inactive_days]. *)
Theorem segment_filters_compose
        (qs : QuerySet) (a b days : Z) (w : World) (c : Customer.t) :
  high_spenders (high_spenders qs a) b c = high_spenders qs (Z.max a b) c /\
  high_spenders (high_spenders qs a) b c = high_spenders (high_spenders qs b) a c /\
  (high_spenders qs a c = true -> qs c = true) /\
  snd (inactive_days (high_spenders qs a) days w) = snd (inactive_days qs days w) /\
  match inactive_days qs days w, inactive_days (high_spenders qs a) days w with
  | (Ok q1, _), (Ok q2, _) =>
      q2 c = high_spenders q1 a c /\ (q1 c = true -> qs c = true)
  | (Raise e1, _), (Raise e2, _) => e1 = e2
  | _, _ => False
  end.
Proof.
  unfold high_spenders. repeat split.
  - destruct (qs c); simpl; [|reflexivity].
    destruct (Z.leb_spec a (Customer.total_spend_cents c)),
             (Z.leb_spec b (Customer.total_spend_cents c)),
             (Z.leb_spec (Z.max a b) (Customer.total_spend_cents c));
      simpl; try reflexivity; lia.
  - destruct (qs c); simpl; [|reflexivity]. apply andb_comm.
  - intros H. apply andb_prop in H. tauto.
  - rewrite !inactive_days_run. reflexivity.
  - rewrite !inactive_days_run.
    destruct (cutoff_representable (clock w (clock_ix w)) days); [|reflexivity].
    split.
    + destruct (qs c); simpl; [|reflexivity].
      destruct (a <=? Customer.total_spend_cents c)%Z; simpl;
        [rewrite andb_true_r; reflexivity|rewrite andb_false_r; reflexivity].
    + intros H. apply andb_prop in H. tauto.
Qed.

(** X6. Raising a threshold narrows the segment: a customer selected with a
    higher minimum spend is selected with any lower one, and a customer
    inactive for more days is selected for any smaller number of days, at
    the same clock reading. *)
Theorem segment_thresholds_are_monotone
        (qs : QuerySet) (a b days1 days2 : Z) (w : World) (c : Customer.t)
        (q1 q2 : QuerySet) (w1 w2 : World) :
  (a <= b)%Z -> (days1 <= days2)%Z ->
  inactive_days qs days1 w = (Ok q1, w1) ->
  inactive_days qs days2 w = (Ok q2, w2) ->
  (high_spenders qs b c = true -> high_spenders qs a c = true) /\
  (q2 c = true -> q1 c = true).
Proof.
  intros Hab Hd H1 H2. split.
  - unfold high_spenders. intros H. apply andb_prop in H. destruct H as [Hq Hle].
    rewrite Hq. apply Z.leb_le in Hle. apply Z.leb_le. lia.
  - rewrite inactive_days_run in H1, H2.
    destruct (cutoff_representable _ days1); [|discriminate].
    destruct (cutoff_representable _ days2); [|discriminate].
    injection H1 as <- _. injection H2 as <- _.
    intros H. apply andb_prop in H. destruct H as [Hq Hi]. rewrite Hq. simpl.
    unfold inactive_before in *. destruct (Customer.last_visit_at c) as [t|]; [|reflexivity].
    apply Z.ltb_lt in Hi. apply Z.ltb_lt. unfold US_PER_DAY in *. lia.
Qed.

Lemma segment_thresholds_are_monotone_witness :
  high_spenders (fun _ => true) 8000 regular = true /\
  high_spenders (fun _ => true) 5000 regular = true.
Proof.
  split; [reflexivity|].
  apply (segment_thresholds_are_monotone (fun _ => true) 5000 8000 30 60
           (sample_world sample_db) regular
           (fun c => true && inactive_before (sample_now + Z.of_nat 0 - 30 * US_PER_DAY)%Z c)
           (fun c => true && inactive_before (sample_now + Z.of_nat 0 - 60 * US_PER_DAY)%Z c)
           (mkWorld sample_db (clock (sample_world sample_db)) 1
                    (rand (sample_world sample_db)) 0 [] [])
           (mkWorld sample_db (clock (sample_world sample_db)) 1
                    (rand (sample_world sample_db)) 0 [] []));
    try reflexivity; lia.
Defined.

(** ** Batching *)

(** X7. The batches partition the id list: the slices [ids[i:i+200]] taken at
    the indices [range(0, len(ids), 200)], put end to end, are the list
    again, and each slice holds between 1 and 200 ids. *)
Theorem batches_partition_ids {A} (ids : list A) :
  List.concat (map (fun i => slice ids i (i + batch_size))
              (range_step (List.length ids) batch_size)) = ids /\
  Forall (fun i => 1 <= List.length (slice ids i (i + batch_size)) <= batch_size)
         (range_step (List.length ids) batch_size) /\
  (ids = [] -> range_step (List.length ids) batch_size = []).
Proof.
  split; [apply concat_batches|]. unfold range_step, slice, batch_size. split.
  - apply Forall_forall. intros i Hi. apply in_map_iff in Hi.
    destruct Hi as (j & <- & Hj). apply in_seq in Hj.
    replace (j * 200 + 200 - j * 200) with 200 by lia.
    rewrite length_firstn, length_skipn.
    pose proof (Nat.div_mod_eq (List.length ids + 200 - 1) 200).
    pose proof (Nat.mod_upper_bound (List.length ids + 200 - 1) 200). lia.
  - intros ->. reflexivity.
Qed.

(** ** The event table under a run *)

Lemma has_status_field (fields : list OutreachEvent.field) :
  In OutreachEvent.f_status fields ->
  existsb (OutreachEvent.field_eqb OutreachEvent.f_status) fields = true.
Proof.
  intros H. apply existsb_exists. exists OutreachEvent.f_status. auto.
Qed.

Lemma evolves_persist {camp : pk} {P : pk -> Prop} {evs evs' : list OutreachEvent.t} :
  evolves camp P evs evs' ->
  forall e, In e evs ->
    exists e', In e' evs' /\
               OutreachEvent.id e' = OutreachEvent.id e /\
               event_key e' = event_key e /\
               OutreachEvent.channel e' = OutreachEvent.channel e /\
               (OutreachEvent.status e <> queued -> OutreachEvent.status e' <> queued).
Proof.
  induction 1 as [|evs1 cust Hev IH HP Hnil
                  |evs1 e0 ev fields Hev IH Hin0 Hcamp HP0 Hterm Hid Hst Hf];
    intros e Hin.
  - exists e. auto.
  - destruct (IH e Hin) as (e' & Hin' & H'). exists e'. split; [right; assumption|exact H'].
  - destruct (IH e Hin) as (e' & Hin' & Hid' & Hkey' & Hch' & Hq').
    exists (update_event fields ev e'). split; [apply in_map; assumption|].
    rewrite update_event_id, update_event_key.
    split; [assumption|]. split; [assumption|].
    unfold update_event.
    destruct (OutreachEvent.id e' =? OutreachEvent.id ev)%nat; [|auto].
    cbn [OutreachEvent.channel OutreachEvent.status]. split; [assumption|].
    intros _. rewrite (has_status_field fields Hf).
    destruct Hst as [-> | ->]; discriminate.
Qed.

Lemma evolves_no_new_skipped {camp : pk} {P : pk -> Prop}
      {evs evs' : list OutreachEvent.t} :
  evolves camp P evs evs' ->
  forall e', In e' evs' -> OutreachEvent.status e' = skipped -> In e' evs.
Proof.
  induction 1 as [|evs1 cust Hev IH HP Hnil
                  |evs1 e0 ev fields Hev IH Hin0 Hcamp HP0 Hterm Hid Hst Hf];
    intros e' Hin' Hsk.
  - assumption.
  - destruct Hin' as [<-|Hin']; [discriminate Hsk|auto].
  - apply in_map_iff in Hin'. destruct Hin' as (row & <- & Hrow).
    unfold update_event in *.
    destruct (OutreachEvent.id row =? OutreachEvent.id ev)%nat; [|auto].
    cbn [OutreachEvent.status] in Hsk. rewrite (has_status_field fields Hf) in Hsk.
    destruct Hst as [E|E]; rewrite E in Hsk; discriminate.
Qed.

Lemma evolves_other_campaigns {camp : pk} {P : pk -> Prop}
      {evs evs' : list OutreachEvent.t} :
  evolves camp P evs evs' -> events_ok evs ->
  forall e', In e' evs' -> OutreachEvent.campaign e' <> camp -> In e' evs.
Proof.
  induction 1 as [|evs1 cust Hev IH HP Hnil
                  |evs1 e0 ev fields Hev IH Hin0 Hcamp HP0 Hterm Hid Hst Hf];
    intros Hok e' Hin' Hne.
  - assumption.
  - destruct Hin' as [<-|Hin']; [exfalso; apply Hne; reflexivity|auto].
  - apply in_map_iff in Hin'. destruct Hin' as (row & <- & Hrow).
    destruct (Nat.eq_dec (OutreachEvent.id row) (OutreachEvent.id ev)) as [Heq|Hneq].
    + exfalso. apply Hne.
      assert (row = e0).
      { apply (NoDup_map_eq OutreachEvent.id evs1);
          [apply (proj1 (evolves_ok Hev Hok))|assumption|assumption|congruence]. }
      subst row.
      pose proof (update_event_key fields ev e0) as Hk. unfold event_key in Hk.
      congruence.
    + rewrite (update_event_other _ _ _ Hneq) in *. auto.
Qed.

Lemma saved_row (fields : list OutreachEvent.field) (ev e0 : OutreachEvent.t)
      (evs : list OutreachEvent.t) :
  In e0 evs -> OutreachEvent.id ev = OutreachEvent.id e0 ->
  In OutreachEvent.f_status fields ->
  OutreachEvent.status ev = sent \/ OutreachEvent.status ev = failed ->
  exists e', In e' (map (update_event fields ev) evs) /\
             event_key e' = event_key e0 /\
             OutreachEvent.status e' <> queued.
Proof.
  intros Hin Hid Hf Hst. exists (update_event fields ev e0).
  split; [apply in_map; assumption|]. split; [apply update_event_key|].
  unfold update_event. rewrite Hid, Nat.eqb_refl.
  cbn [OutreachEvent.status]. rewrite (has_status_field fields Hf).
  destruct Hst as [-> | ->]; discriminate.
Qed.

Section PipelineMore.

Variable str_format : string -> string -> result string.

(** One turn of the inner loop that does not raise: the customer's row
    holds an outcome, and the counters stay within their bounds. *)
Lemma process_customer_done {campaign : Campaign.t} {customer : Customer.t}
      {t t' : Totals} {w w' : World} :
  process_customer str_format campaign customer t w = (Ok t', w') ->
  (counts_bounded t -> counts_bounded t') /\
  exists e', In e' (events (db w')) /\
             event_key e' = (Campaign.id campaign, Customer.id customer) /\
             OutreachEvent.status e' <> queued.
Proof.
  unfold process_customer, process_event. intros H.
  destruct (bind_inv H) as [([e0 b] & w1 & Hg & Hk)|(x & _ & Habs)];
    [|discriminate]. clear H.
  destruct (get_or_create_event_inv Hg)
    as [_ [(y & Hr & _)|(e0' & b' & Hr & Hin & Hkey & _)]]; [discriminate|].
  injection Hr as <- <-. clear Hg.
  destruct (terminal (OutreachEvent.status e0)) eqn:Hterm.
  { unfold ret in Hk. inversion Hk; subst. split; [auto|].
    exists e0. repeat split; try assumption.
    intros E. rewrite E in Hterm. discriminate. }
  assert (Hfail :
    forall (ev : OutreachEvent.t) (t0 : Totals) (x : exn) (wa : World),
      events (db wa) = events (db w1) ->
      OutreachEvent.id ev = OutreachEvent.id e0 ->
      event_failed ev t0 x wa = (Ok t', w') ->
      t' = add_processed (add_failed t0) /\
      exists e', In e' (events (db w')) /\
                 event_key e' = (Campaign.id campaign, Customer.id customer) /\
                 OutreachEvent.status e' <> queued).
  { intros ev t0 x wa Ha Hid Hf.
    destruct (event_failed_inv Hf) as [_ [[Hr Hev]|(y & Hy & _)]]; [|discriminate].
    injection Hr as ->. split; [reflexivity|].
    rewrite Hev, Ha, <- Hkey. apply saved_row; simpl; auto. }
  destruct (str_format (Campaign.message_template campaign)
                       (Customer.first_name customer)) as [message|x].
  2:{ destruct (Hfail e0 t x w1 eq_refl eq_refl Hk) as [-> Hrow].
      split; [|exact Hrow]. unfold counts_bounded. simpl. lia. }
  destruct (bind_inv Hk) as [(u & w2 & Hs1 & Hk2)|(y & Hs1 & _)];
    [|discriminate Hs1]. clear Hk.
  assert (Hd2 : db w2 = db w1) by (inversion Hs1; reflexivity).
  destruct (bind_inv Hk2) as [(success & w3 & Hs2 & Hk3)|(y & Hs2 & _)];
    [|discriminate Hs2]. clear Hk2.
  assert (Hd3 : db w3 = db w2) by (inversion Hs2; reflexivity).
  destruct (bind_inv Hk3) as [([ev t1] & w4 & Hs3 & Hk4)|(y & Hs3 & _)];
    [|destruct success; discriminate Hs3]. clear Hk3.
  assert (Hev4 : db w4 = db w3 /\ OutreachEvent.id ev = OutreachEvent.id e0 /\
                 (OutreachEvent.status ev = sent \/ OutreachEvent.status ev = failed) /\
                 (t1 = add_sent t \/ t1 = add_failed t)).
  { destruct success; inversion Hs3; subst; simpl; auto. }
  destruct Hev4 as (Hd4 & Hid4 & Hst4 & Ht1).
  assert (Hdb4 : db w4 = db w1) by congruence.
  unfold try_except in Hk4.
  match type of Hk4 with
  | context [bind (save_event ?f ev) ?k w4] =>
      destruct (bind (save_event f ev) k w4) as [[t2|y] wb] eqn:Hs
  end.
  - inversion Hk4; subst t2 wb; clear Hk4.
    destruct (bind_inv Hs) as [(u' & w0 & Hs' & Hk')|(y & _ & Habs)]; [|discriminate].
    destruct (save_event_inv Hs') as [_ [[_ Hev]|(y & Hy & _)]]; [|discriminate].
    unfold ret in Hk'. inversion Hk'; subst.
    rewrite Hdb4 in Hev. split.
    + unfold counts_bounded. destruct Ht1 as [-> | ->]; simpl; lia.
    + rewrite Hev, <- Hkey. apply saved_row; simpl; auto.
  - destruct (bind_inv Hs) as [(u' & w0 & Hs' & Hk')|(z & Hs' & Hz)];
      [unfold ret in Hk'; discriminate|].
    injection Hz as <-.
    destruct (save_event_inv Hs') as [_ [[Hy _]|(z & _ & _ & Hev)]]; [discriminate|].
    assert (Ha : events (db wb) = events (db w1)) by (rewrite Hev, Hdb4; reflexivity).
    destruct (Hfail ev t1 y wb Ha Hid4 Hk4) as [-> Hrow].
    split; [|exact Hrow].
    unfold counts_bounded. destruct Ht1 as [-> | ->]; simpl; lia.
Qed.

Lemma for_customers_done {campaign : Campaign.t} {batch : list Customer.t} :
  forall (t t' : Totals) (w w' : World),
    for_customers str_format campaign batch t w = (Ok t', w') ->
    (counts_bounded t -> counts_bounded t') /\
    forall c, In c batch ->
      exists e', In e' (events (db w')) /\
                 event_key e' = (Campaign.id campaign, Customer.id c) /\
                 OutreachEvent.status e' <> queued.
Proof.
  induction batch as [|c rest IH]; intros t t' w w' H; simpl in H.
  - unfold ret in H. inversion H; subst. split; [auto|]. intros c [].
  - destruct (bind_inv H) as [(t1 & w1 & Hp & Hk)|(x & _ & Habs)]; [|discriminate].
    destruct (process_customer_done Hp) as (Hc1 & e1 & Hin1 & Hkey1 & Hst1).
    destruct (IH _ _ _ _ Hk) as (Hc2 & Hrows).
    split; [auto|]. intros c' [<-|Hin]; [|auto].
    destruct (for_customers_inv str_format _ _ _ _ Hk) as (_ & Hev & _).
    destruct (evolves_persist Hev e1 Hin1) as (e' & Hin' & _ & Hk' & _ & Hq').
    exists e'. split; [assumption|]. split; [congruence|auto].
Qed.

Lemma for_batches_done {campaign : Campaign.t} {customer_ids : list pk}
      {starts : list nat} :
  forall (t t' : Totals) (w w' : World),
    for_batches str_format campaign customer_ids starts t w = (Ok t', w') ->
    (counts_bounded t -> counts_bounded t') /\
    forall i c, In i starts -> In c (customers (db w)) ->
      In (Customer.id c) (slice customer_ids i (i + batch_size)) ->
      exists e', In e' (events (db w')) /\
                 event_key e' = (Campaign.id campaign, Customer.id c) /\
                 OutreachEvent.status e' <> queued.
Proof.
  induction starts as [|i rest IH]; intros t t' w w' H; simpl in H.
  - unfold ret in H. inversion H; subst. split; [auto|]. intros i c [].
  - destruct (bind_inv H) as [(cs & w1 & Hq & Hk)|(x & _ & Habs)]; [|discriminate].
    destruct (customers_id_in_inv Hq) as [Hd Hcs]. specialize (Hcs cs eq_refl).
    destruct (bind_inv Hk) as [(t1 & w2 & Hc & Hk2)|(x & _ & Habs)]; [|discriminate].
    destruct (for_customers_done _ _ _ _ Hc) as (Hc1 & Hrows1).
    destruct (IH _ _ _ _ Hk2) as (Hc2 & Hrows2).
    destruct (for_customers_inv str_format _ _ _ _ Hc) as ((Hcu & _) & _).
    rewrite Hd in Hcu. rewrite Hcu in Hrows2.
    split; [auto|]. intros j c [<-|Hin] Hc' Hsl; [|eauto].
    assert (Hincs : In c cs).
    { rewrite Hcs. apply filter_In. split; [assumption|].
      apply mem_pk_In. assumption. }
    destruct (Hrows1 c Hincs) as (e1 & Hin1 & Hkey1 & Hst1).
    destruct (for_batches_inv str_format _ _ _ _ Hk2) as (_ & Hev & _).
    destruct (evolves_persist Hev e1 Hin1) as (e' & Hin' & _ & Hk' & _ & Hq').
    exists e'. split; [assumption|]. split; [congruence|auto].
Qed.

(** X8. A run of a campaign leaves the customers, the visits, the rows of the
    other campaigns and the events of the other campaigns exactly as they
    were, whatever the storage does and however the run ends; the event
    table still satisfies its uniqueness constraints. *)
Theorem run_touches_only_its_campaign (campaign_id : pk) (w w' : World)
        (r : result TaskReturn) :
  events_ok (events (db w)) ->
  run_campaign_task str_format campaign_id w = (r, w') ->
  customers (db w') = customers (db w) /\
  visits (db w') = visits (db w) /\
  (forall k, k <> campaign_id -> campaign_row (db w') k = campaign_row (db w) k) /\
  (forall e, OutreachEvent.campaign e <> campaign_id ->
     (In e (events (db w')) <-> In e (events (db w)))) /\
  events_ok (events (db w')).
Proof.
  intros Hok Hrun.
  destruct (run_campaign_task_events str_format Hrun) as (Hcu & Hvi & _).
  pose proof (run_campaign_task_evolves str_format Hrun) as Hev.
  split; [assumption|]. split; [assumption|]. split; [|split].
  - assert (Hbody : forall rb wb, task_body str_format campaign_id w = (rb, wb) ->
              forall k, k <> campaign_id ->
                campaign_row (db wb) k = campaign_row (db w) k).
    { intros rb wb Hb k Hk.
      destruct (task_body_inv str_format Hb)
        as [[Hd _]|(c & qs & w3 & rl & w4 & Hc & _ & Hd3 & Hl & Hfin)].
      - rewrite Hd. reflexivity.
      - destruct (campaign_row_In Hc) as [_ Hid].
        destruct (for_batches_inv str_format _ _ _ _ Hl) as ((_ & _ & Hca) & _).
        rewrite Hd3 in Hca.
        assert (Hrow4 : campaign_row (db w4) (Campaign.id c) = Some c).
        { rewrite Hid, (campaign_row_ext (db w) (db w4)); assumption. }
        destruct rl as [t|x].
        + unfold finish in Hfin.
          destruct (bind_inv Hfin) as [(u & w5 & Hs & Hk5)|(y & Hs & _)].
          * unfold ret in Hk5. injection Hk5 as _ Hwb. rewrite <- Hwb.
            destruct (save_campaign_status_inv Hs)
              as (_ & _ & _ & [[_ Hsave]|(y & Hy & _)]); [|discriminate].
            rewrite (campaign_row_saved (db w4) (db w5) c completed k Hrow4 Hsave).
            rewrite Hid. apply Nat.eqb_neq in Hk. rewrite Hk.
            apply campaign_row_ext. assumption.
          * destruct (save_campaign_status_inv Hs)
              as (_ & _ & _ & [[Habs _]|(z & _ & Hsame)]); [discriminate|].
            apply campaign_row_ext. congruence.
        + destruct Hfin as [_ ->]. apply campaign_row_ext. assumption. }
    intros k Hk.
    destruct (run_campaign_task_inv str_format Hrun)
      as [(out & -> & Hb)|[(x & Hc & -> & Hb)|(x & w1 & Hc & Hb & Hp)]].
    + apply (Hbody _ _ Hb k Hk).
    + apply (Hbody _ _ Hb k Hk).
    + destruct (pause_on_error_inv Hp) as (_ & _ & _ & _ & _ & Hothers & _).
      rewrite (Hothers k Hk). apply (Hbody _ _ Hb k Hk).
  - intros e Hne. split.
    + intros Hin. apply (evolves_other_campaigns Hev Hok e Hin Hne).
    + intros Hin. apply (evolves_keeps Hev Hok Hin). right. left. assumption.
  - apply (evolves_ok Hev Hok).
Qed.

(** X9. A run never deletes an event row and never renumbers or re-addresses
    one: every row is still there under the same primary key, for the same
    campaign and customer and on the same channel, and a row that had left
    [queued] does not return to it.  A run marks no row [skipped]: the rows
    that are [skipped] afterwards were so before, unchanged. *)
Theorem run_keeps_every_row (campaign_id : pk) (w w' : World)
        (r : result TaskReturn) :
  run_campaign_task str_format campaign_id w = (r, w') ->
  (forall e, In e (events (db w)) ->
     exists e', In e' (events (db w')) /\
                OutreachEvent.id e' = OutreachEvent.id e /\
                event_key e' = event_key e /\
                OutreachEvent.channel e' = OutreachEvent.channel e /\
                (OutreachEvent.status e <> queued ->
                 OutreachEvent.status e' <> queued)) /\
  (forall e', In e' (events (db w')) -> OutreachEvent.status e' = skipped ->
     In e' (events (db w))).
Proof.
  intros Hrun.
  pose proof (run_campaign_task_evolves str_format Hrun) as Hev.
  split.
  - apply (evolves_persist Hev).
  - apply (evolves_no_new_skipped Hev).
Qed.

(** X10. When a run returns its summary, every customer of the segment has an
    event row of the campaign that is no longer [queued], and the counters
    of the summary satisfy sent <= processed <= sent + failed; this holds
    whatever the storage did on the way. *)
Theorem summary_means_segment_is_done (campaign_id c0 : pk) (w w' : World)
        (t : Totals) :
  run_campaign_task str_format campaign_id w = (Ok (ReturnSummary c0 t), w') ->
  c0 = campaign_id /\ counts_bounded t /\
  exists campaign qs,
    campaign_row (db w) campaign_id = Some campaign /\
    selected_by campaign w = Some qs /\
    forall c, In c (customers (db w)) -> qs c = true ->
      exists e', In e' (events (db w')) /\
                 event_key e' = (campaign_id, Customer.id c) /\
                 OutreachEvent.status e' <> queued.
Proof.
  intros Hrun.
  destruct (run_campaign_task_inv str_format Hrun)
    as [(out & Hout & Hb)|[(x & _ & Habs & _)|(x & w1 & _ & _ & Hp)]].
  2:{ discriminate. }
  2:{ destruct (pause_on_error_inv Hp) as (Habs & _). discriminate. }
  injection Hout as <-.
  destruct (task_body_inv str_format Hb)
    as [[_ (Habs & _)]|(campaign & qs & w3 & rl & w4 & Hrow & Hsel & Hd3 & Hl & Hfin)];
    [discriminate|].
  destruct (campaign_row_In Hrow) as [_ Hid].
  destruct rl as [t0|x]; [|destruct Hfin as [Habs _]; discriminate].
  destruct (finish_inv Hfin) as (_ & He' & [Hr|(x & Habs & _)]); [|discriminate].
  injection Hr as <- <-.
  destruct (for_batches_done _ _ _ _ Hl) as (Hcount & Hrows).
  split; [reflexivity|]. split.
  { apply Hcount. unfold counts_bounded. simpl. lia. }
  exists campaign, qs. split; [assumption|]. split; [assumption|].
  intros c Hin Hq. rewrite He'.
  assert (Hidc : In (Customer.id c)
                    (map Customer.id (filter qs (customers (db w))))).
  { apply in_map. apply filter_In. auto. }
  destruct (slices_cover _ _ Hidc) as (i & Hi & Hsl).
  rewrite Hd3 in Hrows. rewrite <- Hid.
  eapply Hrows; eassumption.
Qed.

(** ** The counters of a run *)

Lemma process_customer_counts (campaign : Campaign.t) (customer : Customer.t)
      (t : Totals) (w : World) :
  faults w = [] -> events_ok (events (db w)) ->
  exists t' w',
    process_customer str_format campaign customer t w = (Ok t', w') /\
    faults w' = [] /\ events_ok (events (db w')) /\
    (counts_add_up t -> counts_add_up t').
Proof.
  intros Hf Hok.
  destruct (process_customer_ok str_format campaign customer t w Hf Hok)
    as (t' & w' & Hrun & Hf' & _ & _ & Hcase).
  destruct (process_customer_inv str_format Hrun) as (_ & Hev & _).
  exists t', w'. split; [assumption|]. split; [assumption|].
  split; [apply (evolves_ok Hev Hok)|].
  destruct Hcase as [(e & _ & _ & -> & _)|(e0 & e' & _ & _ & _ & Hout)]; [auto|].
  unfold attempt_outcome in Hout. unfold counts_add_up.
  destruct (str_format _ _) as [message|x].
  - destruct Hout as (_ & _ & Hout).
    destruct (rand w (rand_ix w)); destruct Hout as (-> & _); simpl; lia.
  - destruct Hout as (-> & _). simpl. lia.
Qed.

Lemma for_customers_counts (campaign : Campaign.t) (batch : list Customer.t) :
  forall (t : Totals) (w : World),
    faults w = [] -> events_ok (events (db w)) ->
    exists t' w',
      for_customers str_format campaign batch t w = (Ok t', w') /\
      faults w' = [] /\ events_ok (events (db w')) /\
      (counts_add_up t -> counts_add_up t').
Proof.
  induction batch as [|c rest IH]; intros t w Hf Hok; simpl.
  - exists t, w. split; [reflexivity|]. auto.
  - destruct (process_customer_counts campaign c t w Hf Hok)
      as (t1 & w1 & Hrun & Hf1 & Hok1 & Hc1).
    destruct (IH t1 w1 Hf1 Hok1) as (t' & w' & Hrun' & Hf' & Hok' & Hc').
    exists t', w'. rewrite (bind_ok _ Hrun). split; [exact Hrun'|].
    split; [assumption|]. split; [assumption|]. intros H. apply Hc', Hc1, H.
Qed.

Lemma for_batches_counts (campaign : Campaign.t) (customer_ids : list pk)
      (starts : list nat) :
  forall (t : Totals) (w : World),
    faults w = [] -> events_ok (events (db w)) ->
    exists t' w',
      for_batches str_format campaign customer_ids starts t w = (Ok t', w') /\
      faults w' = [] /\ events_ok (events (db w')) /\
      (counts_add_up t -> counts_add_up t').
Proof.
  induction starts as [|i rest IH]; intros t w Hf Hok; simpl.
  - exists t, w. split; [reflexivity|]. auto.
  - rewrite (bind_ok _ (customers_id_in_ok _ Hf)).
    match goal with
    | |- context [bind (for_customers str_format campaign ?cs t) _ w] =>
        destruct (for_customers_counts campaign cs t w Hf Hok)
          as (t1 & w1 & Hrun & Hf1 & Hok1 & Hc1)
    end.
    rewrite (bind_ok _ Hrun).
    destruct (IH t1 w1 Hf1 Hok1) as (t' & w' & Hrun' & Hf' & Hok' & Hc').
    exists t', w'. split; [exact Hrun'|].
    split; [assumption|]. split; [assumption|]. intros H. apply Hc', Hc1, H.
Qed.

(** X11. When the storage works, a run of an existing campaign whose
    segment resolves returns a summary in which every processed event is
    counted exactly once, as sent or as failed:
    total_processed = total_sent + total_failed. *)
Theorem summary_counts_add_up (campaign_id : pk) (w : World)
        (campaign : Campaign.t) (qs : QuerySet) :
  faults w = [] -> events_ok (events (db w)) ->
  campaign_row (db w) campaign_id = Some campaign ->
  selected_by campaign w = Some qs ->
  exists t w',
    run_campaign_task str_format campaign_id w
    = (Ok (ReturnSummary campaign_id t), w') /\
    total_processed t = total_sent t + total_failed t.
Proof.
  intros Hf Hok Hrow Hsel.
  destruct (campaign_row_In Hrow) as [Hin Hid].
  destruct (selected_by_run _ _ _ Hsel) as (w2 & Hseg & Hd2 & Hf2).
  rewrite Hf in Hf2.
  assert (Hok2 : events_ok (events (db w2))) by (rewrite Hd2; assumption).
  destruct (for_batches_counts campaign
              (map Customer.id (filter qs (customers (db w2))))
              (range_step (List.length (map Customer.id (filter qs (customers (db w2)))))
                          batch_size)
              (mkTotals 0 0 0) w2 Hf2 Hok2)
    as (t & w4 & Hloop & Hf4 & Hok4 & Hcount).
  destruct (for_batches_inv str_format _ _ _ _ Hloop) as ((Hcu & _ & Hca) & _).
  assert (Hin4 : In campaign (campaigns (db w4))) by (rewrite Hca, Hd2; assumption).
  exists t. eexists.
  unfold run_campaign_task, try_except, task_body.
  rewrite (bind_ok _ (get_campaign_ok Hf Hrow)).
  change (fun c : Customer.t =>
            (Customer.restaurant c =? Campaign.restaurant campaign)%nat)
    with (restaurant_customers campaign).
  cbv zeta. rewrite (bind_ok _ Hseg).
  rewrite (bind_ok _ (values_list_id_ok _ Hf2)).
  rewrite (bind_ok _ Hloop).
  unfold finish. rewrite (bind_ok _ (save_campaign_status_ok _ Hf4 Hin4 completed)).
  unfold ret. split; [reflexivity|]. apply Hcount. reflexivity.
Qed.

(** X12. When the save that follows the simulated delivery fails and the
    save of the [except] arm then goes through, the event is counted twice:
    once by the branch taken before the save (as sent or as failed) and once
    more as failed.  The message has been handed over, the row is left
    [failed] with the storage error as its [error_message] and with its
    [sent_at] as it was, so the next run attempts the customer again. *)
Theorem failed_save_is_counted_twice
        (campaign : Campaign.t) (customer : Customer.t) (e : OutreachEvent.t)
        (t : Totals) (w : World) (msg message : string)
        (rest : list (option string)) :
  events_ok (events (db w)) -> In e (events (db w)) ->
  event_key e = (Campaign.id campaign, Customer.id customer) ->
  terminal (OutreachEvent.status e) = false ->
  str_format (Campaign.message_template campaign) (Customer.first_name customer)
  = Ok message ->
  faults w = None :: Some msg :: None :: rest ->
  exists w' e',
    process_customer str_format campaign customer t w
    = (Ok (add_processed
             (add_failed (if rand w (rand_ix w) then add_sent t else add_failed t))),
       w') /\
    faults w' = rest /\
    outbox w' = (Customer.email customer, substring 0 50 message) :: outbox w /\
    filter (event_for (Campaign.id campaign) (Customer.id customer))
           (events (db w')) = [e'] /\
    OutreachEvent.id e' = OutreachEvent.id e /\
    OutreachEvent.status e' = failed /\
    OutreachEvent.error_message e' = Some msg /\
    OutreachEvent.sent_at e' = OutreachEvent.sent_at e /\
    terminal (OutreachEvent.status e') = false.
Proof.
  intros [Hids Hkeys] Hin Hkey Hterm Hfmt Hfaults.
  pose proof (filter_key_In _ _ Hkeys Hin Hkey) as Hfil.
  assert (Hex : forall ev, OutreachEvent.id ev = OutreachEvent.id e ->
             existsb (fun row => (OutreachEvent.id row =? OutreachEvent.id ev)%nat)
                     (events (db w)) = true).
  { intros ev Hid. apply existsb_exists. exists e. split; [assumption|].
    apply Nat.eqb_eq. congruence. }
  destruct w as [d clk ci rnd ri fl ob]. cbn [db faults rand rand_ix outbox] in *.
  subst fl.
  unfold process_customer, get_or_create_event.
  unfold bind at 1. unfold bind at 1. unfold storage at 1. cbn [faults db].
  unfold bind at 1. unfold get_db at 1. cbn [db]. rewrite Hfil.
  unfold ret at 1. rewrite Hterm.
  unfold process_event. rewrite Hfmt.
  unfold send_email, random_lt_09, timezone_now, try_except, event_failed, save_event.
  unfold bind, ret, storage, get_db, put_db, raise.
  cbn [db clock clock_ix rand rand_ix faults outbox exn_str].
  destruct (rnd ri);
    cbn [db clock clock_ix rand rand_ix faults outbox exn_str set_outcome
         OutreachEvent.id];
    rewrite (Hex e eq_refl);
    do 2 eexists; (split; [reflexivity|]);
    cbn [db set_db clock clock_ix rand rand_ix faults outbox events];
    rewrite filter_event_update, Hfil;
    cbn [map]; unfold update_event; rewrite Nat.eqb_refl;
    repeat split.
Qed.

(** X13. [get_or_create] on the event table is idempotent: when the storage
    works and the table satisfies its uniqueness constraints, a second call
    for the same campaign and customer returns the row of the first and
    creates nothing.  A row is created only when the pair had none; it is
    [queued], on the [email] channel, and the only change to the table. *)
Theorem get_or_create_event_twice (campaign : Campaign.t) (customer : Customer.t)
        (w : World) :
  faults w = [] -> events_ok (events (db w)) ->
  exists e created w1,
    get_or_create_event campaign customer w = (Ok (e, created), w1) /\
    get_or_create_event campaign customer w1 = (Ok (e, false), w1) /\
    event_key e = (Campaign.id campaign, Customer.id customer) /\
    events_ok (events (db w1)) /\
    (if created
     then ~ In (Campaign.id campaign, Customer.id customer)
               (map event_key (events (db w))) /\
          events (db w1) = e :: events (db w) /\
          OutreachEvent.status e = queued /\ OutreachEvent.channel e = email /\
          OutreachEvent.sent_at e = None /\ OutreachEvent.error_message e = None
     else w1 = w /\ In e (events (db w))).
Proof.
  intros Hf Hok.
  destruct (get_or_create_event_ok campaign customer w Hf Hok)
    as [(e & Hfil & Hg)|(Hfil & Hg)].
  - assert (Hin : In e (events (db w)) /\
                  event_for (Campaign.id campaign) (Customer.id customer) e = true).
    { apply filter_In. rewrite Hfil. left. reflexivity. }
    destruct Hin as [Hin Hkey]. apply event_for_key in Hkey.
    exists e, false, w. auto 10.
  - set (e := new_event (Campaign.id campaign) (Customer.id customer) (events (db w))) in *.
    set (w1 := set_db _ w) in *.
    assert (Hok1 : events_ok (events (db w1))).
    { apply (evolves_ok (camp := Campaign.id campaign) (P := fun _ => True)
                        (evs := events (db w))); [|assumption].
      apply ev_create; [constructor|exact I|assumption]. }
    exists e, true, w1. split; [assumption|]. split.
    + destruct (get_or_create_event_ok campaign customer w1 Hf Hok1)
        as [(e1 & Hfil1 & Hg1)|(Hfil1 & _)].
      * cbn [w1 db set_db events filter] in Hfil1.
        assert (E : event_for (Campaign.id campaign) (Customer.id customer) e = true)
          by (apply event_for_key; reflexivity).
        rewrite E, Hfil in Hfil1. injection Hfil1 as <-. exact Hg1.
      * exfalso. apply filter_key_nil in Hfil1. apply Hfil1. left. reflexivity.
    + split; [reflexivity|]. split; [assumption|].
      split; [apply filter_key_nil; assumption|]. repeat split.
Qed.

End PipelineMore.

(** ** Triggering, pausing and resuming a campaign *)



Section TriggerFacts.

Variable delay : pk -> M unit.



End TriggerFacts.

(** ** The further properties on the sample data *)

Lemma record_visit_all_or_nothing_witness :
  fst (record_visit (ById 1) 5000 None flaky_world)
  = Raise (mkExn DatabaseError "deadlock detected") /\
  db (snd (record_visit (ById 1) 5000 None flaky_world)) = db flaky_world.
Proof.
  split; [reflexivity|].
  exact (record_visit_all_or_nothing (ById 1) 5000 None flaky_world
           (snd (record_visit (ById 1) 5000 None flaky_world))
           (Raise (mkExn DatabaseError "deadlock detected")) eq_refl).
Defined.


Lemma run_touches_only_its_campaign_witness :
  campaign_row
    (db (snd (run_campaign_task format_first_name 1 (sample_world campaign_db)))) 2
  = Some birthday.
Proof.
  destruct (run_touches_only_its_campaign format_first_name 1
              (sample_world campaign_db)
              (snd (run_campaign_task format_first_name 1 (sample_world campaign_db)))
              (fst (run_campaign_task format_first_name 1 (sample_world campaign_db))))
    as (_ & _ & Hrows & _).
  - split; constructor.
  - apply surjective_pairing.
  - rewrite Hrows; [reflexivity|discriminate].
Defined.

Lemma run_keeps_every_row_witness :
  let w1 := snd (run_campaign_task format_first_name 1 (sample_world campaign_db)) in
  let w2 := snd (run_campaign_task format_first_name 1 w1) in
  map OutreachEvent.id (events (db w1)) = [2; 1] /\
  exists e', In e' (events (db w2)) /\
             OutreachEvent.id e' = 1 /\ event_key e' = (1, 2) /\
             OutreachEvent.status e' <> queued.
Proof.
  intros w1 w2. split; [vm_compute; reflexivity|].
  destruct (run_keeps_every_row format_first_name 1 w1 w2
              (fst (run_campaign_task format_first_name 1 w1))
              (surjective_pairing (run_campaign_task format_first_name 1 w1)))
    as [Hkeep _].
  assert (Hin : In (OutreachEvent.mk 1 1 2 email sent None
                                     (Some 63929260800000001%Z))
                   (events (db w1))).
  { assert (E : events (db w1)
                = [OutreachEvent.mk 2 1 1 email sent None (Some 63929260800000002%Z);
                   OutreachEvent.mk 1 1 2 email sent None (Some 63929260800000001%Z)])
      by (vm_compute; reflexivity).
    rewrite E. right. left. reflexivity. }
  destruct (Hkeep _ Hin) as (e' & Hin' & Hid & Hkey & _ & Hq).
  exists e'. split; [exact Hin'|]. split; [exact Hid|]. split; [exact Hkey|].
  apply Hq. discriminate.
Defined.

Lemma summary_means_segment_is_done_witness :
  counts_bounded (mkTotals 2 2 0) /\
  exists campaign qs,
    campaign_row (db (sample_world campaign_db)) 1 = Some campaign /\
    selected_by campaign (sample_world campaign_db) = Some qs /\
    forall c, In c (customers campaign_db) -> qs c = true ->
      exists e',
        In e' (events (db (snd (run_campaign_task format_first_name 1
                                  (sample_world campaign_db))))) /\
        event_key e' = (1, Customer.id c) /\ OutreachEvent.status e' <> queued.
Proof.
  assert (Hrun : run_campaign_task format_first_name 1 (sample_world campaign_db)
                 = (Ok (ReturnSummary 1 (mkTotals 2 2 0)),
                    snd (run_campaign_task format_first_name 1
                           (sample_world campaign_db)))).
  { transitivity
      (fst (run_campaign_task format_first_name 1 (sample_world campaign_db)),
       snd (run_campaign_task format_first_name 1 (sample_world campaign_db)));
      [apply surjective_pairing|].
    apply (f_equal (fun r => (r, snd (run_campaign_task format_first_name 1
                                        (sample_world campaign_db))))).
    vm_compute. reflexivity. }
  destruct (summary_means_segment_is_done format_first_name 1 1
              (sample_world campaign_db) _ (mkTotals 2 2 0) Hrun)
    as (_ & Hcount & Hrows).
  split; [exact Hcount|exact Hrows].
Defined.

Lemma summary_counts_add_up_witness :
  exists t w',
    run_campaign_task format_first_name 1 (sample_world campaign_db)
    = (Ok (ReturnSummary 1 t), w') /\
    total_processed t = total_sent t + total_failed t.
Proof.
  apply (summary_counts_add_up format_first_name 1 (sample_world campaign_db)
           come_back
           (fun c => restaurant_customers come_back c &&
                     inactive_before (sample_now + Z.of_nat 0 - 30 * US_PER_DAY)%Z c));
    [reflexivity|split; constructor|reflexivity|reflexivity].
Defined.


Lemma failed_save_is_counted_twice_witness :
  exists w',
    process_customer format_first_name come_back lapsed (mkTotals 0 0 0) retry_world
    = (Ok (mkTotals 1 1 1), w') /\
    outbox w' = [("inactive@example.com", "Hello Inactive, come back!")]%string.
Proof.
  destruct (failed_save_is_counted_twice format_first_name come_back lapsed
              stale_event (mkTotals 0 0 0) retry_world "connection reset"
              "Hello Inactive, come back!" [])
    as (w' & e' & Hrun & _ & Hout & _).
  - split; repeat constructor; simpl; tauto.
  - left. reflexivity.
  - reflexivity.
  - reflexivity.
  - reflexivity.
  - reflexivity.
  - exists w'. split; [exact Hrun|exact Hout].
Defined.


Lemma get_or_create_event_twice_witness :
  exists e created w1,
    get_or_create_event come_back lapsed (sample_world campaign_db)
    = (Ok (e, created), w1) /\
    get_or_create_event come_back lapsed w1 = (Ok (e, false), w1) /\
    event_key e = (1, 2).
Proof.
  destruct (get_or_create_event_twice come_back lapsed (sample_world campaign_db))
    as (e & created & w1 & H1 & H2 & Hkey & _).
  - reflexivity.
  - split; constructor.
  - exists e, created, w1. split; [exact H1|]. split; [exact H2|exact Hkey].
Defined.



